(** * Transaction extraction and reconciliation engine of [src/api/index.js]

    A shallow embedding of the ingestion service and the proofs of its
    specified properties.

    Conventions of the embedding.
    - A JavaScript string is a Rocq [string]: a sequence of 8-bit characters,
      read as the UTF-8 bytes of the text.  The length of a text in UTF-16
      code units, which is what [s.length] counts, is [utf16Length].  Case
      mapping, the classes [\s] and [\w] and [trim] are those of JavaScript
      on ASCII text only: outside ASCII [toLowerCase] leaves characters alone
      and no character is white space, where JavaScript maps every cased
      letter and knows white space such as U+00A0.  What is proved of the
      functions built on them is proved for ASCII text ([isAscii]).
    - A JavaScript Number is a binary64 value, Rocq's primitive [float].
    - [null] is [None].
    - The process-wide variables [actualReady], [actualAccounts] and
      [actualCategories] are the fields of an explicit [Cache] that every
      function reading or writing them receives and returns.
    - The services the program talks to (the ledger library, the inference
      endpoint, the file system, the clock) are a record [Services] of
      answers; every call made to them is recorded in the call log of the
      [State], and an answer may depend on the whole log.
    - The functions of the engine are computations over the [State] that run
      from their beginning to their end: a request is handled before the next
      one starts.  What happens when two calls of [ensureActualReady] overlap,
      each suspended at its [await]s, is the subject of the step model
      [resume]. *)

From Stdlib Require Import ZArith List String Ascii Bool Lia.
From Stdlib Require Import Decimal DecimalString DecimalZ Uint63 Floats.
Import ListNotations.

Set Warnings "-inexact-float,-register-all".

Local Open Scope list_scope.
Local Open Scope string_scope.

(* ================================================================== *)
(** * JavaScript strings *)
(* ================================================================== *)

Module JsString.

(** [\d]: an ASCII decimal digit. *)
Definition isDigit (c : ascii) : bool :=
  let n := nat_of_ascii c in (48 <=? n)%nat && (n <=? 57)%nat.

(** [\s] and the characters [trim] removes, on ASCII: TAB, LF, VT, FF, CR
    and SPACE. *)
Definition isSpace (c : ascii) : bool :=
  let n := nat_of_ascii c in ((9 <=? n)%nat && (n <=? 13)%nat) || (n =? 32)%nat.

Definition isUpper (c : ascii) : bool :=
  let n := nat_of_ascii c in (65 <=? n)%nat && (n <=? 90)%nat.

Definition lowerChar (c : ascii) : ascii :=
  if isUpper c then ascii_of_nat (nat_of_ascii c + 32) else c.

(** [s.toLowerCase()] *)
Fixpoint toLowerCase (s : string) : string :=
  match s with
  | EmptyString => EmptyString
  | String c t => String (lowerChar c) (toLowerCase t)
  end.

(** [s.startsWith(p)] *)
Fixpoint startsWith (s p : string) : bool :=
  match p, s with
  | EmptyString, _ => true
  | String _ _, EmptyString => false
  | String a p', String b s' => Ascii.eqb a b && startsWith s' p'
  end.

(** [s.includes(sub)] *)
Fixpoint includes (s sub : string) : bool :=
  startsWith s sub ||
  match s with
  | EmptyString => false
  | String _ t => includes t sub
  end.

(** [s.replace(/[...]/g, '')] for a character class: the characters of the
    class are deleted. *)
Fixpoint removeAll (cls : ascii -> bool) (s : string) : string :=
  match s with
  | EmptyString => EmptyString
  | String c t => if cls c then removeAll cls t else String c (removeAll cls t)
  end.

Fixpoint dropWhile (cls : ascii -> bool) (s : string) : string :=
  match s with
  | EmptyString => EmptyString
  | String c t => if cls c then dropWhile cls t else s
  end.

Fixpoint rev_onto (s acc : string) : string :=
  match s with
  | EmptyString => acc
  | String c t => rev_onto t (String c acc)
  end.

Definition rev (s : string) : string := rev_onto s EmptyString.

(** [s.trim()] *)
Definition trim (s : string) : string :=
  rev (dropWhile isSpace (rev (dropWhile isSpace s))).

(** [s.slice(0, n)] for [0 <= n] *)
Fixpoint take (n : nat) (s : string) : string :=
  match n, s with
  | O, _ => EmptyString
  | S _, EmptyString => EmptyString
  | S n', String c t => String c (take n' t)
  end.

Fixpoint drop (n : nat) (s : string) : string :=
  match n, s with
  | O, _ => s
  | S _, EmptyString => EmptyString
  | S n', String _ t => drop n' t
  end.

(** [parts.join(sep)] *)
Fixpoint join (sep : string) (parts : list string) : string :=
  match parts with
  | [] => EmptyString
  | [p] => p
  | p :: ps => p ++ sep ++ join sep ps
  end.

(** A string is truthy when it is not empty. *)
Definition truthy (s : string) : bool :=
  match s with EmptyString => false | String _ _ => true end.

(** Text that holds only characters of ASCII.  On such text a byte is a
    UTF-16 code unit, and the functions above are those of JavaScript. *)
Definition isAsciiChar (c : ascii) : bool := (nat_of_ascii c <? 128)%nat.

Definition isAscii (s : string) : bool :=
  forallb isAsciiChar (list_ascii_of_string s).

(** [s.length]: the number of UTF-16 code units of the text whose UTF-8
    bytes are [s].  A character of one, two or three bytes is one unit, a
    character of four bytes is two (a surrogate pair); the bytes that
    continue a character count nothing. *)
Fixpoint utf16Length (s : string) : nat :=
  match s with
  | EmptyString => 0
  | String c t =>
      let n := nat_of_ascii c in
      (if (n <? 128)%nat then 1
       else if (n <? 192)%nat then 0
       else if (n <? 240)%nat then 1
       else 2) + utf16Length t
  end.

End JsString.

Import JsString.

(* ================================================================== *)
(** * The catalog: accounts and categories *)
(* ================================================================== *)

Record Account := mkAccount {
  a_id : string;
  a_name : string;
  a_closed : bool
}.

Record Category := mkCategory {
  c_id : string;
  c_name : string;
  c_hidden : bool
}.

(* ================================================================== *)
(** * Matching helpers *)
(* ================================================================== *)

(** [extractDigits]: the matches of [/\d{4}/g], left to right.  A match is
    tried at each position in turn; after a match the search resumes behind
    its fourth digit. *)
Definition fourDigits (a b c d : ascii) : bool :=
  isDigit a && isDigit b && isDigit c && isDigit d.

Fixpoint extractDigits (str : string) : list string :=
  match str with
  | EmptyString => []
  | String a t =>
      match t with
      | String b (String c (String d rest)) =>
          if fourDigits a b c d
          then String a (String b (String c (String d EmptyString)))
                 :: extractDigits rest
          else extractDigits t
      | _ => []
      end
  end.

(** The test of the first [find] of [matchAccount]:
    [a.name.toLowerCase() === accountName?.toLowerCase()].  For a null label
    the right-hand side is [undefined], equal to no string. *)
Definition exactName (accountName : option string) (a : Account) : bool :=
  match accountName with
  | Some n => String.eqb (toLowerCase (a_name a)) (toLowerCase n)
  | None => false
  end.

Definition starOrSpace (c : ascii) : bool :=
  Ascii.eqb c "*"%char || isSpace c.

(** The test of the second [find]:
    [a.name.toLowerCase().includes(accountName.toLowerCase()) ||
     accountName.toLowerCase().includes(a.name.toLowerCase().replace(/[*\s]/g, ''))]. *)
Definition partialName (accountName : string) (a : Account) : bool :=
  includes (toLowerCase (a_name a)) (toLowerCase accountName) ||
  includes (toLowerCase accountName)
           (removeAll starOrSpace (toLowerCase (a_name a))).

(** The test of the third [find]: [a.name.includes(digits)]. *)
Definition nameHasDigits (digits : string) (a : Account) : bool :=
  includes (a_name a) digits.

(** The loop [for (const digits of smsDigits)]. *)
Fixpoint digitFallback (actualAccounts : list Account) (smsDigits : list string)
  : option Account :=
  match smsDigits with
  | [] => None
  | digits :: more =>
      match find (nameHasDigits digits) actualAccounts with
      | Some account => Some account
      | None => digitFallback actualAccounts more
      end
  end.

(** The second stage, guarded by [if (accountName)]: it runs for a label that
    is neither null nor empty. *)
Definition partialStage (actualAccounts : list Account)
  (accountName : option string) : option Account :=
  match accountName with
  | Some n => if truthy n then find (partialName n) actualAccounts else None
  | None => None
  end.

Definition matchAccount (actualAccounts : list Account)
  (accountName : option string) (sms : string) : option Account :=
  match find (exactName accountName) actualAccounts with
  | Some account => Some account
  | None =>
      match partialStage actualAccounts accountName with
      | Some account => Some account
      | None => digitFallback actualAccounts (extractDigits sms)
      end
  end.

(** [/[^\w\s]/]: neither a word character [A-Za-z0-9_] nor white space. *)
Definition isWord (c : ascii) : bool :=
  let n := nat_of_ascii c in
  isDigit c || isUpper c || ((97 <=? n)%nat && (n <=? 122)%nat) || (n =? 95)%nat.

Definition notWordNorSpace (c : ascii) : bool :=
  negb (isWord c || isSpace c).

Definition exactCategory (categoryName : string) (c : Category) : bool :=
  String.eqb (toLowerCase (c_name c)) (toLowerCase categoryName).

Definition partialCategory (search : string) (c : Category) : bool :=
  let name := removeAll notWordNorSpace (toLowerCase (c_name c)) in
  includes name search || includes search name.

Definition matchCategory (actualCategories : list Category)
  (categoryName : option string) : option Category :=
  match categoryName with
  | None => None
  | Some n =>
      if truthy n then
        let search := removeAll notWordNorSpace (toLowerCase n) in
        match find (exactCategory n) actualCategories with
        | Some category => Some category
        | None => find (partialCategory search) actualCategories
        end
      else None
  end.

(* ================================================================== *)
(** * SHA-256 ([crypto.createHash("sha256").update(s).digest("hex")]) *)
(* ================================================================== *)

(** The hash function of FIPS 180-4 over 32-bit words held in [Z], every
    addition reduced modulo [2^32]. *)
Module SHA256.

Local Open Scope Z_scope.

Definition wordMod : Z := 2 ^ 32.

Definition wrap (x : Z) : Z := x mod wordMod.
Definition plus32 (x y : Z) : Z := wrap (x + y).
Definition rotr (n x : Z) : Z :=
  Z.lor (Z.shiftr x n) (wrap (Z.shiftl x (32 - n))).
Definition not32 (x : Z) : Z := Z.lxor x (wordMod - 1).

Definition choose (x y z : Z) : Z :=
  Z.lxor (Z.land x y) (Z.land (not32 x) z).
Definition majority (x y z : Z) : Z :=
  Z.lxor (Z.lxor (Z.land x y) (Z.land x z)) (Z.land y z).
Definition bigSigma0 (x : Z) : Z :=
  Z.lxor (Z.lxor (rotr 2 x) (rotr 13 x)) (rotr 22 x).
Definition bigSigma1 (x : Z) : Z :=
  Z.lxor (Z.lxor (rotr 6 x) (rotr 11 x)) (rotr 25 x).
Definition smallSigma0 (x : Z) : Z :=
  Z.lxor (Z.lxor (rotr 7 x) (rotr 18 x)) (Z.shiftr x 3).
Definition smallSigma1 (x : Z) : Z :=
  Z.lxor (Z.lxor (rotr 17 x) (rotr 19 x)) (Z.shiftr x 10).

(** The constants of the standard are fractional parts of roots of the first
    primes: the round constants the first 32 bits of the fractional parts of
    the cube roots of the first 64 primes, the initial hash value those of
    the square roots of the first 8. *)
Definition isPrime (n : nat) : bool :=
  forallb (fun d => negb (n mod d =? 0)%nat) (seq 2 (n - 2)).

Definition primes : list Z := map Z.of_nat (filter isPrime (seq 2 310)).

(** The integer cube root of [target], bit by bit from bit [n - 1] down. *)
Fixpoint cubeRoot (n : nat) (target root : Z) : Z :=
  match n with
  | O => root
  | S n' =>
      let next := root + 2 ^ Z.of_nat n' in
      if next * next * next <=? target then cubeRoot n' target next
      else cubeRoot n' target root
  end.

Definition roundConstants : list Z :=
  map (fun p => wrap (cubeRoot 36 (p * 2 ^ 96) 0)) primes.

(** The eight working variables, and the hash value between blocks. *)
Record Registers := mkRegisters {
  va : Z; vb : Z; vc : Z; vd : Z; ve : Z; vf : Z; vg : Z; vh : Z
}.

Definition rootFraction (i : nat) : Z :=
  wrap (Z.sqrt (nth i primes 0 * 2 ^ 64)).

Definition initialState : Registers :=
  mkRegisters (rootFraction 0) (rootFraction 1) (rootFraction 2) (rootFraction 3)
              (rootFraction 4) (rootFraction 5) (rootFraction 6) (rootFraction 7).

(** Bytes of the message, then the padding: the bit 1, zero bits up to 56
    modulo 64 bytes, and the bit length as a 64-bit big-endian integer. *)
Definition bytesOf (s : string) : list Z :=
  map (fun c => Z.of_nat (nat_of_ascii c)) (list_ascii_of_string s).

Definition bigEndian (width : nat) (x : Z) : list Z :=
  map (fun i => Z.shiftr x (8 * Z.of_nat i) mod 256) (List.rev (seq 0 width)).

Definition pad (msg : list Z) : list Z :=
  let len := Z.of_nat (List.length msg) in
  let zeros := Z.to_nat ((55 - len) mod 64) in
  (msg ++ [0x80] ++ repeat 0 zeros ++ bigEndian 8 (8 * len))%list.

Fixpoint wordsOf (bytes : list Z) : list Z :=
  match bytes with
  | b0 :: b1 :: b2 :: b3 :: more =>
      (b0 * 2 ^ 24 + b1 * 2 ^ 16 + b2 * 2 ^ 8 + b3) :: wordsOf more
  | _ => []
  end.

(** The message schedule, most recent word first: [recent] holds
    [W(t-1), W(t-2), ...]. *)
Definition nextWord (recent : list Z) : Z :=
  plus32 (plus32 (smallSigma1 (nth 1 recent 0)) (nth 6 recent 0))
         (plus32 (smallSigma0 (nth 14 recent 0)) (nth 15 recent 0)).

Fixpoint extend (n : nat) (recent : list Z) : list Z :=
  match n with
  | O => recent
  | S n' => extend n' (nextWord recent :: recent)
  end.

Definition schedule (block : list Z) : list Z :=
  List.rev (extend 48 (List.rev block)).

Definition round (st : Registers) (kw : Z * Z) : Registers :=
  let t1 := plus32 (plus32 (plus32 (vh st) (bigSigma1 (ve st)))
                           (plus32 (choose (ve st) (vf st) (vg st)) (fst kw)))
                   (snd kw) in
  let t2 := plus32 (bigSigma0 (va st)) (majority (va st) (vb st) (vc st)) in
  mkRegisters (plus32 t1 t2) (va st) (vb st) (vc st)
          (plus32 (vd st) t1) (ve st) (vf st) (vg st).

Definition addState (x y : Registers) : Registers :=
  mkRegisters (plus32 (va x) (va y)) (plus32 (vb x) (vb y))
          (plus32 (vc x) (vc y)) (plus32 (vd x) (vd y))
          (plus32 (ve x) (ve y)) (plus32 (vf x) (vf y))
          (plus32 (vg x) (vg y)) (plus32 (vh x) (vh y)).

Definition compress (h : Registers) (block : list Z) : Registers :=
  addState h (fold_left round (combine roundConstants (schedule block)) h).

(** The padded message is consumed sixteen words at a time. *)
Fixpoint blocks (fuel : nat) (h : Registers) (words : list Z) : Registers :=
  match fuel, words with
  | S fuel', _ :: _ => blocks fuel' (compress h (firstn 16 words)) (skipn 16 words)
  | _, _ => h
  end.

Definition digestState (s : string) : Registers :=
  let words := wordsOf (pad (bytesOf s)) in
  blocks (List.length words) initialState words.

Definition hexDigit (n : Z) : ascii :=
  nth (Z.to_nat (n mod 16))
      (list_ascii_of_string "0123456789abcdef") "0"%char.

(** A 32-bit word as eight lower-case hexadecimal digits. *)
Definition hexWord (w : Z) : string :=
  string_of_list_ascii
    (map (fun i => hexDigit (Z.shiftr w (4 * Z.of_nat i))) (List.rev (seq 0 8))).

Definition hexState (st : Registers) : string :=
  (hexWord (va st) ++ hexWord (vb st) ++ hexWord (vc st) ++ hexWord (vd st) ++
   hexWord (ve st) ++ hexWord (vf st) ++ hexWord (vg st) ++ hexWord (vh st))%string.

End SHA256.

(** [sha256(s)] of the source: the digest in hexadecimal. *)
Definition sha256 (s : string) : string :=
  SHA256.hexState (SHA256.digestState s).

(* ================================================================== *)
(** * JavaScript Numbers *)
(* ================================================================== *)

Module JsNumber.

Local Open Scope Z_scope.

(** The Number with the integer value [z], for [|z| <= 2^53] (every such
    integer is a binary64 value). *)
Definition ofZ (z : Z) : float :=
  if z <? 0
  then PrimFloat.opp (PrimFloat.of_uint63 (Uint63.of_Z (- z)))
  else PrimFloat.of_uint63 (Uint63.of_Z z).

(** The integer nearest to [num / den], for [0 < den]; of two equally near
    integers the larger one: [floor (num/den + 1/2)]. *)
Definition roundHalfUp (num den : Z) : Z := (2 * num + den) / (2 * den).

Definition signed (s : bool) (m : positive) : Z :=
  if s then Z.neg m else Z.pos m.

(** [Math.round(x)]: the integral Number closest to [x], a tie going towards
    +Infinity; NaN, the infinities, the zeros and integral values are
    returned as they are; a negative [x] that rounds to zero gives [-0].
    A finite [x] is [signed s m * 2^e]; for [e < 0] its rounding is below
    [2^53] in magnitude. *)
Definition Math_round (x : float) : float :=
  match Prim2SF x with
  | S754_finite s m e =>
      if 0 <=? e then x
      else
        let n := roundHalfUp (signed s m) (2 ^ (- e)) in
        if (n =? 0) && s then (-0)%float else ofZ n
  | _ => x
  end.

(** The value of [x] when it is an integer of magnitude at most [2^53]
    (both zeros are the integer 0). *)
Definition safeInteger (x : float) : option Z :=
  match Prim2SF x with
  | S754_zero _ => Some 0
  | S754_finite s m e =>
      if 0 <=? e then
        if Z.pos m * 2 ^ e <=? 2 ^ 53 then Some (signed s m * 2 ^ e) else None
      else
        if Z.pos m mod 2 ^ (- e) =? 0 then Some (signed s m / 2 ^ (- e)) else None
  | _ => None
  end.

(** Decimal digits of an integer, a minus sign before a negative one. *)
Definition decimal (z : Z) : string :=
  NilEmpty.string_of_int (Z.to_int z).

(** The binary64 value nearest to [num / den] (ties to even), for
    [0 < num] and [0 < den]: the value of a decimal literal. *)
Definition nearest (num den : Z) : spec_float :=
  SFdiv prec emax (S754_finite false (Z.to_pos num) 0)
                  (S754_finite false (Z.to_pos den) 0).

(** The binary64 value of [digits * 10^exp10]. *)
Definition ofDecimal (negative : bool) (digits exp10 : Z) : float :=
  if digits =? 0 then (if negative then (-0)%float else 0%float)
  else
    let v := if 0 <=? exp10 then nearest (digits * 10 ^ exp10) 1
             else nearest digits (10 ^ (- exp10)) in
    let f := SF2Prim v in
    if negative then PrimFloat.opp f else f.

(** ** [Number::toString] (radix 10) *)

(** [x < 10^n] for the positive rational [x = num / den]. *)
Definition below10 (num den n : Z) : bool :=
  if 0 <=? n then num <? den * 10 ^ n else num * 10 ^ (- n) <? den.

(** The [n] with [10^(n-1) <= x < 10^n], searched upwards from [from]. *)
Fixpoint magnitude (fuel : nat) (num den from : Z) : Z :=
  match fuel with
  | O => from
  | S fuel' =>
      if below10 num den from then from else magnitude fuel' num den (from + 1)
  end.

(** Does the decimal [s * 10^j] denote the Number [x]? *)
Definition denotes (x : spec_float) (s j : Z) : bool :=
  let v := if 0 <=? j then nearest (s * 10 ^ j) 1 else nearest s (10 ^ (- j)) in
  match SFcompare v x with Some Eq => true | _ => false end.

(** For [k] significant digits: the [s] (with its [n]) below and above
    [x / 10^(n-k)] that denote [x], the one closer to [x] first (the even
    one of two equally close). *)
Definition candidate (x : spec_float) (num den n k : Z) : option (Z * Z) :=
  let j := n - k in
  let (ynum, yden) := if 0 <=? j then (num, den * 10 ^ j)
                      else (num * 10 ^ (- j), den) in
  let lo := ynum / yden in
  let r := ynum mod yden in
  let hi := lo + 1 in
  let okLo := denotes x lo j in
  let okHi := negb (r =? 0) && denotes x hi j in
  let pick (s : Z) := if s =? 10 ^ k then (10 ^ (k - 1), n + 1) else (s, n) in
  match Z.compare (2 * r) yden with
  | Lt => if okLo then Some (pick lo) else if okHi then Some (pick hi) else None
  | Gt => if okHi then Some (pick hi) else if okLo then Some (pick lo) else None
  | Eq => if okLo && (Z.even lo || negb okHi) then Some (pick lo)
          else if okHi then Some (pick hi) else None
  end.

(** The least [k >= 1] with a candidate, as [(k, s, n)].  Seventeen digits
    always suffice for a binary64 value, so the search ends by [k = 17]. *)
Fixpoint shortest (fuel : nat) (x : spec_float) (num den n k : Z)
  : Z * Z * Z :=
  match fuel with
  | O => (k, 10 ^ (k - 1), n)
  | S fuel' =>
      match candidate x num den n k with
      | Some (s, n') => (k, s, n')
      | None => shortest fuel' x num den n (k + 1)
      end
  end.

Definition zeros (n : Z) : string :=
  string_of_list_ascii (repeat "0"%char (Z.to_nat n)).

(** The text of a positive finite Number from its shortest digits [s]
    ([k] of them) and its magnitude [n]. *)
Definition render (k s n : Z) : string :=
  let digits := decimal s in
  if (k <=? n) && (n <=? 21) then (digits ++ zeros (n - k))%string
  else if (0 <? n) && (n <=? 21) then
    (take (Z.to_nat n) digits ++ "." ++ drop (Z.to_nat n) digits)%string
  else if (-6 <? n) && (n <=? 0) then ("0." ++ zeros (- n) ++ digits)%string
  else
    let e := n - 1 in
    let exponent :=
      ((if (e <? 0)%Z then "-" else "+") ++ decimal (Z.abs e))%string in
    if k =? 1 then (digits ++ "e" ++ exponent)%string
    else (take 1 digits ++ "." ++ drop 1 digits ++ "e" ++ exponent)%string.

Definition positiveToString (m : positive) (e : Z) : string :=
  let (num, den) := if 0 <=? e then (Z.pos m * 2 ^ e, 1)
                    else (Z.pos m, 2 ^ (- e)) in
  let n := magnitude 640 num den (-324) in
  let '(k, s, n') := shortest 17 (S754_finite false m e) num den n 1 in
  render k s n'.

(** [String(x)], [`${x}`]: an integer of magnitude at most [2^53] is
    written with all its digits; every other finite value with the
    shortest digits that denote it. *)
Definition Number_toString (x : float) : string :=
  match safeInteger x with
  | Some z => decimal z
  | None =>
      match Prim2SF x with
      | S754_nan => "NaN"
      | S754_infinity s => if s then "-Infinity" else "Infinity"
      | S754_zero _ => "0"
      | S754_finite s m e =>
          ((if s then "-" else EmptyString) ++ positiveToString m e)%string
      end
  end.

End JsNumber.

Import JsNumber.

(** [toMinorUnits(amount)] *)
Definition toMinorUnits (amount : float) : float :=
  Math_round (amount * 100)%float.

(* ================================================================== *)
(** * JSON *)
(* ================================================================== *)

Inductive Json :=
| JNull
| JBool (b : bool)
| JNumber (x : float)
| JString (s : string)
| JArray (items : list Json)
| JObject (members : list (string * Json)).

(** [JSON.parse] after ECMA-404: a value between optional white space and
    nothing else.  The members of an object are kept in source order, with
    their duplicates; [getProperty] reads the last one, as the object built by
    [JSON.parse] does.  An escape [\uXXXX] is stored as the UTF-8 bytes of its
    code point, two escapes forming a surrogate pair as one code point, a lone
    surrogate as U+FFFD (what every UTF-8 output of the program makes of it). *)
Module JsonParser.

Definition isJsonSpace (c : ascii) : bool :=
  let n := nat_of_ascii c in
  (n =? 32)%nat || (n =? 9)%nat || (n =? 10)%nat || (n =? 13)%nat.

Definition skipSpace (s : string) : string := dropWhile isJsonSpace s.

Fixpoint span (cls : ascii -> bool) (s : string) : string * string :=
  match s with
  | EmptyString => (EmptyString, EmptyString)
  | String c t =>
      if cls c then let (run, rest) := span cls t in (String c run, rest)
      else (EmptyString, s)
  end.

Definition hexValue (c : ascii) : option Z :=
  let n := Z.of_nat (nat_of_ascii c) in
  if ((48 <=? n) && (n <=? 57))%Z then Some (n - 48)%Z
  else if ((97 <=? n) && (n <=? 102))%Z then Some (n - 87)%Z
  else if ((65 <=? n) && (n <=? 70))%Z then Some (n - 55)%Z
  else None.

Definition hex4 (a b c d : ascii) : option Z :=
  match hexValue a, hexValue b, hexValue c, hexValue d with
  | Some x, Some y, Some z, Some w => Some (((x * 16 + y) * 16 + z) * 16 + w)%Z
  | _, _, _, _ => None
  end.

Definition byte (n : Z) : ascii := ascii_of_nat (Z.to_nat n).

(** UTF-8 of a code point. *)
Definition utf8 (cp : Z) : string :=
  let cont (shift : Z) := byte (Z.lor 128 (Z.land (Z.shiftr cp shift) 63)) in
  if (cp <? 128)%Z then String (byte cp) EmptyString
  else if (cp <? 2048)%Z then
    String (byte (Z.lor 192 (Z.shiftr cp 6))) (String (cont 0%Z) EmptyString)
  else if (cp <? 65536)%Z then
    String (byte (Z.lor 224 (Z.shiftr cp 12)))
      (String (cont 6%Z) (String (cont 0%Z) EmptyString))
  else
    String (byte (Z.lor 240 (Z.shiftr cp 18)))
      (String (cont 12%Z) (String (cont 6%Z) (String (cont 0%Z) EmptyString))).

Definition isHighSurrogate (u : Z) : bool := ((55296 <=? u) && (u <=? 56319))%Z.
Definition isLowSurrogate (u : Z) : bool := ((56320 <=? u) && (u <=? 57343))%Z.

Definition simpleEscape (c : ascii) : option ascii :=
  match c with
  | "034"%char => Some "034"%char
  | "\"%char => Some "\"%char
  | "/"%char => Some "/"%char
  | "b"%char => Some (ascii_of_nat 8)
  | "f"%char => Some (ascii_of_nat 12)
  | "n"%char => Some (ascii_of_nat 10)
  | "r"%char => Some (ascii_of_nat 13)
  | "t"%char => Some (ascii_of_nat 9)
  | _ => None
  end.

(** The characters of a string literal after its opening quote, up to the
    closing one. *)
Fixpoint parseChars (s : string) : option (string * string) :=
  match s with
  | EmptyString => None
  | String c t =>
      if Ascii.eqb c "034"%char then Some (EmptyString, t)
      else if Ascii.eqb c "\"%char then
        match t with
        | EmptyString => None
        | String e t1 =>
            match simpleEscape e with
            | Some b =>
                match parseChars t1 with
                | Some (str, rest) => Some (String b str, rest)
                | None => None
                end
            | None =>
                if Ascii.eqb e "u"%char then
                  match t1 with
                  | String h1 (String h2 (String h3 (String h4 t2))) =>
                      match hex4 h1 h2 h3 h4 with
                      | None => None
                      | Some u =>
                          let alone :=
                            match parseChars t2 with
                            | Some (str, rest) =>
                                let cp := if isHighSurrogate u || isLowSurrogate u
                                          then 65533%Z else u in
                                Some (utf8 cp ++ str, rest)
                            | None => None
                            end in
                          if isHighSurrogate u then
                            match t2 with
                            | String b1 (String b2 (String l1 (String l2
                                (String l3 (String l4 t3))))) =>
                                match hex4 l1 l2 l3 l4 with
                                | Some v =>
                                    if Ascii.eqb b1 "\"%char && Ascii.eqb b2 "u"%char
                                       && isLowSurrogate v
                                    then
                                      match parseChars t3 with
                                      | Some (str, rest) =>
                                          Some (utf8 (65536 + (u - 55296) * 1024
                                                      + (v - 56320))%Z ++ str, rest)
                                      | None => None
                                      end
                                    else alone
                                | None => alone
                                end
                            | _ => alone
                            end
                          else alone
                      end
                  | _ => None
                  end
                else None
            end
        end
      else if (nat_of_ascii c <? 32)%nat then None
      else
        match parseChars t with
        | Some (str, rest) => Some (String c str, rest)
        | None => None
        end
  end.

Definition digitsValue (digits : string) : Z :=
  fold_left (fun acc c => (acc * 10 + (Z.of_nat (nat_of_ascii c) - 48))%Z)
            (list_ascii_of_string digits) 0%Z.

(** [s] without its first character when that is [c]. *)
Definition afterChar (c : ascii) (s : string) : option string :=
  match s with
  | EmptyString => None
  | String a t => if Ascii.eqb a c then Some t else None
  end.

(** The integer part of a number: a single 0, or digits not starting with 0. *)
Definition integerPart (digits : string) : bool :=
  match digits with
  | EmptyString => false
  | String c EmptyString => true
  | String c (String _ _) => negb (Ascii.eqb c "0"%char)
  end.

(** An optional fraction: a point and at least one digit. *)
Definition fraction (s : string) : option (string * string) :=
  match afterChar "."%char s with
  | Some t =>
      let (digits, rest) := span isDigit t in
      if truthy digits then Some (digits, rest) else None
  | None => Some (EmptyString, s)
  end.

(** An optional exponent: e or E, an optional sign and at least one digit. *)
Definition exponent (s : string) : option (Z * string) :=
  let marked :=
    match afterChar "e"%char s with
    | Some t => Some t
    | None => afterChar "E"%char s
    end in
  match marked with
  | None => Some (0%Z, s)
  | Some t =>
      let (minus, t1) :=
        match afterChar "-"%char t with
        | Some t' => (true, t')
        | None =>
            match afterChar "+"%char t with
            | Some t' => (false, t')
            | None => (false, t)
            end
        end in
      let (digits, rest) := span isDigit t1 in
      if truthy digits
      then Some ((if minus then - digitsValue digits else digitsValue digits)%Z, rest)
      else None
  end.

(** A number: an optional minus sign, the integer part, the optional
    fraction and the optional exponent. *)
Definition parseNumber (s : string) : option (float * string) :=
  let (negative, s1) :=
    match afterChar "-"%char s with
    | Some t => (true, t)
    | None => (false, s)
    end in
  let (int, s2) := span isDigit s1 in
  if integerPart int then
    match fraction s2 with
    | None => None
    | Some (frac, s3) =>
        match exponent s3 with
        | None => None
        | Some (exp10, s4) =>
            Some (ofDecimal negative (digitsValue (int ++ frac))
                            (exp10 - Z.of_nat (String.length frac))%Z, s4)
        end
    end
  else None.

(** A literal name. *)
Definition keyword (name : string) (v : Json) (s : string)
  : option (Json * string) :=
  if startsWith s name then Some (v, drop (String.length name) s) else None.

(** A value that is not an array or an object: a string, a literal name or
    a number. *)
Definition parseScalar (s : string) : option (Json * string) :=
  match afterChar "034"%char s with
  | Some t =>
      match parseChars t with
      | Some (str, rest) => Some (JString str, rest)
      | None => None
      end
  | None =>
      match keyword "true" (JBool true) s with
      | Some r => Some r
      | None =>
          match keyword "false" (JBool false) s with
          | Some r => Some r
          | None =>
              match keyword "null" JNull s with
              | Some r => Some r
              | None =>
                  match parseNumber s with
                  | Some (x, rest) => Some (JNumber x, rest)
                  | None => None
                  end
              end
          end
      end
  end.

(** A value, then the elements of an array from its first, then the members
    of an object from its first; [fuel] bounds the nesting of the calls. *)
Fixpoint parseValue (fuel : nat) (s : string) : option (Json * string) :=
  match fuel with
  | O => None
  | S fuel' =>
      let s' := skipSpace s in
      match afterChar "["%char s' with
      | Some t =>
          match afterChar "]"%char (skipSpace t) with
          | Some rest => Some (JArray [], rest)
          | None =>
              match parseElements fuel' t with
              | Some (items, rest) => Some (JArray items, rest)
              | None => None
              end
          end
      | None =>
          match afterChar "{"%char s' with
          | Some t =>
              match afterChar "}"%char (skipSpace t) with
              | Some rest => Some (JObject [], rest)
              | None =>
                  match parseMembers fuel' t with
                  | Some (members, rest) => Some (JObject members, rest)
                  | None => None
                  end
              end
          | None => parseScalar s'
          end
      end
  end

with parseElements (fuel : nat) (s : string) : option (list Json * string) :=
  match fuel with
  | O => None
  | S fuel' =>
      match parseValue fuel' s with
      | None => None
      | Some (v, rest) =>
          match afterChar "]"%char (skipSpace rest) with
          | Some rest' => Some ([v], rest')
          | None =>
              match afterChar ","%char (skipSpace rest) with
              | None => None
              | Some rest' =>
                  match parseElements fuel' rest' with
                  | Some (vs, rest'') => Some (v :: vs, rest'')
                  | None => None
                  end
              end
          end
      end
  end

with parseMembers (fuel : nat) (s : string)
  : option (list (string * Json) * string) :=
  match fuel with
  | O => None
  | S fuel' =>
      match afterChar "034"%char (skipSpace s) with
      | None => None
      | Some t =>
          match parseChars t with
          | None => None
          | Some (key, rest) =>
              match afterChar ":"%char (skipSpace rest) with
              | None => None
              | Some rest1 =>
                  match parseValue fuel' rest1 with
                  | None => None
                  | Some (v, rest2) =>
                      match afterChar "}"%char (skipSpace rest2) with
                      | Some rest3 => Some ([(key, v)], rest3)
                      | None =>
                          match afterChar ","%char (skipSpace rest2) with
                          | None => None
                          | Some rest3 =>
                              match parseMembers fuel' rest3 with
                              | Some (ms, rest4) => Some ((key, v) :: ms, rest4)
                              | None => None
                              end
                          end
                      end
                  end
              end
          end
      end
  end.

End JsonParser.

(** [JSON.parse(text)]; [None] when it throws a SyntaxError. *)
Definition JSON_parse (text : string) : option Json :=
  match JsonParser.parseValue (2 * String.length text + 2) text with
  | Some (v, rest) =>
      match JsonParser.skipSpace rest with
      | EmptyString => Some v
      | String _ _ => None
      end
  | None => None
  end.

(** Text written with apostrophes where the program's text has double
    quotes: [quoted "{'a':1}"] is the seven characters of the JSON text. *)
Definition quoted (s : string) : string :=
  string_of_list_ascii
    (map (fun c => if Ascii.eqb c "'"%char then "034"%char else c)
         (list_ascii_of_string s)).

(** [v.name] for the property names the program reads ([message], [content],
    [done], [sms] and the five fields of an extraction): the value of the last
    such member of an object; [None], JavaScript's [undefined], for an object
    without it and for every other value.  With [getOptional] it is [v?.name]. *)
Fixpoint lookupLast (name : string) (members : list (string * Json))
  : option Json :=
  match members with
  | [] => None
  | (key, v) :: more =>
      match lookupLast name more with
      | Some later => Some later
      | None => if String.eqb key name then Some v else None
      end
  end.

Definition getProperty (v : Json) (name : string) : option Json :=
  match v with
  | JObject members => lookupLast name members
  | _ => None
  end.

Definition getOptional (v : option Json) (name : string) : option Json :=
  match v with
  | Some (JNull) | None => None
  | Some w => getProperty w name
  end.

(** [JSON.stringify] of a value that [JSON.parse] returned. *)
Module JsonPrinter.

Definition hex2 (n : nat) : string :=
  String (SHA256.hexDigit (Z.of_nat (n / 16)))
    (String (SHA256.hexDigit (Z.of_nat n)) EmptyString).

Fixpoint escape (s : string) : string :=
  match s with
  | EmptyString => EmptyString
  | String c t =>
      let n := nat_of_ascii c in
      (if Ascii.eqb c "034"%char then quoted "\'"
       else if Ascii.eqb c "\"%char then "\\"
       else if (n =? 8)%nat then "\b"
       else if (n =? 12)%nat then "\f"
       else if (n =? 10)%nat then "\n"
       else if (n =? 13)%nat then "\r"
       else if (n =? 9)%nat then "\t"
       else if (n <? 32)%nat then "\u00" ++ hex2 n
       else String c EmptyString) ++ escape t
  end.

Definition quote (s : string) : string := quoted "'" ++ escape s ++ quoted "'".

(** An array index: the canonical decimal text of an integer below
    [2^32 - 1]; such keys are enumerated first, in ascending order. *)
Definition arrayIndex (key : string) : option Z :=
  let canonical :=
    match key with
    | EmptyString => false
    | String "0"%char (String _ _) => false
    | _ => forallb isDigit (list_ascii_of_string key)
    end in
  if canonical then
    let n := JsonParser.digitsValue key in
    if (n <? 2 ^ 32 - 1)%Z then Some n else None
  else None.

(** The properties of the object in first-definition order, each with the
    value of its last definition. *)
Fixpoint define (key value : string) (props : list (string * string))
  : list (string * string) :=
  match props with
  | [] => [(key, value)]
  | (k, v) :: more =>
      if String.eqb k key then (k, value) :: more
      else (k, v) :: define key value more
  end.

Fixpoint insertIndex (i : Z) (entry : string * string)
  (sorted : list (Z * (string * string))) : list (Z * (string * string)) :=
  match sorted with
  | [] => [(i, entry)]
  | (j, e) :: more =>
      if (i <? j)%Z then (i, entry) :: sorted
      else (j, e) :: insertIndex i entry more
  end.

Definition ownProperties (members : list (string * string))
  : list (string * string) :=
  let props := fold_left (fun acc m => define (fst m) (snd m) acc) members [] in
  let indexed :=
    fold_left (fun acc p =>
                 match arrayIndex (fst p) with
                 | Some i => insertIndex i p acc
                 | None => acc
                 end) props [] in
  (map snd indexed ++
   filter (fun p => match arrayIndex (fst p) with
                    | Some _ => false | None => true end) props)%list.

Definition isFinite (x : float) : bool :=
  match Prim2SF x with
  | S754_nan | S754_infinity _ => false
  | _ => true
  end.

Fixpoint stringify (v : Json) : string :=
  match v with
  | JNull => "null"
  | JBool b => if b then "true" else "false"
  | JNumber x => if isFinite x then Number_toString x else "null"
  | JString s => quote s
  | JArray items => "[" ++ join "," (map stringify items) ++ "]"
  | JObject members =>
      let rendered := map (fun m => (fst m, stringify (snd m))) members in
      "{" ++ join "," (map (fun p => quote (fst p) ++ ":" ++ snd p)
                           (ownProperties rendered)) ++ "}"
  end.

End JsonPrinter.

Definition JSON_stringify (v : Json) : string := JsonPrinter.stringify v.

(* ================================================================== *)
(** * Errors *)
(* ================================================================== *)

(** What the program throws: an [Error] with its message (also what a service
    call rejects with), or the SyntaxError of [JSON.parse]. *)
Inductive Thrown :=
| Error (message : string)
| SyntaxError (text : string).

Definition Result (A : Type) : Type := (Thrown + A)%type.

Definition ok {A : Type} (x : A) : Result A := inr x.
Definition throw {A : Type} (e : Thrown) : Result A := inl e.

(** [JSON.parse] as a statement that may throw. *)
Definition parseOrThrow (text : string) : Result Json :=
  match JSON_parse text with
  | Some v => ok v
  | None => throw (SyntaxError text)
  end.

(* ================================================================== *)
(** * JSON extraction helpers *)
(* ================================================================== *)

Definition fence : string := "```".

(** A greedy [\s*]: what is left of [s] after skipping white space, the
    longest skip first, as the matcher tries them. *)
Fixpoint afterSpaces (s : string) : list string :=
  match s with
  | EmptyString => [s]
  | String c t => if isSpace c then (afterSpaces t ++ [s])%list else [s]
  end.

(** The end of the pattern, a greedy [\s*] and the closing fence, matches at
    the head of [s]. *)
Definition closesFence (s : string) : bool :=
  existsb (fun r => startsWith r fence) (afterSpaces s).

(** The lazy group [([\s\S]*?)] followed by the end of the pattern: the
    shortest capture after which the fence closes. *)
Fixpoint lazyCapture (s : string) : option string :=
  if closesFence s then Some EmptyString
  else
    match s with
    | EmptyString => None
    | String c t =>
        match lazyCapture t with
        | Some capture => Some (String c capture)
        | None => None
        end
    end.

Fixpoint firstSome {A B : Type} (f : A -> option B) (l : list A) : option B :=
  match l with
  | [] => None
  | x :: more =>
      match f x with
      | Some y => Some y
      | None => firstSome f more
      end
  end.

(** The pattern behind an opening fence: the optional tag [json] (any case),
    taken first and given up on failure, then the greedy [\s*], then the
    group. *)
Definition afterOpening (t : string) : option string :=
  let tagged :=
    if startsWith (toLowerCase t) "json" then afterSpaces (drop 4 t) else [] in
  firstSome lazyCapture (tagged ++ afterSpaces t)%list.

(** The leftmost match of the regular expression in [s]: its group 1. *)
Fixpoint fenced (s : string) : option string :=
  match (if startsWith s fence then afterOpening (drop 3 s) else None) with
  | Some capture => Some capture
  | None =>
      match s with
      | EmptyString => None
      | String _ t => fenced t
      end
  end.

Definition stripCodeFences (s : string) : string :=
  match fenced s with
  | Some capture => capture
  | None => s
  end.

(** [s.indexOf(c)] as the suffix of [s] that begins at the first [c]. *)
Fixpoint fromFirst (c : ascii) (s : string) : option string :=
  match s with
  | EmptyString => None
  | String ch t => if Ascii.eqb ch c then Some s else fromFirst c t
  end.

(** The loop of [extractFirstJsonObjectString] from position [i] with the
    current [depth]: the characters from [i] up to the one that brings the
    depth to zero. *)
Fixpoint scanBraces (s : string) (depth : Z) : option string :=
  match s with
  | EmptyString => None
  | String ch t =>
      let depth' :=
        if Ascii.eqb ch "{"%char then (depth + 1)%Z
        else if Ascii.eqb ch "}"%char then (depth - 1)%Z
        else depth in
      if (depth' =? 0)%Z then Some (String ch EmptyString)
      else
        match scanBraces t depth' with
        | Some more => Some (String ch more)
        | None => None
        end
  end.

Definition noBraceMessage : string := "No '{' found in model output".
Definition unterminatedMessage : string := "Unterminated JSON object in model output".

Definition extractFirstJsonObjectString (s : string) : Result string :=
  match fromFirst "{"%char s with
  | None => throw (Error noBraceMessage)
  | Some fromStart =>
      match scanBraces fromStart 0 with
      | Some object => ok object
      | None => throw (Error unterminatedMessage)
      end
  end.

Definition parseModelJsonFromText (text : string) : Result Json :=
  let stripped := trim (stripCodeFences text) in
  match JSON_parse stripped with
  | Some v => ok v
  | None =>
      match extractFirstJsonObjectString stripped with
      | inl e => throw e
      | inr objStr => parseOrThrow objStr
      end
  end.

(* ================================================================== *)
(** * The model gateway: assembling the reply of the inference service *)
(* ================================================================== *)

Definition newline : ascii := "010"%char.

(** [body.split("\n")] *)
Fixpoint splitLines (body : string) : list string :=
  match body with
  | EmptyString => [EmptyString]
  | String c t =>
      if Ascii.eqb c newline then EmptyString :: splitLines t
      else
        match splitLines t with
        | line :: more => String c line :: more
        | [] => [String c EmptyString]
        end
  end.

(** [chunk?.message?.content] *)
Definition messageContent (chunk : Json) : option Json :=
  getOptional (getOptional (Some chunk) "message") "content".

(** [chunk?.done === true] *)
Definition isDone (chunk : Json) : bool :=
  match getOptional (Some chunk) "done" with
  | Some (JBool true) => true
  | _ => false
  end.

(** The branch taken when the whole body is one JSON document. *)
Definition singleObjectContent (obj : Json) : string :=
  match messageContent obj with
  | Some (JString content) => content
  | Some (JObject members) => JSON_stringify (JObject members)
  | Some (JArray items) => JSON_stringify (JArray items)
  | Some (JNumber x) => Number_toString x
  | Some (JBool b) => if b then "true" else "false"
  | Some JNull | None => EmptyString
  end.

(** The loop over the lines of a streamed body: a line that is not JSON is
    skipped, a string content is appended, and the loop stops behind the
    first chunk whose [done] is [true]. *)
Fixpoint assembleLines (lines : list string) (assembled : string) : string :=
  match lines with
  | [] => assembled
  | line :: more =>
      match JSON_parse line with
      | None => assembleLines more assembled
      | Some chunk =>
          let assembled' :=
            match messageContent chunk with
            | Some (JString part) => assembled ++ part
            | _ => assembled
            end in
          if isDone chunk then assembled' else assembleLines more assembled'
      end
  end.

Definition assembleFailedMessage : string :=
  "Failed to assemble model output from NDJSON stream".

(** The fallback for a body that is not one JSON document. *)
Definition assembleNdjson (body : string) : Result string :=
  let lines := filter truthy (splitLines body) in
  let assembled := assembleLines lines EmptyString in
  if truthy assembled then ok assembled
  else throw (Error assembleFailedMessage).

(** What [ollamaChatText] makes of the body of a successful reply. *)
Definition contentOfBody (body : string) : Result string :=
  match JSON_parse body with
  | Some obj => ok (singleObjectContent obj)
  | None => assembleNdjson body
  end.

(* ================================================================== *)
(** * The validator *)
(* ================================================================== *)

(** The validated extraction [{ amount, description, date, account, category }]. *)
Record Parsed := mkParsed {
  amount : option float;
  description : option string;
  date : option string;
  account : option string;
  category : option string
}.

(** [x === null || typeof x === "number"] *)
Definition numberOrNull (field : option Json) : option (option float) :=
  match field with
  | Some JNull => Some None
  | Some (JNumber x) => Some (Some x)
  | _ => None
  end.

(** [x === null || typeof x === "string"] *)
Definition stringOrNull (field : option Json) : option (option string) :=
  match field with
  | Some JNull => Some None
  | Some (JString s) => Some (Some s)
  | _ => None
  end.

(** [!p || typeof p !== "object"]: only arrays and objects pass. *)
Definition isObject (p : Json) : bool :=
  match p with
  | JObject _ | JArray _ => true
  | _ => false
  end.

Definition validateParsed (p : Json) : Result Parsed :=
  if negb (isObject p) then throw (Error "LLM output is not an object") else
  match numberOrNull (getProperty p "amount") with
  | None => throw (Error "amount must be number or null")
  | Some amount =>
  match stringOrNull (getProperty p "description") with
  | None => throw (Error "description must be string or null")
  | Some description =>
  match stringOrNull (getProperty p "date") with
  | None => throw (Error "date must be string or null")
  | Some date =>
  match stringOrNull (getProperty p "account") with
  | None => throw (Error "account must be string or null")
  | Some account =>
  match stringOrNull (getProperty p "category") with
  | None => throw (Error "category must be string or null")
  | Some category => ok (mkParsed amount description date account category)
  end end end end end.

(* ================================================================== *)
(** * The transaction builder *)
(* ================================================================== *)

(** The record handed to [importTransactions]. *)
Record Transaction := mkTransaction {
  tx_account : string;
  tx_date : string;
  tx_amount : float;
  tx_payee_name : option string;
  tx_category : option string;
  tx_notes : string;
  tx_imported_id : string;
  tx_cleared : bool
}.

(** [x ?? ""] *)
Definition orEmpty (x : option string) : string :=
  match x with
  | Some s => s
  | None => EmptyString
  end.

(** [x || null] for a string or null. *)
Definition orNull (x : option string) : option string :=
  match x with
  | Some s => if truthy s then Some s else None
  | None => None
  end.

(** The text that is hashed:
    [`${sms}||${finalDate}||${amountInt}||${description ?? ""}`]. *)
Definition keyText (sms finalDate : string) (amountInt : float)
  (description : option string) : string :=
  sms ++ "||" ++ finalDate ++ "||" ++ Number_toString amountInt ++ "||"
      ++ orEmpty description.

(** [idKey]: the first 32 characters of the digest. *)
Definition idKey (sms finalDate : string) (amountInt : float)
  (description : option string) : string :=
  take 32 (sha256 (keyText sms finalDate amountInt description)).

(** [date && date.length >= 10]: the extracted date is kept. *)
Definition keepsDate (date : option string) : bool :=
  match date with
  | Some d => truthy d && (10 <=? utf16Length d)%nat
  | None => false
  end.

(** The object literal [tx] of [importIntoActual]. *)
Definition buildTransaction (notesPrefix : string) (accountId : string)
  (categoryId : option string) (sms finalDate : string) (amount : float)
  (description : option string) : Transaction :=
  let amountInt := toMinorUnits amount in
  mkTransaction accountId finalDate amountInt (orNull description) categoryId
    (trim (notesPrefix ++ ": " ++ orEmpty description))
    ("sms:" ++ idKey sms finalDate amountInt description)
    false.

(* ================================================================== *)
(** * The prompt *)
(* ================================================================== *)

Definition promptHead : string := quoted "
You are a financial transaction parser.

You will receive ONE SMS message from an Indian bank, card issuer, insurer, or UPI system.

FIRST DECIDE:
Is this SMS confirming a COMPLETED financial transaction
(where money has already been debited or credited)?

Examples of NOT a transaction:
- premium due reminders, upcoming charges, standing instruction notices
- payment reminders, OTPs, promotions, warnings, balance alerts
- 'will be deducted', 'due on', 'scheduled', 'if paid', 'may be charged'

IF NOT a completed transaction: return JSON with ALL fields set to null

AVAILABLE ACCOUNTS:
".

Definition promptCategories : string := "

AVAILABLE CATEGORIES:
".

Definition promptRules : string := quoted "

RULES:
1. AMOUNT SIGN:
   - DEBIT/SPENT/PAID/WITHDRAWN/PURCHASE = NEGATIVE (e.g., 'Rs.500 debited' → -500)
   - CREDIT/RECEIVED/REFUND/CASHBACK = POSITIVE (e.g., 'Rs.100 credited' → 100)

2. ACCOUNT: Match to an account from the AVAILABLE ACCOUNTS list above.
   - First try to match by last 4 digits in SMS (e.g., 'Card 6101', 'XX2979')
   - If no digit match, match by bank/card name (e.g., 'HSBC' in SMS → 'HSBC ****0001' from list)
   - IMPORTANT: Always return an exact account name from the list above, never invent or modify account names

3. CATEGORY: Pick the best matching category name from the list, or null if uncertain

4. Output ONLY valid JSON, no markdown, no explanation
5. Date format: YYYY-MM-DD or null
6. Description: merchant name only, no card numbers

OUTPUT FORMAT:
{
  'amount': number | null,
  'description': string | null,
  'date': string | null,
  'account': string | null,
  'category': string | null
}

SMS:
".

Definition promptForSMS (sms : string) (accounts : list Account)
  (categories : list Category) : string :=
  let accountsList :=
    join (String newline EmptyString) (map (fun a => "  - " ++ a_name a) accounts) in
  let categoriesList :=
    join (String newline EmptyString) (map (fun c => "  - " ++ c_name c) categories) in
  trim (promptHead ++ accountsList ++ promptCategories ++ categoriesList
        ++ promptRules ++ sms).

(* ================================================================== *)
(** * The world: configuration, services, the catalog cache *)
(* ================================================================== *)

(** The environment variables the engine reads. *)
Record Config := mkConfig {
  ACTUAL_SERVER_URL : string;
  ACTUAL_PASSWORD : string;
  ACTUAL_BUDGET_ID : string;
  ACTUAL_FILE_PASSWORD : option string;
  OLLAMA_URL : string;
  OLLAMA_MODEL : string;
  IMPORT_NOTES_PREFIX : string;
  TIMEZONE : string;
  ACTUAL_DATADIR : string
}.

(** The request body of the chat call; [options.temperature = 0], the output
    schema and [stream = false] are constants of the program. *)
Record Payload := mkPayload {
  p_model : string;
  p_content : string
}.

(** The calls the engine makes to the outside. *)
Inductive Call :=
| Mkdir (path : string)
| Init (dataDir serverURL password : string)
| DownloadBudget (budgetId : string) (password : option string)
| GetAccounts
| GetCategories
| Shutdown
| ImportTransactions (accountId : string) (transactions : list Transaction)
| Fetch (url : string) (payload : Payload)
| Today (tz : string).

(** The reply of [fetch]: status and body text; [res.ok] is a status from
    200 to 299. *)
Record HttpResponse := mkHttpResponse {
  res_status : Z;
  res_text : string
}.

Definition res_ok (res : HttpResponse) : bool :=
  ((200 <=? res_status res) && (res_status res <=? 299))%Z.

(** How the outside answers: each answer may depend on every call made so
    far, the one being answered last.  A rejected promise is [inl]. *)
Record Services := mkServices {
  on_mkdir : list Call -> Result unit;
  on_init : list Call -> Result unit;
  on_downloadBudget : list Call -> Result unit;
  on_getAccounts : list Call -> Result (list Account);
  on_getCategories : list Call -> Result (list Category);
  on_shutdown : list Call -> Result unit;
  on_importTransactions : list Call -> Result Json;
  on_fetch : list Call -> Result HttpResponse;
  on_today : list Call -> string
}.

(** The three process-wide variables. *)
Record Cache := mkCache {
  actualReady : bool;
  actualAccounts : list Account;
  actualCategories : list Category
}.

(** [actualReady = false], [actualAccounts = []], [actualCategories = []]. *)
Definition uninitialized : Cache := mkCache false [] [].

Record State := mkState {
  cache : Cache;
  calls : list Call
}.

(** Computations over the state that return or throw. *)
Definition M (A : Type) : Type := State -> Result A * State.

Definition ret {A : Type} (x : A) : M A := fun st => (ok x, st).

Definition raise {A : Type} (e : Thrown) : M A := fun st => (throw e, st).

Definition bind {A B : Type} (m : M A) (k : A -> M B) : M B :=
  fun st =>
    match m st with
    | (inl e, st') => (inl e, st')
    | (inr x, st') => k x st'
    end.

(** [try { m } catch (e) { handler e }] *)
Definition tryCatch {A : Type} (m : M A) (handler : Thrown -> M A) : M A :=
  fun st =>
    match m st with
    | (inl e, st') => handler e st'
    | (inr x, st') => (inr x, st')
    end.

Definition lift {A : Type} (r : Result A) : M A := fun st => (r, st).

Definition getCache : M Cache := fun st => (ok (cache st), st).

Definition putCache (c : Cache) : M unit :=
  fun st => (ok tt, mkState c (calls st)).

(** A call to the outside: it is recorded, then answered. *)
Definition request {A : Type} (c : Call) (answer : list Call -> Result A) : M A :=
  fun st =>
    let log := (calls st ++ [c])%list in
    (answer log, mkState (cache st) log).

Declare Scope engine_scope.
Delimit Scope engine_scope with engine.

Notation "x <- m ;; k" := (bind m (fun x => k))
  (at level 61, m at next level, right associativity) : engine_scope.
Notation "m ;; k" := (bind m (fun _ => k))
  (at level 61, right associativity) : engine_scope.

Local Open Scope engine_scope.

(* ================================================================== *)
(** * The engine *)
(* ================================================================== *)

(** The reply of [POST /ingest]. *)
Record Imported := mkImported {
  finalDate : string;
  tx : Transaction;
  result : Json
}.

Inductive Response :=
| MissingSms                                      (* 400, "missing sms string" *)
| Ignored (parsed : Parsed)                       (* ok, ignored: true *)
| Accepted (parsed : Parsed) (imported : Imported) (* ok, ignored: false *)
| Failed (e : Thrown).                            (* 500, the message of [e] *)

Definition noActiveAccountsMessage : string :=
  "No active accounts found in Actual Budget".

(** [`Could not match account "${accountName}". Available: ${validNames}`] *)
Definition matchErrorMessage (accountName : option string)
  (accounts : list Account) : string :=
  quoted "Could not match account '"
  ++ match accountName with Some n => n | None => "null" end
  ++ quoted "'. Available: " ++ join ", " (map a_name accounts).

Section Engine.

Variable cfg : Config.
Variable svc : Services.

Definition ensureDirExists (path : string) : M unit :=
  request (Mkdir path) (on_mkdir svc).

Definition todayISO (tz : string) : M string :=
  request (Today tz) (fun log => ok (on_today svc log)).

(** The guard [actualReady && actualAccounts.length > 0]. *)
Definition isReady (c : Cache) : bool :=
  actualReady c && (0 <? List.length (actualAccounts c))%nat.

(** The body of the [try] block of [ensureActualReady]. *)
Definition initializeCatalog : M unit :=
  request (Init (ACTUAL_DATADIR cfg) (ACTUAL_SERVER_URL cfg) (ACTUAL_PASSWORD cfg))
          (on_init svc) ;;
  request (DownloadBudget (ACTUAL_BUDGET_ID cfg) (ACTUAL_FILE_PASSWORD cfg))
          (on_downloadBudget svc) ;;
  accounts <- request GetAccounts (on_getAccounts svc) ;;
  c <- getCache ;;
  let active := filter (fun a => negb (a_closed a)) accounts in
  putCache (mkCache (actualReady c) active (actualCategories c)) ;;
  if (List.length active =? 0)%nat then raise (Error noActiveAccountsMessage)
  else
    categories <- request GetCategories (on_getCategories svc) ;;
    c <- getCache ;;
    let visible :=
      filter (fun c => negb (c_hidden c) && truthy (c_name c)) categories in
    putCache (mkCache true (actualAccounts c) visible).

(** The [catch] block: [shutdown] is attempted, its own failure dropped; the
    three variables are reset; the error is thrown again. *)
Definition resetCatalog (e : Thrown) : M unit :=
  tryCatch (request Shutdown (on_shutdown svc)) (fun _ => ret tt) ;;
  putCache uninitialized ;;
  raise e.

Definition ensureActualReady : M unit :=
  c <- getCache ;;
  if isReady c then ret tt
  else
    ensureDirExists (ACTUAL_DATADIR cfg) ;;
    tryCatch initializeCatalog resetCatalog.

(** The part of [ollamaChatText] around the network call. *)
Definition ollamaChatText (payload : Payload) : M string :=
  res <- request (Fetch (OLLAMA_URL cfg ++ "/api/chat") payload) (on_fetch svc) ;;
  if negb (res_ok res) then
    raise (Error ("Ollama error " ++ decimal (res_status res) ++ ": " ++ res_text res))
  else lift (contentOfBody (res_text res)).

Definition ollamaParse (sms : string) (accounts : list Account)
  (categories : list Category) : M Json :=
  contentText <- ollamaChatText
    (mkPayload (OLLAMA_MODEL cfg) (promptForSMS sms accounts categories)) ;;
  lift (parseModelJsonFromText contentText).

(** [importIntoActual({ sms, ...parsed })]; its only caller passes an amount
    that is a number. *)
Definition importIntoActual (sms : string) (amount : float)
  (description date accountName categoryName : option string) : M Imported :=
  ensureActualReady ;;
  c <- getCache ;;
  match matchAccount (actualAccounts c) accountName sms with
  | None => raise (Error (matchErrorMessage accountName (actualAccounts c)))
  | Some account =>
      let category := matchCategory (actualCategories c) categoryName in
      let categoryId := orNull (option_map c_id category) in
      finalDate <- (if keepsDate date then ret (orEmpty date)
                    else todayISO (TIMEZONE cfg)) ;;
      let tx := buildTransaction (IMPORT_NOTES_PREFIX cfg) (a_id account)
                  categoryId sms finalDate amount description in
      result <- request (ImportTransactions (a_id account) [tx])
                        (on_importTransactions svc) ;;
      ret (mkImported finalDate tx result)
  end.

(** The steps of the handler up to the validated extraction. *)
Definition extract (sms : string) : M Parsed :=
  ensureActualReady ;;
  actualData <- getCache ;;
  raw <- ollamaParse sms (actualAccounts actualData) (actualCategories actualData) ;;
  lift (validateParsed raw).

(** The handler of [POST /ingest], after authentication; [body] is
    [req.body]. *)
Definition ingest (body : option Json) : M Response :=
  tryCatch
    (match getOptional body "sms" with
     | Some (JString sms) =>
         if truthy sms then
           parsed <- extract sms ;;
           match amount parsed with
           | None => ret (Ignored parsed)
           | Some amount =>
               imported <- importIntoActual sms amount (description parsed)
                             (date parsed) (account parsed) (category parsed) ;;
               ret (Accepted parsed imported)
           end
         else ret MissingSms
     | _ => ret MissingSms
     end)
    (fun e => ret (Failed e)).

End Engine.

(* ================================================================== *)
(** * The specification's wording, for comparison with the code *)
(* ================================================================== *)

(** ** Account resolution, stage 2, as the specification words it *)

(** ASCII punctuation. *)
Definition isPunctuation (c : ascii) : bool :=
  let n := nat_of_ascii c in
  ((33 <=? n) && (n <=? 47) || (58 <=? n) && (n <=? 64)
   || (91 <=? n) && (n <=? 96) || (123 <=? n) && (n <=? 126))%nat.

(** "Case-insensitive substring match in either direction between
    accountLabel and a catalog name with punctuation/whitespace stripped from
    the catalog name before comparison." *)
Definition specifiedPartialMatch (accountLabel : string) (a : Account) : bool :=
  let stripped :=
    removeAll (fun c => isPunctuation c || isSpace c) (toLowerCase (a_name a)) in
  includes stripped (toLowerCase accountLabel)
  || includes (toLowerCase accountLabel) stripped.

(** ** The digit runs, as the specification words them *)

(** "Every run of exactly four consecutive digits", read as the maximal runs
    of digits that are four digits long. *)
Fixpoint runsOfExactlyFour (s : string) (run : string) : list string :=
  let close (run : string) : list string :=
    if (String.length run =? 4)%nat then [rev run] else [] in
  match s with
  | EmptyString => close run
  | String c t =>
      if isDigit c then runsOfExactlyFour t (String c run)
      else (close run ++ runsOfExactlyFour t EmptyString)%list
  end.

Definition specifiedDigitRuns (message : string) : list string :=
  runsOfExactlyFour message EmptyString.

(** The same words read as every four digits in a row, wherever they begin. *)
Definition startsFour (s : string) : bool :=
  match s with
  | String a (String b (String c (String d _))) => fourDigits a b c d
  | _ => false
  end.

Fixpoint everyFourDigits (s : string) : list string :=
  match s with
  | EmptyString => []
  | String _ t =>
      ((if startsFour s then [take 4 s] else []) ++ everyFourDigits t)%list
  end.

(** ** What [extractDigits] returns *)

(** Four digits in a row begin somewhere in [s]. *)
Fixpoint hasFour (s : string) : bool :=
  startsFour s ||
  match s with
  | EmptyString => false
  | String _ t => hasFour t
  end.

(** Four digits and nothing else. *)
Definition isGroup (r : string) : bool :=
  (String.length r =? 4)%nat && startsFour r.

(** [Groups s rs]: [s] is cut into the groups [rs] and the text between them;
    no four digits in a row begin before a group, nor in the text behind the
    last one.  (Four digits that begin in the text [g] before the group [r]
    would end within the first three characters of [r].) *)
Inductive Groups : string -> list string -> Prop :=
| groups_end (g : string) :
    hasFour g = false -> Groups g []
| groups_next (g r rest : string) (rs : list string) :
    hasFour (g ++ take 3 r) = false ->
    isGroup r = true ->
    Groups rest rs ->
    Groups (g ++ r ++ rest) (r :: rs).

(** ** The streamed reply, as the specification words it *)

(** The chunks of the lines that are JSON. *)
Fixpoint chunksOf (lines : list string) : list Json :=
  match lines with
  | [] => []
  | line :: more =>
      match JSON_parse line with
      | Some chunk => chunk :: chunksOf more
      | None => chunksOf more
      end
  end.

(** The completion flag of a chunk is true: the chunk is an object whose
    [done] is the boolean [true] (not a string, not a number). *)
Definition completionFlag (chunk : Json) : bool :=
  match chunk with
  | JObject members =>
      match lookupLast "done" members with
      | Some (JBool true) => true
      | _ => false
      end
  | _ => false
  end.

(** The chunks up to the first one whose completion flag is true, that one
    included. *)
Fixpoint uptoDone (chunks : list Json) : list Json :=
  match chunks with
  | [] => []
  | chunk :: more =>
      if completionFlag chunk then [chunk] else chunk :: uptoDone more
  end.

(** The content fragment of a chunk: the string [content] of the object
    [message] of the chunk, nothing when there is none. *)
Definition fragmentOf (chunk : Json) : string :=
  match chunk with
  | JObject members =>
      match lookupLast "message" members with
      | Some (JObject message) =>
          match lookupLast "content" message with
          | Some (JString part) => part
          | _ => EmptyString
          end
      | _ => EmptyString
      end
  | _ => EmptyString
  end.

(** ** Brace nesting *)

(** The nesting depth after the characters of [s], from [depth]. *)
Fixpoint depthAfter (s : string) (depth : Z) : Z :=
  match s with
  | EmptyString => depth
  | String ch t =>
      depthAfter t (if Ascii.eqb ch "{"%char then (depth + 1)%Z
                    else if Ascii.eqb ch "}"%char then (depth - 1)%Z
                    else depth)
  end.

(** The first opening brace of [s] stands behind [before], and [rest]
    follows it. *)
Definition FirstBrace (s before rest : string) : Prop :=
  s = before ++ "{" ++ rest /\ includes before "{" = false.

(** The braces of [s] never balance: the depth is not zero behind any
    character of [s]. *)
Definition NeverBalanced (s : string) : Prop :=
  forall p q, s = p ++ q -> p <> EmptyString -> depthAfter p 0 <> 0%Z.

(** [object] is the beginning of [s] up to the first character behind which
    the depth is zero. *)
Definition BalancedPrefix (s object : string) : Prop :=
  exists after,
    s = object ++ after /\ object <> EmptyString /\ depthAfter object 0 = 0%Z
    /\ forall p q, object = p ++ q -> p <> EmptyString -> q <> EmptyString ->
                   depthAfter p 0 <> 0%Z.

(** ** The catalog cache *)

(** A ready cache holds at least one account. *)
Definition readyHasAccounts (c : Cache) : Prop :=
  actualReady c = true -> actualAccounts c <> [].

(** The calls that only [importIntoActual] makes after its
    [ensureActualReady]: the clock read of the transaction's date and the
    import. *)
Definition isImport (c : Call) : bool :=
  match c with
  | ImportTransactions _ _ | Today _ => true
  | _ => false
  end.

(** ** The idempotency key *)

(** Two different texts with the same key. *)
Definition keyCollision (x y : string) : Prop :=
  x <> y /\ take 32 (sha256 x) = take 32 (sha256 y).



(** ** Account resolution: what the second stage tests *)

(** The characters the second stage takes out of a catalog name: the
    asterisk, and the white space of ASCII (space, TAB, LF, VT, FF, CR). *)
Definition strippedCharacters : list ascii :=
  ["*"; " "; "009"; "010"; "011"; "012"; "013"]%char.

Definition without (characters : list ascii) (s : string) : string :=
  removeAll (fun c => existsb (Ascii.eqb c) characters) s.

(** The lower-cased catalog name contains the lower-cased label, or the
    lower-cased label contains the lower-cased catalog name without its
    asterisks and white space. *)
Definition PartialMatch (label : string) (a : Account) : Prop :=
  (exists x y, toLowerCase (a_name a) = x ++ toLowerCase label ++ y) \/
  (exists x y, toLowerCase label
               = x ++ without strippedCharacters (toLowerCase (a_name a)) ++ y).

(** Every name of the catalog is ASCII text. *)
Definition asciiNames (accounts : list Account) : Prop :=
  forall b, In b accounts -> isAscii (a_name b) = true.

(** A label that is null or ASCII text. *)
Definition asciiCategories (categories : list Category) : Prop :=
  forall k, In k categories -> isAscii (c_name k) = true.

Definition asciiLabel (label : option string) : Prop :=
  forall n, label = Some n -> isAscii n = true.

(** The catalog of the specification's example. *)
Definition hsbc0001 : Account := mkAccount "a1" "HSBC ****0001" false.
Definition icici2979 : Account := mkAccount "a2" "ICICI ****2979" false.
Definition exampleCatalog : list Account := [hsbc0001; icici2979].

(** ** Examples of the specification *)

(** All the strings of a list, one after the other. *)
Definition concatenation (parts : list string) : string :=
  fold_right append EmptyString parts.

(** Three fragments of a streamed reply, one per line. *)
Definition streamedReply : string :=
  quoted "{'message':{'content':'{\'amount\''},'done':false}" ++ String newline
  (quoted "{'message':{'content':':100}'},'done':false}" ++ String newline
  (quoted "{'message':{'content':''},'done':true}" ++ String newline EmptyString)).

(** A stream whose second line carries the completion flag: the third line
    arrives behind it.  And the same stream with the flag written as a
    string. *)
Definition interruptedReply : string :=
  quoted "{'message':{'content':'{\'amount\''},'done':false}" ++ String newline
  ("data: keep-alive" ++ String newline
  (quoted "{'message':{'content':':100}'},'done':true}" ++ String newline
  (quoted "{'message':{'content':' and more'},'done':false}" ++ String newline
   EmptyString))).

Definition unflaggedReply : string :=
  quoted "{'message':{'content':'{\'amount\''},'done':false}" ++ String newline
  (quoted "{'message':{'content':':100}'},'done':'true'}" ++ String newline
  (quoted "{'message':{'content':' and more'},'done':1}" ++ String newline
   EmptyString)).

(** The five-key object of the example. *)
Definition fiveKeyText : string :=
  quoted "{'amount':-500,'description':'Amazon','date':'2024-05-01','account':'HSBC ****0001','category':'Shopping'}".

Definition fiveKeyObject : Json :=
  JObject [("amount", JNumber (-500)%float); ("description", JString "Amazon");
           ("date", JString "2024-05-01"); ("account", JString "HSBC ****0001");
           ("category", JString "Shopping")].

Definition wrappedReply : string :=
  "Here you go: ```json " ++ fiveKeyText ++ " ``` Thanks!".

Definition exampleConfig : Config :=
  mkConfig "http://actual:5006" "secret" "budget-1" None
           "http://ollama:11434" "mistral" "SMS" "Asia/Kolkata" "/tmp/actual-data".

(** Services that always succeed: the ledger holds [accounts] and no
    category, and the inference service answers [reply] with status 200. *)
Definition steadyServices (accounts : list Account) (reply : string) : Services :=
  mkServices (fun _ => ok tt) (fun _ => ok tt) (fun _ => ok tt)
             (fun _ => ok accounts) (fun _ => ok [])
             (fun _ => ok tt) (fun _ => ok JNull)
             (fun _ => ok (mkHttpResponse 200 reply))
             (fun _ => "2024-05-01").

Definition isInit (c : Call) : bool :=
  match c with
  | Init _ _ _ => true
  | _ => false
  end.

(** Services whose ledger refuses the first [init] and accepts the later
    ones. *)
Definition flakyServices (accounts : list Account) (reply : string) : Services :=
  mkServices (fun _ => ok tt)
             (fun log => if (List.length (filter isInit log) <=? 1)%nat
                         then throw (Error "connect ECONNREFUSED") else ok tt)
             (fun _ => ok tt)
             (fun _ => ok accounts) (fun _ => ok [])
             (fun _ => throw (Error "not initialized")) (fun _ => ok JNull)
             (fun _ => ok (mkHttpResponse 200 reply))
             (fun _ => "2024-05-01").

Definition startState : State := mkState uninitialized [].

(** A one-object reply of the inference service whose content is the JSON
    text of an extraction with every field null, and one whose content is
    the five-key object. *)
Definition nullReply : string :=
  quoted "{'message':{'role':'assistant','content':'{\'amount\':null,\'description\':null,\'date\':null,\'account\':null,\'category\':null}'},'done':true}".

Definition fiveKeyReply : string :=
  quoted "{'message':{'role':'assistant','content':'{\'amount\':-500,\'description\':\'Amazon\',\'date\':\'2024-05-01\',\'account\':\'HSBC ****0001\',\'category\':\'Shopping\'}'},'done':true}".

(** The five-key object with a null date. *)
Definition undatedReply : string :=
  quoted "{'message':{'role':'assistant','content':'{\'amount\':-500,\'description\':\'Amazon\',\'date\':null,\'account\':\'HSBC ****0001\',\'category\':\'Shopping\'}'},'done':true}".

Definition allNull : Parsed := mkParsed None None None None None.

Definition otpRequest : option Json :=
  Some (JObject [("sms", JString "Your OTP is 482913. Do not share it.")]).

Definition debitRequest : option Json :=
  Some (JObject [("sms", JString "Rs.500 debited from HSBC Card 0001 at Amazon")]).

(** ** The call log during an initialization *)

(** The log after each call of an initialization that starts in [st]. *)
Definition logMkdir (cfg : Config) (st : State) : list Call :=
  (calls st ++ [Mkdir (ACTUAL_DATADIR cfg)])%list.

Definition logInit (cfg : Config) (st : State) : list Call :=
  (logMkdir cfg st
   ++ [Init (ACTUAL_DATADIR cfg) (ACTUAL_SERVER_URL cfg) (ACTUAL_PASSWORD cfg)])%list.

Definition logDownload (cfg : Config) (st : State) : list Call :=
  (logInit cfg st
   ++ [DownloadBudget (ACTUAL_BUDGET_ID cfg) (ACTUAL_FILE_PASSWORD cfg)])%list.

Definition logAccounts (cfg : Config) (st : State) : list Call :=
  (logDownload cfg st ++ [GetAccounts])%list.

Definition logCategories (cfg : Config) (st : State) : list Call :=
  (logAccounts cfg st ++ [GetCategories])%list.

(** [ensureActualReady] fails with [e] after the calls of [log]: it has
    called [shutdown] last and left the cache uninitialized. *)
Definition FailsAfter (cfg : Config) (svc : Services) (st : State)
  (e : Thrown) (log : list Call) : Prop :=
  ensureActualReady cfg svc st
  = (inl e, mkState uninitialized (log ++ [Shutdown])).

Definition openAccounts (accounts : list Account) : list Account :=
  filter (fun a => negb (a_closed a)) accounts.

Definition visibleCategories (categories : list Category) : list Category :=
  filter (fun c => negb (c_hidden c) && truthy (c_name c)) categories.

(** ** Reasoning about computations *)

(** The requests of a list served one after the other. *)
Fixpoint serve (cfg : Config) (svc : Services) (bodies : list (option Json))
  (st : State) : State :=
  match bodies with
  | [] => st
  | body :: more => serve cfg svc more (snd (ingest cfg svc body st))
  end.

(** [m] keeps the property [P] of the cache. *)
Definition Preserves {A : Type} (P : Cache -> Prop) (m : M A) : Prop :=
  forall st, P (cache st) -> P (cache (snd (m st))).

(** [m] leaves the cache as it is. *)
Definition KeepsCache {A : Type} (m : M A) : Prop :=
  forall st, cache (snd (m st)) = cache st.

(** [m] only adds calls that pass [p] to the log. *)
Definition OnlyCalls {A : Type} (p : Call -> bool) (m : M A) : Prop :=
  forall st, exists new,
    calls (snd (m st)) = (calls st ++ new)%list /\ forallb p new = true.

Definition notImport (c : Call) : bool := negb (isImport c).

(* ================================================================== *)
(** * The rest of the file: further definitions *)
(* ================================================================== *)

(** ** Category resolution: what the second stage tests *)

(** [name.toLowerCase().replace(/[^\w\s]/g, '')] *)
Definition normalized (name : string) : string :=
  removeAll notWordNorSpace (toLowerCase name).

(** The normalized name contains the normalized label, or the other way
    round. *)
Definition CategoryMatch (label : string) (c : Category) : Prop :=
  (exists x y, normalized (c_name c) = x ++ normalized label ++ y) \/
  (exists x y, normalized label = x ++ normalized (c_name c) ++ y).

(** ** The authentication middleware *)

(** [s.replace(pattern, replacement)] for a string pattern: the first
    occurrence is replaced. *)
Fixpoint replaceFirst (pattern replacement s : string) : string :=
  if startsWith s pattern then replacement ++ drop (String.length pattern) s
  else
    match s with
    | EmptyString => EmptyString
    | String c t => String c (replaceFirst pattern replacement t)
    end.

(** The two headers [requireAuth] reads; [None] is a header that was not
    sent. *)
Record Headers := mkHeaders {
  x_api_token : option string;
  authorization : option string
}.

(** [a || b] for strings that may be undefined. *)
Definition orElse (a b : option string) : option string :=
  match a with
  | Some s => if truthy s then a else b
  | None => b
  end.

(** [req.header("x-api-token") || req.header("authorization")?.replace("Bearer ", "")] *)
Definition presentedToken (req : Headers) : option string :=
  orElse (x_api_token req)
         (option_map (replaceFirst "Bearer " EmptyString) (authorization req)).

(** [token !== API_TOKEN] is false. *)
Definition sameToken (token : option string) (API_TOKEN : string) : bool :=
  match token with
  | Some t => String.eqb t API_TOKEN
  | None => false
  end.

(** [requireAuth]: [true] when [next()] is called, [false] for the reply
    401.  [API_TOKEN] is [None] when the variable is not set. *)
Definition requireAuth (API_TOKEN : option string) (req : Headers) : bool :=
  match API_TOKEN with
  | None => true
  | Some expected =>
      if truthy expected then sameToken (presentedToken req) expected else true
  end.

(** The reply of the route [POST /ingest] with its middleware. *)
Inductive Reply :=
| Unauthorized                (* 401, "unauthorized" *)
| Handled (r : Response).

Definition postIngest (cfg : Config) (svc : Services) (API_TOKEN : option string)
  (req : Headers) (body : option Json) : M Reply :=
  if requireAuth API_TOKEN req
  then bind (ingest cfg svc body) (fun r => ret (Handled r))
  else ret Unauthorized.

(** ** Counting calls *)

(** Two calls to the same function of the outside. *)
Definition sameKind (c d : Call) : bool :=
  match c, d with
  | Mkdir _, Mkdir _ => true
  | Init _ _ _, Init _ _ _ => true
  | DownloadBudget _ _, DownloadBudget _ _ => true
  | GetAccounts, GetAccounts => true
  | GetCategories, GetCategories => true
  | Shutdown, Shutdown => true
  | ImportTransactions _ _, ImportTransactions _ _ => true
  | Fetch _ _, Fetch _ _ => true
  | Today _, Today _ => true
  | _, _ => false
  end.

Definition countCalls (p : Call -> bool) (log : list Call) : nat :=
  List.length (filter p log).

(** The calls a request makes when the catalog is cached: to the inference
    service, to the clock and to the import. *)
Definition servesFromCache (c : Call) : bool :=
  match c with
  | Fetch _ _ | Today _ | ImportTransactions _ _ => true
  | _ => false
  end.

(** ** The content of the cache *)

(** Every cached account is open, every cached category visible and
    named. *)
Definition filteredCache (c : Cache) : Prop :=
  (forall a, In a (actualAccounts c) -> a_closed a = false)
  /\ (forall k, In k (actualCategories c) ->
                c_hidden k = false /\ c_name k <> EmptyString).

(** ** Extractions as JSON *)

(** The messages of [validateParsed], in the order of its checks. *)
Definition validationMessages : list string :=
  ["LLM output is not an object"; "amount must be number or null";
   "description must be string or null"; "date must be string or null";
   "account must be string or null"; "category must be string or null"].

(** The five property names [validateParsed] reads. *)
Definition extractionFields : list string :=
  ["amount"; "description"; "date"; "account"; "category"].

Definition nullable (field : option string) : Json :=
  match field with
  | Some s => JString s
  | None => JNull
  end.

Definition nullableNumber (field : option float) : Json :=
  match field with
  | Some x => JNumber x
  | None => JNull
  end.

(** The object [{ amount, description, date, account, category }] of an
    extraction. *)
Definition parsedToJson (p : Parsed) : Json :=
  JObject [("amount", nullableNumber (amount p));
           ("description", nullable (description p));
           ("date", nullable (date p));
           ("account", nullable (account p));
           ("category", nullable (category p))].

(** ** White space at the ends of a string *)

Definition hasText (s : string) : bool :=
  existsb (fun c => negb (isSpace c)) (list_ascii_of_string s).

(** [s.trimEnd()] *)
Definition trimEnd (s : string) : string :=
  rev (dropWhile isSpace (rev s)).

Definition allSpaces (s : string) : bool :=
  forallb isSpace (list_ascii_of_string s).

(** ** The call to the inference service *)

(** The request [ollamaParse] sends for a message when the cache is [c]. *)
Definition chatCall (cfg : Config) (sms : string) (c : Cache) : Call :=
  Fetch (OLLAMA_URL cfg ++ "/api/chat")
        (mkPayload (OLLAMA_MODEL cfg)
                   (promptForSMS sms (actualAccounts c) (actualCategories c))).

(** [`Ollama error ${res.status}: ${t}`] *)
Definition statusMessage (res : HttpResponse) : string :=
  "Ollama error " ++ decimal (res_status res) ++ ": " ++ res_text res.

(** The [sms] of a request body when it is a string that is not empty. *)
Definition smsOf (body : option Json) : option string :=
  match getOptional body "sms" with
  | Some (JString sms) => if truthy sms then Some sms else None
  | _ => None
  end.

(** Services that always succeed, with the reply [res] of the inference
    service. *)
Definition repliedServices (accounts : list Account) (res : HttpResponse) : Services :=
  mkServices (fun _ => ok tt) (fun _ => ok tt) (fun _ => ok tt)
             (fun _ => ok accounts) (fun _ => ok [])
             (fun _ => ok tt) (fun _ => ok JNull)
             (fun _ => ok res)
             (fun _ => "2024-05-01").

(** The state after the catalog of the example has been loaded. *)
Definition loadedState : State :=
  mkState (mkCache true exampleCatalog [])
          [Mkdir "/tmp/actual-data";
           Init "/tmp/actual-data" "http://actual:5006" "secret";
           DownloadBudget "budget-1" None; GetAccounts; GetCategories].

Definition isToday (c : Call) : bool :=
  match c with
  | Today _ => true
  | _ => false
  end.

(** ** The lists of the prompt *)

(** [accounts.map((a) => `  - ${a.name}`).join("\n")] *)
Definition bulletList (names : list string) : string :=
  join (String newline EmptyString) (map (fun n => "  - " ++ n) names).

(** ** The imports of the service *)

Definition isGetAccounts (c : Call) : bool :=
  match c with
  | GetAccounts => true
  | _ => false
  end.

(** [accounts] is what the ledger answered to the last call of
    [getAccounts] in [log]. *)
Definition LastCatalog (svc : Services) (log : list Call)
  (accounts : list Account) : Prop :=
  exists before after,
    log = (before ++ GetAccounts :: after)%list
    /\ existsb isGetAccounts after = false
    /\ on_getAccounts svc (before ++ [GetAccounts])%list = inr accounts.

(** A call of [importTransactions] as the service makes it after the calls
    of [earlier]: for an account that the ledger returned to the last call
    of [getAccounts] and that is not closed, with one transaction on that
    account that is not cleared and carries an imported id [sms:] and 32
    characters.  Any other call qualifies. *)
Definition SingleImport (svc : Services) (earlier : list Call) (c : Call) : Prop :=
  match c with
  | ImportTransactions accountId transactions =>
      exists accounts a tx,
        LastCatalog svc earlier accounts
        /\ In a accounts /\ a_closed a = false /\ accountId = a_id a
        /\ transactions = [tx]
        /\ tx_account tx = accountId /\ tx_cleared tx = false
        /\ startsWith (tx_imported_id tx) "sms:" = true
        /\ String.length (tx_imported_id tx) = 36
  | _ => True
  end.

(** Every call of [log] satisfies [P] with the calls made before it, those
    of [earlier] first. *)
Fixpoint EachCall (P : list Call -> Call -> Prop) (earlier log : list Call) : Prop :=
  match log with
  | [] => True
  | c :: later => P earlier c /\ EachCall P (earlier ++ [c])%list later
  end.

(** The cached accounts are the open ones among those the ledger answered
    to the last call of [getAccounts], unless the cache holds none. *)
Definition CachedFromLedger (svc : Services) (st : State) : Prop :=
  actualAccounts (cache st) = []
  \/ exists accounts,
       LastCatalog svc (calls st) accounts
       /\ actualAccounts (cache st) = openAccounts accounts.

(** ** Overlapping initializations *)

(** [ensureActualReady] is an [async] function: it runs until its next
    [await], where other requests take their turn.  A call of it is
    suspended at one of its six [await]s, with the answer the outside has
    for the call it made there. *)
Inductive Suspended :=
| AwaitMkdir (answer : Result unit)
| AwaitInit (answer : Result unit)
| AwaitDownloadBudget (answer : Result unit)
| AwaitGetAccounts (answer : Result (list Account))
| AwaitGetCategories (answer : Result (list Category))
| AwaitShutdown (e : Thrown) (answer : Result unit).

(** A call of [ensureActualReady]: not yet entered, suspended, or settled
    (its promise fulfilled or rejected). *)
Inductive Task :=
| NotStarted
| Waiting (point : Suspended)
| Finished (r : Result unit).

Section Overlap.

Variable cfg : Config.
Variable svc : Services.

(** The call [c] is made and the task waits for its answer. *)
Definition await {A : Type} (c : Call) (answer : list Call -> Result A)
  (point : Result A -> Suspended) (st : State) : Task * State :=
  let (r, st') := request c answer st in (Waiting (point r), st').

(** The first statement of the [catch] block. *)
Definition enterCatch (e : Thrown) (st : State) : Task * State :=
  await Shutdown (on_shutdown svc) (AwaitShutdown e) st.

(** One turn of a call of [ensureActualReady]: from where it is to its next
    [await], or to its end.  The process-wide variables are read and written
    as they are when the turn runs. *)
Definition resume (t : Task) (st : State) : Task * State :=
  match t with
  | NotStarted =>
      if isReady (cache st) then (Finished (ok tt), st)
      else await (Mkdir (ACTUAL_DATADIR cfg)) (on_mkdir svc) AwaitMkdir st
  | Waiting (AwaitMkdir (inl e)) => (Finished (throw e), st)
  | Waiting (AwaitMkdir (inr _)) =>
      await (Init (ACTUAL_DATADIR cfg) (ACTUAL_SERVER_URL cfg) (ACTUAL_PASSWORD cfg))
            (on_init svc) AwaitInit st
  | Waiting (AwaitInit (inl e)) => enterCatch e st
  | Waiting (AwaitInit (inr _)) =>
      await (DownloadBudget (ACTUAL_BUDGET_ID cfg) (ACTUAL_FILE_PASSWORD cfg))
            (on_downloadBudget svc) AwaitDownloadBudget st
  | Waiting (AwaitDownloadBudget (inl e)) => enterCatch e st
  | Waiting (AwaitDownloadBudget (inr _)) =>
      await GetAccounts (on_getAccounts svc) AwaitGetAccounts st
  | Waiting (AwaitGetAccounts (inl e)) => enterCatch e st
  | Waiting (AwaitGetAccounts (inr accounts)) =>
      let active := filter (fun a => negb (a_closed a)) accounts in
      let st1 := mkState (mkCache (actualReady (cache st)) active
                                  (actualCategories (cache st)))
                         (calls st) in
      if (List.length active =? 0)%nat
      then enterCatch (Error noActiveAccountsMessage) st1
      else await GetCategories (on_getCategories svc) AwaitGetCategories st1
  | Waiting (AwaitGetCategories (inl e)) => enterCatch e st
  | Waiting (AwaitGetCategories (inr categories)) =>
      let visible :=
        filter (fun c => negb (c_hidden c) && truthy (c_name c)) categories in
      (Finished (ok tt),
       mkState (mkCache true (actualAccounts (cache st)) visible) (calls st))
  | Waiting (AwaitShutdown e _) =>
      (Finished (throw e), mkState uninitialized (calls st))
  | Finished r => (Finished r, st)
  end.

(** A call that is given every turn. *)
Fixpoint runAlone (turns : nat) (t : Task) (st : State) : Task * State :=
  match turns with
  | O => (t, st)
  | S n => let (t', st') := resume t st in runAlone n t' st'
  end.

(** The task [i] of a pool replaced by [t]. *)
Fixpoint setTask (i : nat) (t : Task) (pool : list Task) : list Task :=
  match pool, i with
  | [], _ => []
  | _ :: rest, O => t :: rest
  | u :: rest, S j => u :: setTask j t rest
  end.

(** The calls of a pool take turns in the order of [schedule], which names
    the task that runs next. *)
Fixpoint interleave (schedule : list nat) (pool : list Task) (st : State)
  : list Task * State :=
  match schedule with
  | [] => (pool, st)
  | i :: later =>
      match nth_error pool i with
      | Some t =>
          let (t', st') := resume t st in interleave later (setTask i t' pool) st'
      | None => interleave later pool st
      end
  end.

End Overlap.

(** Services whose ledger accepts the first [init] and refuses the later
    ones. *)
Definition singleSessionServices (accounts : list Account) : Services :=
  mkServices (fun _ => ok tt)
             (fun log => if (List.length (filter isInit log) <=? 1)%nat
                         then ok tt else throw (Error "connect ECONNREFUSED"))
             (fun _ => ok tt)
             (fun _ => ok accounts) (fun _ => ok [])
             (fun _ => ok tt) (fun _ => ok JNull)
             (fun _ => ok (mkHttpResponse 200 nullReply))
             (fun _ => "2024-05-01").

(** Two requests, the second arriving while the first waits for the
    categories: the first takes five turns, the second runs to its end, the
    first takes its last turn. *)
Definition overlappingSchedule : list nat := [0; 0; 0; 0; 0; 1; 1; 1; 1; 0]%nat.

(* ================================================================== *)
(** * Properties *)
(* ================================================================== *)

(** ** Strings *)

Lemma startsWith_spec (s p : string) :
  startsWith s p = true <-> exists rest, s = p ++ rest.
Proof.
  revert s; induction p as [|a p IH]; intros s; simpl.
  - split; [intros _; now exists s | intros _; destruct s; reflexivity].
  - destruct s as [|b s]; simpl.
    + split; [discriminate | intros [rest H]; discriminate].
    + rewrite andb_true_iff, Ascii.eqb_eq, IH. split.
      * intros [-> [rest ->]]. now exists rest.
      * intros [rest H]. injection H as -> ->. split; [reflexivity | now exists rest].
Qed.

Lemma includes_unfold (s sub : string) :
  includes s sub =
  startsWith s sub ||
  match s with
  | EmptyString => false
  | String _ t => includes t sub
  end.
Proof. destruct s; reflexivity. Qed.

Lemma includes_spec (s sub : string) :
  includes s sub = true <-> exists before after, s = before ++ sub ++ after.
Proof.
  induction s as [|c s IH]; rewrite includes_unfold.
  - rewrite orb_false_r, startsWith_spec. split.
    + intros [rest H]. exists EmptyString, rest. exact H.
    + intros [before [after H]]. destruct before; simpl in H.
      * now exists after.
      * discriminate.
  - rewrite orb_true_iff, startsWith_spec, IH. split.
    + intros [[rest H] | [before [after H]]].
      * exists EmptyString, rest. exact H.
      * exists (String c before), after. simpl. now rewrite H.
    + intros [before [after H]]. destruct before as [|b before]; simpl in H.
      * left. now exists after.
      * right. injection H as -> H. now exists before, after.
Qed.

Lemma append_assoc (a b c : string) : (a ++ b) ++ c = a ++ b ++ c.
Proof. induction a as [|x a IH]; simpl; [reflexivity | now rewrite IH]. Qed.

Lemma append_empty_r (a : string) : a ++ EmptyString = a.
Proof. induction a as [|x a IH]; simpl; [reflexivity | now rewrite IH]. Qed.

Lemma length_append (a b : string) :
  String.length (a ++ b) = String.length a + String.length b.
Proof. induction a as [|x a IH]; simpl; [reflexivity | now rewrite IH]. Qed.

Lemma append_inv_head (a b c : string) : a ++ b = a ++ c -> b = c.
Proof. induction a as [|x a IH]; simpl; intros H; [exact H | injection H; auto]. Qed.

Lemma append_inv_tail (a b c : string) : a ++ c = b ++ c -> a = b.
Proof.
  revert b; induction a as [|x a IH]; intros [|y b] H; simpl in H.
  - reflexivity.
  - apply (f_equal String.length) in H. simpl in H. rewrite length_append in H. lia.
  - apply (f_equal String.length) in H. simpl in H. rewrite length_append in H. lia.
  - injection H as -> H. f_equal. now apply IH.
Qed.

Lemma length_take (n : nat) (s : string) :
  String.length (take n s) = Nat.min n (String.length s).
Proof.
  revert s; induction n as [|n IH]; intros [|c s]; simpl; try reflexivity.
  now rewrite IH.
Qed.

Lemma take_drop (n : nat) (s : string) : take n s ++ drop n s = s.
Proof.
  revert s; induction n as [|n IH]; intros [|c s]; simpl; try reflexivity.
  now rewrite IH.
Qed.

(** ** Lists: the first element that passes a test *)

Lemma find_first {A : Type} (p : A -> bool) (before : list A) (a : A) (after : list A) :
  (forall b, In b before -> p b = false) -> p a = true ->
  find p (before ++ a :: after) = Some a.
Proof.
  induction before as [|b before IH]; simpl; intros Hb Ha.
  - now rewrite Ha.
  - rewrite (Hb b (or_introl eq_refl)). apply IH; auto.
Qed.

Lemma find_nothing {A : Type} (p : A -> bool) (l : list A) :
  (forall b, In b l -> p b = false) -> find p l = None.
Proof.
  induction l as [|b l IH]; simpl; intros H; [reflexivity|].
  rewrite (H b (or_introl eq_refl)). apply IH; auto.
Qed.

Lemma find_split {A : Type} (p : A -> bool) (l : list A) (a : A) :
  find p l = Some a ->
  exists before after, l = (before ++ a :: after)%list /\ p a = true /\
                       forall b, In b before -> p b = false.
Proof.
  induction l as [|b l IH]; simpl; [discriminate|].
  destruct (p b) eqn:Hb.
  - intros H; injection H as ->. exists [], l. repeat split; auto. intros ? [].
  - intros H. destruct (IH H) as [before [after [-> [Ha Hbefore]]]].
    exists (b :: before), after. repeat split; auto.
    intros x [<- | Hx]; auto.
Qed.

(** ** The embedding on known values *)

(** [String(x)] as a JavaScript engine prints these Numbers. *)
Example Number_toString_examples :
  map Number_toString
      [0.1; 1e21; 123456789012345680000; 1.5e-7; 0.000001; 1999.4999999999998;
       1e23; 5e-324; 1.7976931348623157e308; -50000; -0; 100.5;
       0.30000000000000004; 9007199254740992; -1.2345e-10; 2e-7]%float
  = ["0.1"; "1e+21"; "123456789012345680000"; "1.5e-7"; "0.000001";
     "1999.4999999999998"; "1e+23"; "5e-324"; "1.7976931348623157e+308";
     "-50000"; "0"; "100.5"; "0.30000000000000004"; "9007199254740992";
     "-1.2345e-10"; "2e-7"].
Proof. vm_compute. reflexivity. Qed.

(** [Math.round] on ties, on negative values and on values below one half. *)
Example Math_round_examples :
  map Math_round [2.5; -2.5; 0.5; -0.5; 0.49999999999999994; -0.4; 1e300; -7]%float
  = [3; -2; 1; -0; 0; -0; 1e300; -7]%float.
Proof. vm_compute. reflexivity. Qed.

(** [JSON.parse] on texts it accepts ... *)
Example JSON_parse_accepts :
  map JSON_parse
      [" [1, 2.5e3, true, null] "; quoted "{'a': {'b': []}, 'a': 'A\n'}";
       "-0"; "1E-2"; "1e999"; quoted "'😀'"]
  = [Some (JArray [JNumber 1; JNumber 2500; JBool true; JNull]);
     Some (JObject [("a", JObject [("b", JArray [])]);
                    ("a", JString (String "A" (String newline EmptyString)))]);
     Some (JNumber (-0)); Some (JNumber 0.01); Some (JNumber infinity);
     Some (JString (JsonParser.utf8 128512))]%float.
Proof. vm_compute. reflexivity. Qed.

(** ... and on texts it rejects. *)
Example JSON_parse_rejects :
  map JSON_parse
      ["{abc}"; "01"; "1."; ".5"; "+1"; "1e"; "[1,]"; quoted "{'a':1,}"; "nul";
       "nullx"; EmptyString; "[1 2]"; quoted "{'a' 1}"; "{a:1}"; "0x10";
       quoted "'\x'"; quoted "'abc"; "[[]"; "[1] x"]
  = repeat None 19.
Proof. vm_compute. reflexivity. Qed.

Example JSON_stringify_example :
  option_map JSON_stringify
    (JSON_parse (quoted "{'b':[1,2.5,'x\ny',null,true],'10':1,'2':{},'b':3,'c':1e999}"))
  = Some (quoted "{'2':{},'10':1,'b':3,'c':null}").
Proof. vm_compute. reflexivity. Qed.

(** The group of the code-fence pattern on some texts: a tagged and an
    untagged fence, white space around the content, a missing closing fence,
    an empty fence. *)
Example stripCodeFences_examples :
  map stripCodeFences
      ["a ```json {} ``` b"; "```JSON" ++ String newline " x  ```"; "```x```";
       "``` x"; "no fence"; "``````"; "```json```"; "```js on```"; "```` a ````"]
  = ["{}"; "x"; "x"; "``` x"; "no fence"; EmptyString; EmptyString; "js on"; "` a"].
Proof. vm_compute. reflexivity. Qed.

Example extractDigits_examples :
  map extractDigits ["Card 2979"; "XX12345"; "12 345 6789"; "A/c 50100123456789"]
  = [["2979"]; ["1234"]; ["6789"]; ["5010"; "0123"; "4567"]].
Proof. vm_compute. reflexivity. Qed.

(** ** The four-digit groups of a message *)

Lemma extractDigits_unfold (a : ascii) (t : string) :
  extractDigits (String a t) =
  if startsFour (String a t)
  then take 4 (String a t) :: extractDigits (drop 4 (String a t))
  else extractDigits t.
Proof.
  destruct t as [|b [|c [|d rest]]]; try reflexivity.
Qed.

Lemma isGroup_inv (r : string) :
  isGroup r = true ->
  exists a b c d, r = String a (String b (String c (String d EmptyString)))
                  /\ fourDigits a b c d = true.
Proof.
  unfold isGroup. rewrite andb_true_iff. intros [Hlen Hfour].
  destruct r as [|a [|b [|c [|d [|x r]]]]]; simpl in Hlen; try discriminate.
  now exists a, b, c, d.
Qed.

(** Whether four digits begin at the head of a text is decided by its first
    four characters. *)
Lemma startsFour_before_group (a : ascii) (g r rest : string) :
  isGroup r = true ->
  startsFour (String a g ++ r ++ rest) = startsFour (String a g ++ take 3 r).
Proof.
  intros Hr. destruct (isGroup_inv r Hr) as [r1 [r2 [r3 [r4 [-> _]]]]].
  destruct g as [|g1 [|g2 [|g3 g]]]; reflexivity.
Qed.

Lemma hasFour_cons (a : ascii) (t : string) :
  hasFour (String a t) = startsFour (String a t) || hasFour t.
Proof. reflexivity. Qed.

Lemma extractDigits_none (g : string) :
  hasFour g = false -> extractDigits g = [].
Proof.
  induction g as [|a g IH]; [reflexivity|].
  rewrite hasFour_cons, orb_false_iff. intros [Hhead Htail].
  rewrite extractDigits_unfold, Hhead. auto.
Qed.

Lemma extractDigits_group (g r rest : string) :
  hasFour (g ++ take 3 r) = false -> isGroup r = true ->
  extractDigits (g ++ r ++ rest) = r :: extractDigits rest.
Proof.
  intros Hg Hr. induction g as [|a g IH].
  - destruct (isGroup_inv r Hr) as [r1 [r2 [r3 [r4 [-> Hd]]]]].
    simpl. now rewrite Hd.
  - change (String a g ++ take 3 r) with (String a (g ++ take 3 r)) in Hg.
    rewrite hasFour_cons, orb_false_iff in Hg. destruct Hg as [Hhead Htail].
    change (String a g ++ r ++ rest) with (String a (g ++ r ++ rest)).
    rewrite extractDigits_unfold.
    change (String a (g ++ r ++ rest)) with (String a g ++ r ++ rest).
    rewrite (startsFour_before_group a g r rest Hr).
    change (String a g ++ take 3 r) with (String a (g ++ take 3 r)).
    rewrite Hhead. auto.
Qed.

(** [extractDigits] cuts the message into its groups ... *)
Lemma extractDigits_groups (s : string) : Groups s (extractDigits s).
Proof.
  remember (String.length s) as n eqn:Hn.
  revert s Hn. induction n as [n IH] using lt_wf_ind. intros s Hn.
  destruct s as [|a t]; [now apply groups_end|].
  rewrite extractDigits_unfold. destruct (startsFour (String a t)) eqn:Hhead.
  - destruct t as [|b [|c [|d rest]]]; try discriminate.
    change (String a (String b (String c (String d rest))))
      with (EmptyString ++ String a (String b (String c (String d EmptyString))) ++ rest).
    apply groups_next.
    + reflexivity.
    + unfold isGroup. simpl in Hhead |- *. exact Hhead.
    + apply (IH (String.length rest)); [simpl in Hn; lia | reflexivity].
  - assert (Ht : Groups t (extractDigits t)).
    { apply (IH (String.length t)); [simpl in Hn; lia | reflexivity]. }
    inversion Ht as [g Hg Heq1 Heq2 | g r rest rs Hg Hr Hrest Heq1 Heq2].
    + apply groups_end. rewrite hasFour_cons, Hhead. exact Hg.
    + change (String a (g ++ r ++ rest)) with (String a g ++ r ++ rest).
      apply groups_next; auto.
      change (String a g ++ take 3 r) with (String a (g ++ take 3 r)).
      rewrite hasFour_cons, Hg, orb_false_r.
      change (String a (g ++ take 3 r)) with (String a g ++ take 3 r).
      rewrite <- (startsFour_before_group a g r rest Hr).
      change (String a g ++ r ++ rest) with (String a (g ++ r ++ rest)).
      rewrite Heq1. exact Hhead.
Qed.

(** ... and no other cutting fits the description. *)
Lemma groups_unique (s : string) (rs : list string) :
  Groups s rs -> extractDigits s = rs.
Proof.
  induction 1 as [g Hg | g r rest rs Hg Hr _ IH].
  - now apply extractDigits_none.
  - rewrite extractDigits_group; auto. now rewrite IH.
Qed.

(** Text without four digits in a row, followed by a character that is not a
    digit, still has none. *)
Lemma hasFour_append (p s : string) (c : ascii) :
  hasFour p = false -> isDigit c = false -> hasFour (String c s) = false ->
  hasFour (p ++ String c s) = false.
Proof.
  intros Hp Hc Hs. induction p as [|a p IH]; [exact Hs|].
  rewrite hasFour_cons, orb_false_iff in Hp. destruct Hp as [Hhead Htail].
  change (String a p ++ String c s) with (String a (p ++ String c s)).
  rewrite hasFour_cons, (IH Htail), orb_false_r.
  destruct p as [|b [|b2 [|b3 p]]]; simpl in Hhead |- *; unfold fourDigits;
    rewrite ?Hc, ?andb_false_r; try reflexivity.
  - destruct s as [|s1 [|s2 s]]; reflexivity.
  - destruct s as [|s1 s]; reflexivity.
  - exact Hhead.
Qed.

(** ** Account resolution *)

Lemma exactName_true (label : string) (a : Account) :
  exactName (Some label) a = true <-> toLowerCase (a_name a) = toLowerCase label.
Proof. unfold exactName. apply String.eqb_eq. Qed.

Lemma exactName_false (label : string) (a : Account) :
  exactName (Some label) a = false <-> toLowerCase (a_name a) <> toLowerCase label.
Proof. unfold exactName. apply String.eqb_neq. Qed.

Lemma removeAll_ext (f g : ascii -> bool) (s : string) :
  (forall c, f c = g c) -> removeAll f s = removeAll g s.
Proof.
  intros H. induction s as [|c s IH]; simpl; [reflexivity|].
  now rewrite H, IH.
Qed.

Lemma starOrSpace_characters (c : ascii) :
  starOrSpace c = existsb (Ascii.eqb c) strippedCharacters.
Proof. destruct c as [[] [] [] [] [] [] [] []]; reflexivity. Qed.

Lemma partialName_spec (label : string) (a : Account) :
  partialName label a = true <-> PartialMatch label a.
Proof.
  unfold partialName, PartialMatch, without.
  rewrite (removeAll_ext starOrSpace _ _ starOrSpace_characters).
  now rewrite orb_true_iff, !includes_spec.
Qed.

Lemma no_PartialMatch (label : string) (b : Account) :
  ~ PartialMatch label b -> partialName label b = false.
Proof.
  intros H. destruct (partialName label b) eqn:E; [|reflexivity].
  exfalso. apply H. now apply partialName_spec.
Qed.

Lemma digitFallback_first (accounts before after : list Account) (a : Account)
  (earlier later : list string) (r : string) :
  (forall d b, In d earlier -> In b accounts -> includes (a_name b) d = false) ->
  accounts = (before ++ a :: after)%list ->
  includes (a_name a) r = true ->
  (forall b, In b before -> includes (a_name b) r = false) ->
  digitFallback accounts (earlier ++ r :: later) = Some a.
Proof.
  intros Hearlier -> Ha Hbefore.
  induction earlier as [|d earlier IH]; simpl.
  - unfold nameHasDigits at 1. now rewrite (find_first _ before a after Hbefore Ha).
  - rewrite find_nothing.
    + apply IH. intros d' b Hd' Hb. apply Hearlier; [now right | exact Hb].
    + intros b Hb. apply Hearlier; [now left | exact Hb].
Qed.

Lemma digitFallback_none (accounts : list Account) (groups : list string) :
  (forall d b, In d groups -> In b accounts -> includes (a_name b) d = false) ->
  digitFallback accounts groups = None.
Proof.
  induction groups as [|d groups IH]; simpl; intros H; [reflexivity|].
  rewrite find_nothing.
  - apply IH. intros d' b Hd' Hb. apply H; [now right | exact Hb].
  - intros b Hb. apply H; [now left | exact Hb].
Qed.

(** C3, as the code has it.  Account resolution is first-match-wins in
    strict priority, for a label and catalog names that are ASCII text.
    When [a] is the first account of the catalog whose name equals the
    label without regard to case, [a] is returned for every message,
    whatever the later stages would find.  When no name equals the label,
    the label is not empty and [a] is the first account for which the
    lower-cased name contains the lower-cased label, or the lower-cased
    label contains the lower-cased name without its asterisks and white
    space, [a] is returned for every message, whatever the digit fallback
    would find. *)
Theorem matchAccount_priority
  (accounts before after : list Account) (a : Account) (label sms : string) :
  isAscii label = true ->
  asciiNames accounts ->
  accounts = (before ++ a :: after)%list ->
  (toLowerCase (a_name a) = toLowerCase label ->
   (forall b, In b before -> toLowerCase (a_name b) <> toLowerCase label) ->
   matchAccount accounts (Some label) sms = Some a)
  /\
  ((forall b, In b accounts -> toLowerCase (a_name b) <> toLowerCase label) ->
   label <> EmptyString ->
   PartialMatch label a ->
   (forall b, In b before -> ~ PartialMatch label b) ->
   matchAccount accounts (Some label) sms = Some a).
Proof.
  intros _ _ ->. split.
  - intros Ha Hbefore. unfold matchAccount.
    rewrite (find_first (exactName (Some label)) before a after); [reflexivity | |].
    + intros b Hb. apply exactName_false. auto.
    + now apply exactName_true.
  - intros Hnone Hlabel Ha Hbefore. unfold matchAccount.
    rewrite find_nothing.
    + unfold partialStage. destruct label as [|c label]; [congruence|].
      cbn [truthy].
      rewrite (find_first (partialName (String c label)) before a after);
        [reflexivity | |].
      * intros b Hb. apply no_PartialMatch. auto.
      * now apply partialName_spec.
    + intros b Hb. apply exactName_false. auto.
Qed.

(** The exact match wins although an earlier account passes the substring
    test and holds the digits of the message; the substring match wins
    although an earlier account holds the digits of the message. *)
Lemma matchAccount_priority_witness :
  matchAccount [mkAccount "c1" "HSBC Card 1234" false; mkAccount "c2" "HSBC" false]
               (Some "hsbc") "paid by card 1234"
  = Some (mkAccount "c2" "HSBC" false)
  /\
  matchAccount [mkAccount "d1" "ICICI 1234" false; mkAccount "d2" "HSBC Card 9999" false]
               (Some "hsbc c") "paid by card 1234"
  = Some (mkAccount "d2" "HSBC Card 9999" false).
Proof.
  split.
  - destruct (matchAccount_priority
                [mkAccount "c1" "HSBC Card 1234" false; mkAccount "c2" "HSBC" false]
                [mkAccount "c1" "HSBC Card 1234" false]
                [] (mkAccount "c2" "HSBC" false) "hsbc" "paid by card 1234")
      as [Hexact _]; [reflexivity | | reflexivity |].
    { intros b [<- | [<- | []]]; reflexivity. }
    apply Hexact.
    + reflexivity.
    + intros b [<- | []]. vm_compute. discriminate.
  - destruct (matchAccount_priority
                [mkAccount "d1" "ICICI 1234" false; mkAccount "d2" "HSBC Card 9999" false]
                [mkAccount "d1" "ICICI 1234" false]
                [] (mkAccount "d2" "HSBC Card 9999" false) "hsbc c"
                "paid by card 1234")
      as [_ Hpartial]; [reflexivity | | reflexivity |].
    { intros b [<- | [<- | []]]; reflexivity. }
    apply Hpartial.
    + intros b [<- | [<- | []]]; vm_compute; discriminate.
    + discriminate.
    + left. exists EmptyString, "ard 9999". reflexivity.
    + intros b [<- | []] Hm. apply partialName_spec in Hm. vm_compute in Hm.
      discriminate.
Defined.

(** C3, as the specification words it, fails.  With the second stage as the
    specification describes it (the catalog name without punctuation and
    white space, a label that may be empty), a second-stage match exists
    for the labels below, and the code returns the account of the digit
    fallback instead: its own second stage does not strip the name in the
    direction that would match, and does not run for an empty label. *)
Lemma specified_stage_does_not_preempt :
  (specifiedPartialMatch "hsbc0" hsbc0001 = true
   /\ matchAccount exampleCatalog (Some "hsbc0") "paid with card 2979"
      = Some icici2979)
  /\ (specifiedPartialMatch EmptyString hsbc0001 = true
      /\ matchAccount exampleCatalog (Some EmptyString) "paid with card 2979"
         = Some icici2979)
  /\ (let amex := mkAccount "a4" "Amex-Gold" false in
      specifiedPartialMatch "my amexgold card" amex = true
      /\ matchAccount [amex; icici2979] (Some "my amexgold card")
                      "paid with card 2979" = Some icici2979).
Proof. repeat split. Qed.

(** C4, as the code has it.  The digit fallback reads the message, never the
    label.  [extractDigits] cuts the message, from left to right, into groups
    of four digits in a row, each beginning at the first place behind the
    previous group where four digits stand in a row: a longer run of digits
    is cut into fours from its start and what remains of it is dropped.  The
    groups are tried in their order and the first catalog account whose name
    contains the group is returned; when no group is contained in any name
    the resolution finds nothing.  For the catalog of the example and a null
    label, a message with Card 2979 behind text that has no four digits in a
    row resolves to the second account. *)
Theorem digit_fallback_groups :
  (forall sms,
      Groups sms (extractDigits sms) /\
      forall rs, Groups sms rs -> rs = extractDigits sms)
  /\
  (forall accounts before after a label sms earlier r later,
      find (exactName label) accounts = None ->
      partialStage accounts label = None ->
      extractDigits sms = (earlier ++ r :: later)%list ->
      (forall d b, In d earlier -> In b accounts -> includes (a_name b) d = false) ->
      accounts = (before ++ a :: after)%list ->
      includes (a_name a) r = true ->
      (forall b, In b before -> includes (a_name b) r = false) ->
      matchAccount accounts label sms = Some a)
  /\
  (forall accounts label sms,
      find (exactName label) accounts = None ->
      partialStage accounts label = None ->
      (forall d b, In d (extractDigits sms) -> In b accounts ->
                   includes (a_name b) d = false) ->
      matchAccount accounts label sms = None)
  /\
  (forall p q,
      hasFour p = false ->
      matchAccount exampleCatalog None (p ++ "Card 2979" ++ q) = Some icici2979).
Proof.
  repeat split.
  - apply extractDigits_groups.
  - intros rs H. symmetry. now apply groups_unique.
  - intros accounts before after a label sms earlier r later H1 H2 Hd He Ha Hr Hb.
    unfold matchAccount. rewrite H1, H2, Hd.
    now apply (digitFallback_first accounts before after).
  - intros accounts label sms H1 H2 H.
    unfold matchAccount. rewrite H1, H2. now apply digitFallback_none.
  - intros p q Hp.
    assert (Hcut : extractDigits (p ++ "Card 2979" ++ q) = "2979" :: extractDigits q).
    { change (p ++ "Card 2979" ++ q) with (p ++ "Card " ++ "2979" ++ q).
      rewrite <- append_assoc. apply extractDigits_group; [|reflexivity].
      rewrite append_assoc. apply hasFour_append; auto. }
    unfold matchAccount. rewrite Hcut. reflexivity.
Qed.

Lemma digit_fallback_groups_witness :
  matchAccount exampleCatalog None "Rs.500 debited from Card 2979 on 01-05"
  = Some icici2979
  /\ matchAccount exampleCatalog None "Txn 0001: Rs.500 debited from Card 2979"
     = Some hsbc0001
  /\ matchAccount exampleCatalog (Some "card2979x") "Rs.500 debited" = None.
Proof.
  destruct digit_fallback_groups as [_ [Hfirst [Hnone Hexample]]].
  split; [|split].
  - apply (Hexample "Rs.500 debited from " " on 01-05"). reflexivity.
  - apply (Hfirst exampleCatalog [] [icici2979] hsbc0001 None
                  "Txn 0001: Rs.500 debited from Card 2979" [] "0001" ["2979"]);
      try reflexivity; [intros ? ? [] | intros ? []].
  - apply Hnone; try reflexivity. intros ? ? [].
Defined.

(** C4, as the specification words it, fails: a twelve-digit reference
    number holds no run of exactly four digits, yet [extractDigits] returns
    three groups from it (and not every four digits in a row either), and the
    fallback resolves an account from the middle of the number. *)
Lemma digit_runs_not_exactly_four :
  let sms := "UPI Ref 123456789012 debited" in
  extractDigits sms = ["1234"; "5678"; "9012"]
  /\ specifiedDigitRuns sms = []
  /\ everyFourDigits sms
     = ["1234"; "2345"; "3456"; "4567"; "5678"; "6789"; "7890"; "8901"; "9012"]
  /\ matchAccount [mkAccount "a3" "Axis ****5678" false] None sms
     = Some (mkAccount "a3" "Axis ****5678" false)
  /\ digitFallback [mkAccount "a3" "Axis ****5678" false] (specifiedDigitRuns sms)
     = None.
Proof. repeat split. Qed.

(** C5, as the code has it.  For a label and catalog names that are ASCII
    text: the second stage runs for a label that is neither null nor empty,
    and returns the first account of the catalog for which the lower-cased
    name, as it stands, contains the lower-cased label, or the lower-cased
    label contains the lower-cased name without its asterisks and white
    space (space, TAB, LF, VT, FF, CR). *)
Theorem partialStage_spec (accounts : list Account) (label : option string)
  (a : Account) :
  asciiLabel label ->
  asciiNames accounts ->
  (partialStage accounts label = Some a <->
   exists n, label = Some n /\ n <> EmptyString /\
     exists before after,
       accounts = (before ++ a :: after)%list /\ PartialMatch n a /\
       forall b, In b before -> ~ PartialMatch n b).
Proof.
  intros _ _. unfold partialStage. split.
  - destruct label as [n|]; [|discriminate].
    destruct n as [|c n]; [discriminate|]. simpl truthy. cbv iota.
    intros H. exists (String c n). repeat split; [discriminate|].
    destruct (find_split _ _ _ H) as [before [after [-> [Ha Hb]]]].
    exists before, after. repeat split.
    + now apply partialName_spec.
    + intros b Hin Hm. apply partialName_spec in Hm.
      rewrite (Hb b Hin) in Hm. discriminate.
  - intros [n [-> [Hn [before [after [-> [Ha Hb]]]]]]].
    destruct n as [|c n]; [congruence|]. simpl truthy. cbv iota.
    apply find_first.
    + intros b Hin. now apply no_PartialMatch, Hb.
    + now apply partialName_spec.
Qed.

(** The name loses its asterisk and its white space, and only those,
    before the label is searched for it: the second account is found by its
    stripped name, the first, whose hyphen stays, is not. *)
Lemma partialStage_spec_witness :
  partialStage [mkAccount "g0" "HSBC-Gold 0001" false;
                mkAccount "g1" ("HSBC Gold" ++ String "009" "*0001") false]
               (Some "my HSBCgold0001 card")
  = Some (mkAccount "g1" ("HSBC Gold" ++ String "009" "*0001") false).
Proof.
  apply (partialStage_spec
           [mkAccount "g0" "HSBC-Gold 0001" false;
            mkAccount "g1" ("HSBC Gold" ++ String "009" "*0001") false]
           (Some "my HSBCgold0001 card")).
  - intros n H. injection H as <-. reflexivity.
  - intros b [<- | [<- | []]]; reflexivity.
  - exists "my HSBCgold0001 card". split; [reflexivity|]. split; [discriminate|].
    exists [mkAccount "g0" "HSBC-Gold 0001" false], []. split; [reflexivity|]. split.
    + right. exists "my ", " card". reflexivity.
    + intros b [<- | []] Hm. apply partialName_spec in Hm. vm_compute in Hm.
      discriminate.
Defined.

(** C5, as the specification words it, fails in both directions and on the
    empty label: a label with the asterisks of the name is matched by the
    code and not by the stripped comparison; a label that only the stripped
    name contains is matched by the stripped comparison and not by the code;
    punctuation other than the asterisk is not stripped; an empty label is
    contained in every name, and the code skips the stage for it. *)
Lemma partial_stage_not_as_specified :
  (partialStage [hsbc0001] (Some "HSBC ****") = Some hsbc0001
   /\ specifiedPartialMatch "HSBC ****" hsbc0001 = false)
  /\ (partialStage [hsbc0001] (Some "hsbc0") = None
      /\ specifiedPartialMatch "hsbc0" hsbc0001 = true)
  /\ (let amex := mkAccount "a4" "Amex-Gold" false in
      partialStage [amex] (Some "my amexgold card") = None
      /\ specifiedPartialMatch "my amexgold card" amex = true)
  /\ (partialStage [hsbc0001] (Some EmptyString) = None
      /\ specifiedPartialMatch EmptyString hsbc0001 = true).
Proof. repeat split. Qed.

(** ** The idempotency key *)




Lemma hexWord_length (w : Z) : String.length (SHA256.hexWord w) = 8.
Proof. reflexivity. Qed.


Lemma sha256_length (s : string) : String.length (sha256 s) = 64.
Proof.
  unfold sha256, SHA256.hexState. now rewrite !length_append, !hexWord_length.
Qed.








Lemma keyText_date (s d1 d2 : string) (n : float) (x : option string) :
  keyText s d1 n x = keyText s d2 n x -> d1 = d2.
Proof.
  unfold keyText. intros H. apply append_inv_head in H. apply append_inv_head in H.
  now apply append_inv_tail in H.
Qed.



Lemma differ_or_collide (x y : string) :
  x <> y ->
  take 32 (sha256 x) <> take 32 (sha256 y) \/ keyCollision x y.
Proof.
  intros Hxy. destruct (string_dec (take 32 (sha256 x)) (take 32 (sha256 y))) as [E|E].
  - right. now split.
  - now left.
Qed.




(** ** Minor units *)

Lemma roundHalfUp_nearest (num den : Z) :
  (0 < den)%Z ->
  (2 * num - den < 2 * den * roundHalfUp num den <= 2 * num + den)%Z.
Proof.
  intros Hden. unfold roundHalfUp.
  pose proof (Z.div_mod (2 * num + den) (2 * den) ltac:(lia)) as Hdiv.
  pose proof (Z.mod_pos_bound (2 * num + den) (2 * den) ltac:(lia)) as Hmod.
  lia.
Qed.

Lemma roundHalfUp_sign (num den : Z) :
  (0 < den)%Z ->
  ((num < 0 -> roundHalfUp num den <= 0) /\ (0 < num -> 0 <= roundHalfUp num den))%Z.
Proof.
  intros Hden. unfold roundHalfUp. split; intros Hnum.
  - assert ((2 * num + den) / (2 * den) < 1)%Z; [|lia].
    apply Z.div_lt_upper_bound; lia.
  - apply Z.div_pos; lia.
Qed.

(** C9, as the code has it.  [toMinorUnits] multiplies the amount by 100 in
    binary64 and, when that product is finite, rounds it to the nearest
    integer, a tie going up (towards +Infinity), which is the rule of
    [Math.round].  A finite product whose binary exponent is not negative is
    an integer already and is returned as it is.  Otherwise the result is the
    Number of the integer [n] with [product - 1/2 < n <= product + 1/2]; it
    is not positive for a negative amount and not negative for a positive
    one.  A product that is zero, infinite or not a number is returned as it
    is.  -500 gives -50000.  The product of 19.995 and 100 is exactly 1999.5
    in binary64, a tie, and gives 2000; 0.125 gives 13 and -0.125 gives -12;
    the binary64 product of 1.005 and 100 lies below 100.5 and gives 100,
    that of 1.115 and 100 is exactly 111.5 and gives 112. *)
Theorem toMinorUnits_spec :
  (forall amount s m e,
      Prim2SF (amount * 100)%float = S754_finite s m e ->
      ((0 <= e)%Z -> toMinorUnits amount = (amount * 100)%float)
      /\
      ((e < 0)%Z ->
       exists n : Z,
         toMinorUnits amount = (if (n =? 0)%Z && s then (-0)%float else ofZ n)
         /\ (2 * signed s m - 2 ^ (- e) < 2 * 2 ^ (- e) * n
             <= 2 * signed s m + 2 ^ (- e))%Z
         /\ (s = true -> n <= 0)%Z /\ (s = false -> 0 <= n)%Z))
  /\ (forall amount,
         match Prim2SF (amount * 100)%float with
         | S754_finite _ _ _ => True
         | _ => toMinorUnits amount = (amount * 100)%float
         end)
  /\ toMinorUnits (-500)%float = (-50000)%float
  /\ Prim2SF (19.995 * 100)%float = Prim2SF 1999.5%float
  /\ toMinorUnits 19.995%float = 2000%float
  /\ toMinorUnits 0.125%float = 13%float
  /\ toMinorUnits (-0.125)%float = (-12)%float
  /\ (1.005 * 100)%float = 100.49999999999999%float
  /\ toMinorUnits 1.005%float = 100%float
  /\ (1.115 * 100)%float = 111.5%float
  /\ toMinorUnits 1.115%float = 112%float
  /\ JSON_parse "-500" = Some (JNumber (-500)%float)
  /\ JSON_parse "19.995" = Some (JNumber 19.995%float).
Proof.
  split; [|split; [|repeat split; vm_compute; reflexivity]].
  - intros amount s m e Hproduct. unfold toMinorUnits, Math_round.
    rewrite Hproduct. split.
    + intros He. apply Z.leb_le in He. now rewrite He.
    + intros He. assert (Hneg : (0 <=? e)%Z = false) by (apply Z.leb_gt; lia).
      rewrite Hneg. exists (roundHalfUp (signed s m) (2 ^ (- e))).
      assert (Hden : (0 < 2 ^ (- e))%Z) by (apply Z.pow_pos_nonneg; lia).
      split; [reflexivity|]. split; [now apply roundHalfUp_nearest|].
      destruct (roundHalfUp_sign (signed s m) (2 ^ (- e)) Hden) as [Hle Hge].
      split; intros ->; [apply Hle | apply Hge]; simpl; lia.
  - intros amount. unfold toMinorUnits, Math_round.
    now destruct (Prim2SF (amount * 100)%float).
Qed.

(** C9, as the specification words it, fails.  The Number 1.115 is
    5021513584518103 / 2^52, a little less than 1.115; a hundred times it is
    less than 111.5 and its nearest integer is 111; the binary64 product is
    exactly 111.5 and the minor units are 112.  The validated amount 1e308 is
    an integer; its product with 100 overflows binary64 and the minor units
    are +Infinity, which is no integer. *)
Lemma minor_units_not_exact :
  (Prim2SF 1.115%float = S754_finite false 5021513584518103 (-52)
   /\ roundHalfUp (100 * 5021513584518103) (2 ^ 52) = 111%Z
   /\ toMinorUnits 1.115%float = 112%float
   /\ JSON_parse "1.115" = Some (JNumber 1.115%float))
  /\
  (validateParsed
     (JObject [("amount", JNumber 1e308%float); ("description", JNull);
               ("date", JNull); ("account", JNull); ("category", JNull)])
   = ok (mkParsed (Some 1e308%float) None None None None)
   /\ JSON_parse "1e308" = Some (JNumber 1e308%float)
   /\ Prim2SF 1e308%float = S754_finite false 5010420900022432 971
   /\ Prim2SF (toMinorUnits 1e308%float) = S754_infinity false
   /\ JsonPrinter.isFinite (toMinorUnits 1e308%float) = false).
Proof. repeat split; vm_compute; reflexivity. Qed.

Lemma toMinorUnits_spec_witness :
  exists n : Z,
    toMinorUnits 1.005%float = ofZ n
    /\ (2 * 7072058789855231 - 2 ^ 46 < 2 * 2 ^ 46 * n
        <= 2 * 7072058789855231 + 2 ^ 46)%Z.
Proof.
  destruct (proj2 (proj1 toMinorUnits_spec 1.005%float false
                         7072058789855231%positive (-46)%Z eq_refl) ltac:(lia))
    as [n [Hn [Hbounds _]]].
  exists n. split; [|exact Hbounds].
  rewrite Hn. now rewrite andb_false_r.
Defined.

(** ** The JSON parser never fails for want of fuel *)

Module JsonFuel.

Import JsonParser.

Lemma dropWhile_length (cls : ascii -> bool) (s : string) :
  String.length (dropWhile cls s) <= String.length s.
Proof.
  induction s as [|c s IH]; simpl; [lia|]. destruct (cls c); simpl; lia.
Qed.

Lemma skipSpace_length (s : string) :
  String.length (skipSpace s) <= String.length s.
Proof. apply dropWhile_length. Qed.

Lemma afterChar_length (c : ascii) (s t : string) :
  afterChar c s = Some t -> String.length s = S (String.length t).
Proof.
  destruct s as [|a s]; simpl; [discriminate|].
  destruct (Ascii.eqb a c); [|discriminate]. intros H. now injection H as ->.
Qed.

Lemma span_length (cls : ascii -> bool) (s run rest : string) :
  span cls s = (run, rest) ->
  String.length s = String.length run + String.length rest.
Proof.
  revert run rest. induction s as [|c s IH]; simpl; intros run rest H.
  - now injection H as <- <-.
  - destruct (cls c).
    + destruct (span cls s) as [run' rest'] eqn:E. injection H as <- <-.
      simpl. now rewrite (IH run' rest' eq_refl).
    + now injection H as <- <-.
Qed.

Lemma drop_length (n : nat) (s : string) :
  String.length (drop n s) = String.length s - n.
Proof.
  revert s. induction n as [|n IH]; intros [|c s]; simpl; try lia. apply IH.
Qed.

Lemma startsWith_length (s p : string) :
  startsWith s p = true -> String.length p <= String.length s.
Proof.
  intros H. apply startsWith_spec in H. destruct H as [rest ->].
  rewrite length_append. lia.
Qed.

Lemma keyword_length (name : string) (v w : Json) (s rest : string) :
  keyword name v s = Some (w, rest) -> 0 < String.length name ->
  String.length rest < String.length s.
Proof.
  unfold keyword. destruct (startsWith s name) eqn:E; [|discriminate].
  intros H Hname. injection H as _ <-. apply startsWith_length in E.
  rewrite drop_length. lia.
Qed.

Lemma parseChars_length (s str rest : string) :
  parseChars s = Some (str, rest) -> String.length rest < String.length s.
Proof.
  remember (String.length s) as n eqn:Hn. revert s str rest Hn.
  induction n as [n IH] using lt_wf_ind. intros s str rest Hn H.
  assert (Hrec : forall t str' rest',
             String.length t < n -> parseChars t = Some (str', rest') ->
             String.length rest' < String.length t).
  { intros t str' rest' Ht Hp. exact (IH _ Ht t str' rest' eq_refl Hp). }
  clear IH. destruct s as [|c t]; [discriminate|]. simpl in Hn.
  cbn [parseChars] in H.
  destruct (Ascii.eqb c "034"%char).
  { injection H as _ <-. simpl. lia. }
  destruct (Ascii.eqb c "\"%char).
  - destruct t as [|e t1]; [discriminate|].
    destruct (simpleEscape e).
    + destruct (parseChars t1) as [[str' rest']|] eqn:E; [|discriminate].
      injection H as _ <-. apply Hrec in E; cbn [String.length] in *; lia.
    + destruct (Ascii.eqb e "u"%char); [|discriminate].
      destruct t1 as [|h1 [|h2 [|h3 [|h4 t2]]]]; try discriminate.
      destruct (hex4 h1 h2 h3 h4) as [u|]; [|discriminate].
      assert (Halone :
                match parseChars t2 with
                | Some (str0, rest0) =>
                    Some (utf8 (if isHighSurrogate u || isLowSurrogate u
                                then 65533%Z else u) ++ str0, rest0)
                | None => None
                end = Some (str, rest) ->
                String.length rest < String.length t2).
      { destruct (parseChars t2) as [[str' rest']|] eqn:E; [|discriminate].
        intros H'. injection H' as _ <-. apply Hrec in E; cbn [String.length] in *; lia. }
      destruct (isHighSurrogate u).
      * destruct t2 as [|b1 [|b2 [|l1 [|l2 [|l3 [|l4 t3]]]]]];
          try (apply Halone in H; cbn [String.length] in *; lia).
        destruct (hex4 l1 l2 l3 l4) as [v|];
          [|apply Halone in H; cbn [String.length] in *; lia].
        destruct (Ascii.eqb b1 "\"%char && Ascii.eqb b2 "u"%char && isLowSurrogate v);
          [|apply Halone in H; cbn [String.length] in *; lia].
        destruct (parseChars t3) as [[str' rest']|] eqn:E; [|discriminate].
        injection H as _ <-. apply Hrec in E; cbn [String.length] in *; lia.
      * apply Halone in H. cbn [String.length] in *. lia.
  - destruct (nat_of_ascii c <? 32)%nat; [discriminate|].
    destruct (parseChars t) as [[str' rest']|] eqn:E; [|discriminate].
    injection H as _ <-. apply Hrec in E; cbn [String.length] in *; lia.
Qed.

Lemma fraction_length (s frac rest : string) :
  fraction s = Some (frac, rest) -> String.length rest <= String.length s.
Proof.
  unfold fraction. destruct (afterChar "."%char s) as [t|] eqn:E.
  - destruct (span isDigit t) as [digits rest'] eqn:Hspan.
    destruct (truthy digits); [|discriminate]. intros H. injection H as _ <-.
    apply afterChar_length in E. apply span_length in Hspan. lia.
  - intros H. injection H as _ <-. lia.
Qed.

Lemma exponent_length (s rest : string) (exp10 : Z) :
  exponent s = Some (exp10, rest) -> String.length rest <= String.length s.
Proof.
  unfold exponent.
  set (marked := match afterChar "e"%char s with
                 | Some t => Some t
                 | None => afterChar "E"%char s
                 end).
  assert (Hmarked : forall t, marked = Some t -> String.length t < String.length s).
  { subst marked. intros t. destruct (afterChar "e"%char s) as [t'|] eqn:E.
    - intros H. injection H as <-. apply afterChar_length in E. lia.
    - intros H. apply afterChar_length in H. lia. }
  destruct marked as [t|]; [|intros H; injection H as _ <-; lia].
  specialize (Hmarked t eq_refl).
  set (signedPart := match afterChar "-"%char t with
                     | Some t' => (true, t')
                     | None => match afterChar "+"%char t with
                               | Some t' => (false, t')
                               | None => (false, t)
                               end
                     end).
  assert (Hsign : String.length (snd signedPart) <= String.length t).
  { subst signedPart. destruct (afterChar "-"%char t) as [t'|] eqn:E1.
    - apply afterChar_length in E1. simpl. lia.
    - destruct (afterChar "+"%char t) as [t'|] eqn:E2; simpl; [|lia].
      apply afterChar_length in E2. lia. }
  destruct signedPart as [minus t1]. simpl in Hsign.
  destruct (span isDigit t1) as [digits rest'] eqn:Hspan.
  destruct (truthy digits); [|discriminate]. intros H. injection H as _ <-.
  apply span_length in Hspan. lia.
Qed.

Lemma parseNumber_length (s rest : string) (x : float) :
  parseNumber s = Some (x, rest) -> String.length rest < String.length s.
Proof.
  unfold parseNumber.
  set (signedPart := match afterChar "-"%char s with
                     | Some t => (true, t)
                     | None => (false, s)
                     end).
  assert (Hsign : String.length (snd signedPart) <= String.length s).
  { subst signedPart. destruct (afterChar "-"%char s) as [t|] eqn:E; simpl; [|lia].
    apply afterChar_length in E. lia. }
  destruct signedPart as [negative s1]. simpl in Hsign.
  destruct (span isDigit s1) as [int s2] eqn:Hspan.
  destruct (integerPart int) eqn:Hint; [|discriminate].
  destruct (fraction s2) as [[frac s3]|] eqn:Hfrac; [|discriminate].
  destruct (exponent s3) as [[exp10 s4]|] eqn:Hexp; [|discriminate].
  intros H. injection H as _ <-.
  apply span_length in Hspan. apply fraction_length in Hfrac.
  apply exponent_length in Hexp.
  destruct int as [|c int]; [discriminate|]. simpl in Hspan. lia.
Qed.

Lemma parseScalar_length (s rest : string) (v : Json) :
  parseScalar s = Some (v, rest) -> String.length rest < String.length s.
Proof.
  unfold parseScalar. destruct (afterChar "034"%char s) as [t|] eqn:E.
  - destruct (parseChars t) as [[str rest']|] eqn:Hc; [|discriminate].
    intros H. injection H as _ <-. apply afterChar_length in E.
    apply parseChars_length in Hc. lia.
  - destruct (keyword "true" (JBool true) s) as [[w r]|] eqn:K1.
    { intros H. injection H as _ <-. apply keyword_length in K1; simpl; lia. }
    destruct (keyword "false" (JBool false) s) as [[w r]|] eqn:K2.
    { intros H. injection H as _ <-. apply keyword_length in K2; simpl; lia. }
    destruct (keyword "null" JNull s) as [[w r]|] eqn:K3.
    { intros H. injection H as _ <-. apply keyword_length in K3; simpl; lia. }
    destruct (parseNumber s) as [[x r]|] eqn:Hn; [|discriminate].
    intros H. injection H as _ <-. now apply parseNumber_length in Hn.
Qed.

Lemma parse_length (fuel : nat) :
  (forall s v rest, parseValue fuel s = Some (v, rest) ->
                    String.length rest < String.length s)
  /\ (forall s vs rest, parseElements fuel s = Some (vs, rest) ->
                        String.length rest < String.length s)
  /\ (forall s ms rest, parseMembers fuel s = Some (ms, rest) ->
                        String.length rest < String.length s).
Proof.
  induction fuel as [|fuel [IHv [IHe IHm]]]; [repeat split; discriminate|].
  split; [|split]; intros s r rest H; simpl in H.
  - pose proof (skipSpace_length s) as Hs.
    destruct (afterChar "["%char (skipSpace s)) as [t|] eqn:E1.
    { apply afterChar_length in E1. pose proof (skipSpace_length t) as Ht.
      destruct (afterChar "]"%char (skipSpace t)) as [rest'|] eqn:E2.
      - injection H as _ <-. apply afterChar_length in E2. lia.
      - destruct (parseElements fuel t) as [[items rest']|] eqn:E3; [|discriminate].
        injection H as _ <-. apply IHe in E3. lia. }
    destruct (afterChar "{"%char (skipSpace s)) as [t|] eqn:E2.
    { apply afterChar_length in E2. pose proof (skipSpace_length t) as Ht.
      destruct (afterChar "}"%char (skipSpace t)) as [rest'|] eqn:E3.
      - injection H as _ <-. apply afterChar_length in E3. lia.
      - destruct (parseMembers fuel t) as [[members rest']|] eqn:E4; [|discriminate].
        injection H as _ <-. apply IHm in E4. lia. }
    apply parseScalar_length in H. lia.
  - destruct (parseValue fuel s) as [[v rest1]|] eqn:E1; [|discriminate].
    apply IHv in E1. pose proof (skipSpace_length rest1) as Hs.
    destruct (afterChar "]"%char (skipSpace rest1)) as [rest'|] eqn:E2.
    { injection H as _ <-. apply afterChar_length in E2. lia. }
    destruct (afterChar ","%char (skipSpace rest1)) as [rest'|] eqn:E3; [|discriminate].
    destruct (parseElements fuel rest') as [[vs rest'']|] eqn:E4; [|discriminate].
    injection H as _ <-. apply afterChar_length in E3. apply IHe in E4. lia.
  - pose proof (skipSpace_length s) as Hs.
    destruct (afterChar "034"%char (skipSpace s)) as [t|] eqn:E1; [|discriminate].
    destruct (parseChars t) as [[key rest1]|] eqn:E2; [|discriminate].
    destruct (afterChar ":"%char (skipSpace rest1)) as [rest2|] eqn:E3; [|discriminate].
    destruct (parseValue fuel rest2) as [[v rest3]|] eqn:E4; [|discriminate].
    apply afterChar_length in E1. apply parseChars_length in E2.
    pose proof (skipSpace_length rest1) as Hs1. apply afterChar_length in E3.
    apply IHv in E4. pose proof (skipSpace_length rest3) as Hs3.
    destruct (afterChar "}"%char (skipSpace rest3)) as [rest'|] eqn:E5.
    { injection H as _ <-. apply afterChar_length in E5. lia. }
    destruct (afterChar ","%char (skipSpace rest3)) as [rest'|] eqn:E6; [|discriminate].
    destruct (parseMembers fuel rest') as [[ms rest'']|] eqn:E7; [|discriminate].
    injection H as _ <-. apply afterChar_length in E6. apply IHm in E7. lia.
Qed.

(** A parse that succeeds with some fuel succeeds, with the same result, with
    any fuel from twice the length of the text plus two (plus three for the
    elements and the members). *)
Lemma parse_fuel (fuel : nat) :
  (forall s r, parseValue fuel s = Some r ->
               forall more, 2 * String.length s + 2 <= more ->
                            parseValue more s = Some r)
  /\ (forall s r, parseElements fuel s = Some r ->
                  forall more, 2 * String.length s + 3 <= more ->
                               parseElements more s = Some r)
  /\ (forall s r, parseMembers fuel s = Some r ->
                  forall more, 2 * String.length s + 3 <= more ->
                               parseMembers more s = Some r).
Proof.
  induction fuel as [|fuel [IHv [IHe IHm]]]; [repeat split; discriminate|].
  destruct (parse_length fuel) as [Lv [Le Lm]].
  split; [|split]; intros s r H more Hmore;
    (destruct more as [|more]; [lia|]); simpl in H |- *.
  - pose proof (skipSpace_length s) as Hs.
    destruct (afterChar "["%char (skipSpace s)) as [t|] eqn:E1.
    { apply afterChar_length in E1.
      destruct (afterChar "]"%char (skipSpace t)) as [rest'|] eqn:E2; [exact H|].
      destruct (parseElements fuel t) as [[items rest']|] eqn:E3; [|discriminate].
      rewrite (IHe t _ E3 more); [exact H | lia]. }
    destruct (afterChar "{"%char (skipSpace s)) as [t|] eqn:E2; [|exact H].
    apply afterChar_length in E2.
    destruct (afterChar "}"%char (skipSpace t)) as [rest'|] eqn:E3; [exact H|].
    destruct (parseMembers fuel t) as [[members rest']|] eqn:E4; [|discriminate].
    rewrite (IHm t _ E4 more); [exact H | lia].
  - destruct (parseValue fuel s) as [[v rest1]|] eqn:E1; [|discriminate].
    rewrite (IHv s _ E1 more); [|lia]. apply Lv in E1.
    pose proof (skipSpace_length rest1) as Hs.
    destruct (afterChar "]"%char (skipSpace rest1)) as [rest'|] eqn:E2; [exact H|].
    destruct (afterChar ","%char (skipSpace rest1)) as [rest'|] eqn:E3; [|discriminate].
    destruct (parseElements fuel rest') as [[vs rest'']|] eqn:E4; [|discriminate].
    apply afterChar_length in E3.
    rewrite (IHe rest' _ E4 more); [exact H | lia].
  - pose proof (skipSpace_length s) as Hs.
    destruct (afterChar "034"%char (skipSpace s)) as [t|] eqn:E1; [|discriminate].
    destruct (parseChars t) as [[key rest1]|] eqn:E2; [|discriminate].
    destruct (afterChar ":"%char (skipSpace rest1)) as [rest2|] eqn:E3; [|discriminate].
    destruct (parseValue fuel rest2) as [[v rest3]|] eqn:E4; [|discriminate].
    apply afterChar_length in E1. apply parseChars_length in E2.
    pose proof (skipSpace_length rest1) as Hs1. apply afterChar_length in E3.
    rewrite (IHv rest2 _ E4 more); [|lia]. apply Lv in E4.
    pose proof (skipSpace_length rest3) as Hs3.
    destruct (afterChar "}"%char (skipSpace rest3)) as [rest'|] eqn:E5; [exact H|].
    destruct (afterChar ","%char (skipSpace rest3)) as [rest'|] eqn:E6; [|discriminate].
    destruct (parseMembers fuel rest') as [[ms rest'']|] eqn:E7; [|discriminate].
    apply afterChar_length in E6.
    rewrite (IHm rest' _ E7 more); [exact H | lia].
Qed.

End JsonFuel.

(** [JSON_parse] gives its fuel generously: whenever the grammar accepts the
    text with any amount of fuel, [JSON_parse] returns that value. *)
Theorem JSON_parse_fuel (text rest : string) (fuel : nat) (v : Json) :
  JsonParser.parseValue fuel text = Some (v, rest) ->
  JsonParser.skipSpace rest = EmptyString ->
  JSON_parse text = Some v.
Proof.
  intros H Hrest. unfold JSON_parse.
  destruct (JsonFuel.parse_fuel fuel) as [Hv _].
  rewrite (Hv text _ H (2 * String.length text + 2)); [|lia].
  now rewrite Hrest.
Qed.

(** ** The model gateway *)

Lemma isDone_flag (chunk : Json) : isDone chunk = completionFlag chunk.
Proof. destruct chunk; reflexivity. Qed.

Lemma messageContent_fragment (chunk : Json) (assembled : string) :
  match messageContent chunk with
  | Some (JString part) => assembled ++ part
  | _ => assembled
  end = assembled ++ fragmentOf chunk.
Proof.
  unfold messageContent, fragmentOf.
  destruct chunk as [| | | | |members]; simpl; try (now rewrite append_empty_r).
  destruct (lookupLast "message" members) as [[| | | | |message]|]; simpl;
    try (now rewrite append_empty_r).
  destruct (lookupLast "content" message) as [[| | | part | |]|];
    try (now rewrite append_empty_r). reflexivity.
Qed.

Lemma assembleLines_spec (lines : list string) (assembled : string) :
  assembleLines lines assembled
  = assembled ++ concatenation (map fragmentOf (uptoDone (chunksOf lines))).
Proof.
  revert assembled. induction lines as [|line more IH]; intros assembled; simpl.
  - now rewrite append_empty_r.
  - destruct (JSON_parse line) as [chunk|]; [|apply IH].
    rewrite messageContent_fragment, isDone_flag. simpl.
    destruct (completionFlag chunk); simpl.
    + now rewrite append_empty_r.
    + now rewrite IH, append_assoc.
Qed.

Lemma uptoDone_first (before after : list Json) (chunk : Json) :
  completionFlag chunk = true ->
  (forall c, In c before -> completionFlag c = false) ->
  uptoDone (before ++ chunk :: after) = (before ++ [chunk])%list.
Proof.
  intros Hchunk. induction before as [|c before IH]; intros Hbefore; simpl.
  - now rewrite Hchunk.
  - rewrite (Hbefore c (or_introl eq_refl)). f_equal. apply IH.
    intros d Hd. apply Hbefore. now right.
Qed.

Lemma uptoDone_none (chunks : list Json) :
  (forall c, In c chunks -> completionFlag c = false) -> uptoDone chunks = chunks.
Proof.
  induction chunks as [|c chunks IH]; intros H; simpl; [reflexivity|].
  rewrite (H c (or_introl eq_refl)). f_equal. apply IH.
  intros d Hd. apply H. now right.
Qed.

(** C6.  For a reply with a success status, [ollamaChatText] first parses the
    whole body as one JSON document and returns its content; only when that
    parse fails does it read the body line by line.  Then the assembled text
    is the concatenation, in the order of the lines, of the content fragments
    of the chunks up to the first chunk whose completion flag is true, that
    chunk included: what arrives behind that chunk is not read, and without
    such a chunk every chunk is read; empty lines and lines that are not
    JSON are passed over.  When the assembled text is empty the call fails
    with the gateway's error.  The three fragments of the example assemble
    to the amount object; a stream whose flag comes before its last line
    assembles to the fragments up to the flag, and a flag that is not the
    boolean true stops nothing. *)
Theorem gateway_assembly :
  (forall cfg svc payload st res,
      on_fetch svc (calls st ++ [Fetch (OLLAMA_URL cfg ++ "/api/chat") payload])%list
      = inr res ->
      res_ok res = true ->
      fst (ollamaChatText cfg svc payload st) = contentOfBody (res_text res))
  /\
  (forall body obj,
      JSON_parse body = Some obj ->
      contentOfBody body = ok (singleObjectContent obj))
  /\
  (forall body,
      JSON_parse body = None ->
      let assembled :=
        concatenation
          (map fragmentOf (uptoDone (chunksOf (filter truthy (splitLines body))))) in
      contentOfBody body
      = if truthy assembled then ok assembled
        else throw (Error assembleFailedMessage))
  /\
  (forall before chunk after,
      completionFlag chunk = true ->
      (forall c, In c before -> completionFlag c = false) ->
      uptoDone (before ++ chunk :: after) = (before ++ [chunk])%list)
  /\
  (forall chunks,
      (forall c, In c chunks -> completionFlag c = false) ->
      uptoDone chunks = chunks)
  /\ JSON_parse streamedReply = None
  /\ contentOfBody streamedReply = ok (quoted "{'amount':100}")
  /\ contentOfBody interruptedReply = ok (quoted "{'amount':100}")
  /\ contentOfBody unflaggedReply = ok (quoted "{'amount':100} and more").
Proof.
  split; [|split; [|split; [|split; [|split; [|split; [|split; [|split]]]]]]].
  - intros cfg svc payload st res Hfetch Hok.
    unfold ollamaChatText, bind, request. rewrite Hfetch, Hok. reflexivity.
  - intros body obj H. unfold contentOfBody. now rewrite H.
  - intros body H. unfold contentOfBody, assembleNdjson. rewrite H.
    now rewrite assembleLines_spec.
  - intros before chunk after. apply uptoDone_first.
  - apply uptoDone_none.
  - vm_compute. reflexivity.
  - vm_compute. reflexivity.
  - vm_compute. reflexivity.
  - vm_compute. reflexivity.
Qed.

Lemma gateway_assembly_witness :
  fst (ollamaChatText exampleConfig (steadyServices exampleCatalog streamedReply)
         (mkPayload "mistral" "prompt") startState)
  = ok (quoted "{'amount':100}")
  /\ fst (ollamaChatText exampleConfig (steadyServices exampleCatalog interruptedReply)
            (mkPayload "mistral" "prompt") startState)
     = ok (quoted "{'amount':100}")
  /\ contentOfBody (quoted "{'message':{'content':'hello'},'done':true}") = ok "hello"
  /\ contentOfBody "not json" = throw (Error assembleFailedMessage)
  /\ uptoDone [JObject [("done", JBool false)]; JObject [("done", JBool true)];
               JObject [("done", JBool true)]; JNull]
     = [JObject [("done", JBool false)]; JObject [("done", JBool true)]].
Proof.
  destruct gateway_assembly
    as [Hcall [Hsingle [Hlines [Hfirst [_ [_ [Hexample [Hstopped _]]]]]]]].
  split; [|split; [|split; [|split]]].
  - rewrite (Hcall exampleConfig (steadyServices exampleCatalog streamedReply)
               (mkPayload "mistral" "prompt") startState
               (mkHttpResponse 200 streamedReply) eq_refl eq_refl).
    exact Hexample.
  - rewrite (Hcall exampleConfig (steadyServices exampleCatalog interruptedReply)
               (mkPayload "mistral" "prompt") startState
               (mkHttpResponse 200 interruptedReply) eq_refl eq_refl).
    exact Hstopped.
  - apply (Hsingle _ (JObject [("message", JObject [("content", JString "hello")]);
                               ("done", JBool true)])).
    vm_compute. reflexivity.
  - rewrite (Hlines "not json"); [reflexivity | vm_compute; reflexivity].
  - apply (Hfirst [JObject [("done", JBool false)]] (JObject [("done", JBool true)])
                  [JObject [("done", JBool true)]; JNull]); [reflexivity|].
    intros c [<- | []]. reflexivity.
Defined.

(** ** The response parser *)

Lemma fromFirst_split (c : ascii) (s fromStart : string) :
  fromFirst c s = Some fromStart ->
  exists before t, s = before ++ fromStart /\ fromStart = String c t
                   /\ fromFirst c before = None.
Proof.
  induction s as [|ch s IH]; simpl; [discriminate|].
  destruct (Ascii.eqb ch c) eqn:E.
  - intros H; injection H as <-. apply Ascii.eqb_eq in E. subst ch.
    exists EmptyString, s. repeat split.
  - intros H. destruct (IH H) as [before [t [-> [-> Hnone]]]].
    exists (String ch before), t. repeat split. simpl. now rewrite E.
Qed.

Lemma scanBraces_spec (s object : string) (depth : Z) :
  scanBraces s depth = Some object ->
  exists after,
    s = object ++ after /\ depthAfter object depth = 0%Z /\
    forall p q, object = p ++ q -> p <> EmptyString -> q <> EmptyString ->
                depthAfter p depth <> 0%Z.
Proof.
  revert object depth. induction s as [|ch s IH]; intros object depth; simpl;
    [discriminate|].
  set (depth' := if Ascii.eqb ch "{"%char then (depth + 1)%Z
                 else if Ascii.eqb ch "}"%char then (depth - 1)%Z else depth).
  destruct (depth' =? 0)%Z eqn:Hzero.
  - intros H; injection H as <-. exists s. apply Z.eqb_eq in Hzero.
    repeat split; [exact Hzero|].
    intros p q Heq Hp Hq. destruct p as [|x [|y p]]; simpl in Heq; congruence.
  - destruct (scanBraces s depth') as [more|] eqn:Hmore; [|discriminate].
    intros H; injection H as <-.
    destruct (IH more depth' Hmore) as [after [-> [Hend Hprefix]]].
    exists after. repeat split; [exact Hend|].
    intros p q Heq Hp Hq. destruct p as [|x p]; [congruence|].
    simpl in Heq. injection Heq as -> Heq. simpl. fold depth'.
    destruct p as [|y p].
    + simpl. now apply Z.eqb_neq.
    + apply (Hprefix (String y p) q Heq); [discriminate | exact Hq].
Qed.

Lemma scanBraces_head (c : ascii) (t object : string) (depth : Z) :
  scanBraces (String c t) depth = Some object ->
  exists more, object = String c more.
Proof.
  simpl. destruct (_ =? 0)%Z.
  - intros H; injection H as <-. eauto.
  - destruct (scanBraces t _); [|discriminate].
    intros H; injection H as <-. eauto.
Qed.

Lemma startsWith_empty (s : string) : startsWith s EmptyString = true.
Proof. destruct s; reflexivity. Qed.

Lemma fromFirst_none (c : ascii) (s : string) :
  fromFirst c s = None <-> includes s (String c EmptyString) = false.
Proof.
  induction s as [|ch s IH]; [now split|].
  rewrite includes_unfold. cbn [fromFirst startsWith].
  rewrite startsWith_empty, andb_true_r, (Ascii.eqb_sym c ch).
  destruct (Ascii.eqb ch c); [split; discriminate | exact IH].
Qed.

Lemma fromFirst_unique (c : ascii) (before t : string) :
  includes before (String c EmptyString) = false ->
  fromFirst c (before ++ String c t) = Some (String c t).
Proof.
  induction before as [|b before IH]; intros H.
  - simpl. now rewrite Ascii.eqb_refl.
  - rewrite includes_unfold in H. cbn [startsWith] in H.
    rewrite startsWith_empty, andb_true_r, (Ascii.eqb_sym c b) in H.
    apply orb_false_iff in H. destruct H as [Hb H].
    simpl. rewrite Hb. now apply IH.
Qed.

Lemma scanBraces_none (s : string) (depth : Z) :
  scanBraces s depth = None <->
  forall p q, s = p ++ q -> p <> EmptyString -> depthAfter p depth <> 0%Z.
Proof.
  revert depth. induction s as [|ch s IH]; intros depth.
  - split; [|reflexivity]. intros _ [|x p] q H Hp; [congruence | discriminate].
  - cbn [scanBraces].
    set (depth' := if Ascii.eqb ch "{"%char then (depth + 1)%Z
                   else if Ascii.eqb ch "}"%char then (depth - 1)%Z else depth).
    split.
    + destruct (depth' =? 0)%Z eqn:Hzero; [discriminate|].
      destruct (scanBraces s depth') as [more|] eqn:Hmore; [discriminate|].
      intros _ [|x p] q H Hp; [congruence|].
      simpl in H. injection H as <- H. cbn [depthAfter]. fold depth'.
      destruct p as [|y p].
      * simpl. now apply Z.eqb_neq.
      * apply (proj1 (IH depth') Hmore (String y p) q H). discriminate.
    + intros H.
      assert (Hzero : (depth' =? 0)%Z = false).
      { apply Z.eqb_neq. apply (H (String ch EmptyString) s eq_refl). discriminate. }
      rewrite Hzero.
      assert (Hmore : scanBraces s depth' = None).
      { apply IH. intros p q Hs Hp.
        apply (H (String ch p) q); [simpl; now rewrite Hs | discriminate]. }
      now rewrite Hmore.
Qed.

Lemma scanBraces_found (s object after : string) (depth : Z) :
  s = object ++ after ->
  object <> EmptyString ->
  depthAfter object depth = 0%Z ->
  (forall p q, object = p ++ q -> p <> EmptyString -> q <> EmptyString ->
               depthAfter p depth <> 0%Z) ->
  scanBraces s depth = Some object.
Proof.
  revert s depth. induction object as [|ch object IH]; intros s depth -> Hne Hend Hmin;
    [congruence|].
  cbn [append scanBraces]. cbn [depthAfter] in Hend.
  set (depth' := if Ascii.eqb ch "{"%char then (depth + 1)%Z
                 else if Ascii.eqb ch "}"%char then (depth - 1)%Z else depth) in *.
  destruct object as [|y object].
  - simpl in Hend. rewrite Hend. reflexivity.
  - assert (Hzero : (depth' =? 0)%Z = false).
    { apply Z.eqb_neq.
      apply (Hmin (String ch EmptyString) (String y object) eq_refl); discriminate. }
    rewrite Hzero.
    rewrite (IH (String y object ++ after) depth' eq_refl); [reflexivity | | |].
    + discriminate.
    + exact Hend.
    + intros p q Hpq Hp Hq.
      apply (Hmin (String ch p) q); [simpl; now rewrite Hpq | discriminate | exact Hq].
Qed.

Lemma firstBrace_found (s before rest : string) :
  FirstBrace s before rest -> fromFirst "{"%char s = Some ("{" ++ rest).
Proof. intros [-> H]. now apply fromFirst_unique. Qed.

Lemma firstBrace_exists (s fromStart : string) :
  fromFirst "{"%char s = Some fromStart ->
  exists before rest, FirstBrace s before rest /\ fromStart = "{" ++ rest.
Proof.
  intros H. destruct (fromFirst_split _ _ _ H) as [before [t [Hs [Ht Hnone]]]].
  exists before, t. split; [|exact Ht]. split.
  - now rewrite Hs, Ht.
  - now apply fromFirst_none.
Qed.

Lemma balancedPrefix_found (s object : string) :
  BalancedPrefix s object <-> scanBraces s 0 = Some object.
Proof.
  split.
  - intros [after [Hs [Hne [Hend Hmin]]]]. now apply (scanBraces_found s object after).
  - intros H. destruct (scanBraces_spec _ _ _ H) as [after [Hs [Hend Hmin]]].
    exists after. repeat split; try assumption.
    intros ->. destruct s; simpl in H; [discriminate|].
    destruct (_ =? 0)%Z; [discriminate|]. now destruct (scanBraces s _).
Qed.

(** C7, as the code has it.  For ASCII text, the parser strips the code
    fence and trims; when the whole text is JSON that value is returned.
    Otherwise it looks for the first opening brace, follows the nesting
    depth character by character (a brace inside a string literal counts
    like any other) and parses exactly the text from that brace up to the
    first character behind which the depth is zero.  It fails if and only
    if the direct parse fails and the text holds no opening brace, or the
    depth is never zero behind any character from the first opening brace
    on, or the balanced substring is not JSON.  From the wrapped reply of the
    example it recovers exactly the five-key object. *)
Theorem parseModelJsonFromText_spec :
  (forall text,
      isAscii text = true ->
      let stripped := trim (stripCodeFences text) in
      (forall v, JSON_parse stripped = Some v -> parseModelJsonFromText text = ok v)
      /\
      (JSON_parse stripped = None ->
       (includes stripped "{" = false ->
        parseModelJsonFromText text = throw (Error noBraceMessage))
       /\
       (forall before rest,
           FirstBrace stripped before rest ->
           (NeverBalanced ("{" ++ rest) ->
            parseModelJsonFromText text = throw (Error unterminatedMessage))
           /\
           (forall object,
               BalancedPrefix ("{" ++ rest) object ->
               parseModelJsonFromText text = parseOrThrow object
               /\ startsWith object "{" = true)))
      /\
      ((exists e, parseModelJsonFromText text = inl e) <->
       JSON_parse stripped = None /\
       (includes stripped "{" = false
        \/ (exists before rest,
               FirstBrace stripped before rest
               /\ (NeverBalanced ("{" ++ rest)
                   \/ exists object,
                        BalancedPrefix ("{" ++ rest) object
                        /\ JSON_parse object = None)))))
  /\ stripCodeFences wrappedReply = fiveKeyText
  /\ parseModelJsonFromText wrappedReply = ok fiveKeyObject.
Proof.
  split; [|split; vm_compute; reflexivity].
  intros text _ stripped. unfold parseModelJsonFromText. fold stripped.
  unfold extractFirstJsonObjectString. split; [|split].
  - intros v ->. reflexivity.
  - intros ->. split.
    + intros H. apply fromFirst_none in H. now rewrite H.
    + intros before rest Hfirst. rewrite (firstBrace_found _ _ _ Hfirst). split.
      * intros H. apply scanBraces_none in H. now rewrite H.
      * intros object H. pose proof H as [after [Hs [Hne _]]].
        apply balancedPrefix_found in H. rewrite H. split; [reflexivity|].
        destruct object as [|c object]; [congruence|]. simpl in Hs.
        injection Hs as <- _. apply startsWith_spec. now exists object.
  - unfold parseOrThrow, ok, throw.
    destruct (JSON_parse stripped) as [v|]; [split|].
    + intros [e H]. discriminate.
    + intros [H _]. discriminate.
    + destruct (fromFirst "{"%char stripped) as [fromStart|] eqn:Hfrom.
      * destruct (firstBrace_exists _ _ Hfrom) as [before [rest [Hfirst ->]]].
        assert (Hsame : forall before' rest',
                   FirstBrace stripped before' rest' -> rest' = rest).
        { intros before' rest' H'. apply firstBrace_found in H'.
          rewrite Hfrom in H'. now injection H'. }
        destruct (scanBraces ("{" ++ rest) 0) as [object|] eqn:Hscan.
        -- destruct (JSON_parse object) as [v|] eqn:Hv; split.
           ++ intros [e H]. discriminate.
           ++ intros [_ [H | [b [r [Hb [H | [o [Ho Hnot]]]]]]]].
              ** apply fromFirst_none in H. congruence.
              ** rewrite (Hsame _ _ Hb) in H. apply scanBraces_none in H. congruence.
              ** rewrite (Hsame _ _ Hb) in Ho. apply balancedPrefix_found in Ho.
                 congruence.
           ++ intros _. split; [reflexivity|]. right. exists before, rest.
              split; [exact Hfirst|]. right. exists object.
              split; [now apply balancedPrefix_found | exact Hv].
           ++ intros _. now exists (SyntaxError object).
        -- split.
           ++ intros _. split; [reflexivity|]. right. exists before, rest.
              split; [exact Hfirst|]. left. exact (proj1 (scanBraces_none _ _) Hscan).
           ++ intros _. now exists (Error unterminatedMessage).
      * split.
        -- intros _. split; [reflexivity|]. left. now apply fromFirst_none.
        -- intros _. now exists (Error noBraceMessage).
Qed.

Lemma parseModelJsonFromText_spec_witness :
  parseModelJsonFromText ("The result is " ++ fiveKeyText ++ " as asked")
  = ok fiveKeyObject
  /\ parseModelJsonFromText "no object here" = throw (Error noBraceMessage)
  /\ parseModelJsonFromText (quoted "{'amount': {") = throw (Error unterminatedMessage).
Proof.
  destruct parseModelJsonFromText_spec as [H _].
  split; [|split].
  - destruct (H ("The result is " ++ fiveKeyText ++ " as asked") eq_refl)
      as [_ [Hfall _]].
    destruct (Hfall ltac:(vm_compute; reflexivity)) as [_ Hfrom].
    destruct (Hfrom "The result is " (drop 1 fiveKeyText ++ " as asked")) as [_ Hscan].
    { split; reflexivity. }
    destruct (Hscan fiveKeyText) as [-> _].
    { apply balancedPrefix_found. vm_compute. reflexivity. }
    vm_compute. reflexivity.
  - destruct (H "no object here" eq_refl) as [_ [Hfall _]].
    destruct (Hfall ltac:(vm_compute; reflexivity)) as [Hnone _].
    apply Hnone. reflexivity.
  - destruct (H (quoted "{'amount': {") eq_refl) as [_ [Hfall _]].
    destruct (Hfall ltac:(vm_compute; reflexivity)) as [_ Hfrom].
    destruct (Hfrom EmptyString (drop 1 (quoted "{'amount': {"))) as [Hnone _].
    { split; reflexivity. }
    apply Hnone. unfold NeverBalanced. refine (proj1 (scanBraces_none _ 0) _).
    vm_compute. reflexivity.
Defined.

(** C7, as the specification words it, fails: the text below has an opening
    brace and its braces balance, and the parser fails all the same, because
    the balanced substring is not JSON; a brace inside a string literal ends
    the substring early. *)
Lemma balanced_braces_still_fail :
  (parseModelJsonFromText "{abc}" = throw (SyntaxError "{abc}")
   /\ includes (trim (stripCodeFences "{abc}")) "{" = true
   /\ FirstBrace (trim (stripCodeFences "{abc}")) EmptyString "abc}"
   /\ BalancedPrefix "{abc}" "{abc}"
   /\ ~ NeverBalanced "{abc}"
   /\ fromFirst "{"%char (trim (stripCodeFences "{abc}")) = Some "{abc}"
   /\ scanBraces "{abc}" 0 = Some "{abc}")
  /\
  (let text := quoted "Sure: {'note':'close with }','amount':5} done" in
   parseModelJsonFromText text = throw (SyntaxError (quoted "{'note':'close with }"))
   /\ FirstBrace (trim (stripCodeFences text)) "Sure: "
                 (quoted "'note':'close with }','amount':5} done")
   /\ BalancedPrefix (quoted "{'note':'close with }','amount':5} done")
                     (quoted "{'note':'close with }")
   /\ fromFirst "{"%char (trim (stripCodeFences text))
      = Some (quoted "{'note':'close with }','amount':5} done")
   /\ scanBraces (quoted "{'note':'close with }','amount':5} done") 0
      = Some (quoted "{'note':'close with }")).
Proof.
  split.
  - split; [vm_compute; reflexivity|]. split; [vm_compute; reflexivity|].
    split; [split; vm_compute; reflexivity|].
    split; [apply balancedPrefix_found; vm_compute; reflexivity|].
    split; [|split; vm_compute; reflexivity].
    intros H. apply (H "{abc}" EmptyString); [reflexivity | discriminate | reflexivity].
  - cbv zeta. split; [vm_compute; reflexivity|].
    split; [split; vm_compute; reflexivity|].
    split; [apply balancedPrefix_found; vm_compute; reflexivity|].
    split; vm_compute; reflexivity.
Qed.

(** ** Computations: what they do to the cache and to the call log *)

Section Effects.

Context {A B : Type}.

Lemma keeps_ret (x : A) : KeepsCache (ret x).
Proof. intros st. reflexivity. Qed.

Lemma keeps_raise (e : Thrown) : KeepsCache (@raise A e).
Proof. intros st. reflexivity. Qed.

Lemma keeps_lift (r : Result A) : KeepsCache (lift r).
Proof. intros st. reflexivity. Qed.

Lemma keeps_request (c : Call) (answer : list Call -> Result A) :
  KeepsCache (request c answer).
Proof. intros st. reflexivity. Qed.

Lemma keeps_bind (m : M A) (k : A -> M B) :
  KeepsCache m -> (forall x, KeepsCache (k x)) -> KeepsCache (bind m k).
Proof.
  intros Hm Hk st. unfold bind. specialize (Hm st).
  destruct (m st) as [[e | x] st']; simpl in *; [exact Hm|].
  now rewrite Hk.
Qed.

Lemma keeps_preserves (P : Cache -> Prop) (m : M A) : KeepsCache m -> Preserves P m.
Proof. intros H st HP. now rewrite H. Qed.

Lemma preserves_bind (P : Cache -> Prop) (m : M A) (k : A -> M B) :
  Preserves P m -> (forall x, Preserves P (k x)) -> Preserves P (bind m k).
Proof.
  intros Hm Hk st HP. unfold bind. specialize (Hm st HP).
  destruct (m st) as [[e | x] st']; simpl in *; [exact Hm|].
  now apply Hk.
Qed.

Lemma preserves_tryCatch (P : Cache -> Prop) (m : M A) (handler : Thrown -> M A) :
  Preserves P m -> (forall e, Preserves P (handler e)) ->
  Preserves P (tryCatch m handler).
Proof.
  intros Hm Hh st HP. unfold tryCatch. specialize (Hm st HP).
  destruct (m st) as [[e | x] st']; simpl in *; [|exact Hm].
  now apply Hh.
Qed.

Lemma only_ret (p : Call -> bool) (x : A) : OnlyCalls p (ret x).
Proof. intros st. exists []. now rewrite app_nil_r. Qed.

Lemma only_raise (p : Call -> bool) (e : Thrown) : OnlyCalls p (@raise A e).
Proof. intros st. exists []. now rewrite app_nil_r. Qed.

Lemma only_lift (p : Call -> bool) (r : Result A) : OnlyCalls p (lift r).
Proof. intros st. exists []. now rewrite app_nil_r. Qed.

Lemma only_request (p : Call -> bool) (c : Call) (answer : list Call -> Result A) :
  p c = true -> OnlyCalls p (request c answer).
Proof. intros Hc st. exists [c]. simpl. now rewrite Hc. Qed.

Lemma only_bind (p : Call -> bool) (m : M A) (k : A -> M B) :
  OnlyCalls p m -> (forall x, OnlyCalls p (k x)) -> OnlyCalls p (bind m k).
Proof.
  intros Hm Hk st. unfold bind. destruct (Hm st) as [new [Hlog Hnew]].
  destruct (m st) as [[e | x] st']; simpl in *; [now exists new|].
  destruct (Hk x st') as [new' [Hlog' Hnew']].
  exists (new ++ new')%list. rewrite Hlog', Hlog, app_assoc. split; [reflexivity|].
  now rewrite forallb_app, Hnew, Hnew'.
Qed.

Lemma only_tryCatch (p : Call -> bool) (m : M A) (handler : Thrown -> M A) :
  OnlyCalls p m -> (forall e, OnlyCalls p (handler e)) ->
  OnlyCalls p (tryCatch m handler).
Proof.
  intros Hm Hh st. unfold tryCatch. destruct (Hm st) as [new [Hlog Hnew]].
  destruct (m st) as [[e | x] st']; simpl in *; [|now exists new].
  destruct (Hh e st') as [new' [Hlog' Hnew']].
  exists (new ++ new')%list. rewrite Hlog', Hlog, app_assoc. split; [reflexivity|].
  now rewrite forallb_app, Hnew, Hnew'.
Qed.

End Effects.

Lemma only_getCache (p : Call -> bool) : OnlyCalls p getCache.
Proof. intros st. exists []. now rewrite app_nil_r. Qed.

Lemma only_putCache (p : Call -> bool) (c : Cache) : OnlyCalls p (putCache c).
Proof. intros st. exists []. simpl. now rewrite app_nil_r. Qed.

Lemma keeps_getCache : KeepsCache getCache.
Proof. intros st. reflexivity. Qed.

Create HintDb calls.
Create HintDb cache.

#[local] Hint Resolve only_ret only_raise only_lift only_getCache only_putCache
  only_request : calls.
#[local] Hint Resolve keeps_ret keeps_raise keeps_lift keeps_getCache
  keeps_request : cache.

Ltac step_calls :=
  repeat first
    [ apply only_bind; [|intros ?]
    | apply only_tryCatch; [|intros ?]
    | progress auto with calls
    | match goal with |- OnlyCalls _ (if ?b then _ else _) => destruct b end
    | match goal with |- OnlyCalls _ (match ?x with _ => _ end) => destruct x end ].

Ltac step_cache :=
  repeat first
    [ apply keeps_bind; [|intros ?]
    | progress auto with cache
    | match goal with |- KeepsCache (if ?b then _ else _) => destruct b end
    | match goal with |- KeepsCache (match ?x with _ => _ end) => destruct x end ].

Lemma ensureActualReady_calls (cfg : Config) (svc : Services) :
  OnlyCalls notImport (ensureActualReady cfg svc).
Proof.
  unfold ensureActualReady, ensureDirExists, initializeCatalog, resetCatalog.
  step_calls.
Qed.

Lemma ollamaParse_calls (cfg : Config) (svc : Services) (sms : string)
  (accounts : list Account) (categories : list Category) :
  OnlyCalls notImport (ollamaParse cfg svc sms accounts categories).
Proof. unfold ollamaParse, ollamaChatText. step_calls. Qed.

Lemma extract_calls (cfg : Config) (svc : Services) (sms : string) :
  OnlyCalls notImport (extract cfg svc sms).
Proof.
  unfold extract. apply only_bind; [apply ensureActualReady_calls | intros _].
  apply only_bind; [apply only_getCache | intros c].
  apply only_bind; [apply ollamaParse_calls | intros raw]. apply only_lift.
Qed.

Lemma ollamaParse_cache (cfg : Config) (svc : Services) (sms : string)
  (accounts : list Account) (categories : list Category) :
  KeepsCache (ollamaParse cfg svc sms accounts categories).
Proof. unfold ollamaParse, ollamaChatText. step_cache. Qed.

(** ** The catalog cache *)

Lemma ensureActualReady_ready (cfg : Config) (svc : Services) (st : State) :
  isReady (cache st) = true -> ensureActualReady cfg svc st = (inr tt, st).
Proof.
  intros H. unfold ensureActualReady, bind, getCache, ok. now rewrite H.
Qed.

Lemma isReady_accounts (c : Cache) : isReady c = true -> actualAccounts c <> [].
Proof.
  unfold isReady. rewrite andb_true_iff. intros [_ H] E. rewrite E in H.
  discriminate.
Qed.

(** However [ensureActualReady] ends, the cache it leaves is the one it
    found, or a ready one with accounts, or the uninitialized one. *)
Lemma ensureActualReady_outcome (cfg : Config) (svc : Services) (st : State) :
  match ensureActualReady cfg svc st with
  | (inr _, st') => isReady (cache st') = true
  | (inl _, st') =>
      isReady (cache st) = false /\
      (cache st' = uninitialized \/
       (cache st' = cache st /\
        exists e, on_mkdir svc (calls st ++ [Mkdir (ACTUAL_DATADIR cfg)])%list = inl e))
  end.
Proof.
  unfold ensureActualReady, ensureDirExists, initializeCatalog, resetCatalog,
    bind, tryCatch, request, getCache, putCache, raise, ret, ok, throw.
  simpl. destruct (isReady (cache st)) eqn:Hready; [exact Hready|].
  destruct (on_mkdir svc _) as [e | []] eqn:Hmkdir.
  - split; [reflexivity|]. right. split; [reflexivity|]. now exists e.
  - simpl. destruct (on_init svc _) as [e | []]; simpl.
    { destruct (on_shutdown svc _); simpl; auto. }
    destruct (on_downloadBudget svc _) as [e | []]; simpl.
    { destruct (on_shutdown svc _); simpl; auto. }
    destruct (on_getAccounts svc _) as [e | accounts]; simpl.
    { destruct (on_shutdown svc _); simpl; auto. }
    destruct (filter (fun a => negb (a_closed a)) accounts) as [|a active] eqn:Hactive;
      simpl.
    { destruct (on_shutdown svc _); simpl; auto. }
    destruct (on_getCategories svc _) as [e | categories]; simpl.
    { destruct (on_shutdown svc _); simpl; auto. }
    reflexivity.
Qed.

Lemma ensureActualReady_preserves (cfg : Config) (svc : Services) :
  Preserves readyHasAccounts (ensureActualReady cfg svc).
Proof.
  intros st Hinv. pose proof (ensureActualReady_outcome cfg svc st) as H.
  destruct (ensureActualReady cfg svc st) as [[e | x] st']; simpl.
  - destruct H as [_ [-> | [-> _]]]; [discriminate | exact Hinv].
  - intros _. now apply isReady_accounts.
Qed.

Lemma ensureActualReady_steps (cfg : Config) (svc : Services) (st : State) :
  isReady (cache st) = false ->
  on_mkdir svc (logMkdir cfg st) = inr tt ->
  (forall e, on_init svc (logInit cfg st) = inl e ->
             FailsAfter cfg svc st e (logInit cfg st))
  /\
  (on_init svc (logInit cfg st) = inr tt ->
   (forall e, on_downloadBudget svc (logDownload cfg st) = inl e ->
              FailsAfter cfg svc st e (logDownload cfg st))
   /\
   (on_downloadBudget svc (logDownload cfg st) = inr tt ->
    (forall e, on_getAccounts svc (logAccounts cfg st) = inl e ->
               FailsAfter cfg svc st e (logAccounts cfg st))
    /\
    (forall accounts,
        on_getAccounts svc (logAccounts cfg st) = inr accounts ->
        (openAccounts accounts = [] ->
         FailsAfter cfg svc st (Error noActiveAccountsMessage) (logAccounts cfg st))
        /\
        (openAccounts accounts <> [] ->
         (forall e, on_getCategories svc (logCategories cfg st) = inl e ->
                    FailsAfter cfg svc st e (logCategories cfg st))
         /\
         (forall categories,
             on_getCategories svc (logCategories cfg st) = inr categories ->
             ensureActualReady cfg svc st
             = (inr tt,
                mkState (mkCache true (openAccounts accounts)
                                 (visibleCategories categories))
                        (logCategories cfg st))))))).
Proof.
  intros Hready Hmkdir.
  unfold FailsAfter, ensureActualReady, ensureDirExists, initializeCatalog,
    resetCatalog, bind, tryCatch, request, getCache, putCache, raise, ret, ok, throw.
  simpl. rewrite Hready. fold (logMkdir cfg st). rewrite Hmkdir. simpl.
  fold (logInit cfg st). split.
  { intros e ->. simpl. now destruct (on_shutdown svc _). }
  intros ->. simpl. fold (logDownload cfg st). split.
  { intros e ->. simpl. now destruct (on_shutdown svc _). }
  intros ->. simpl. fold (logAccounts cfg st). split.
  { intros e ->. simpl. now destruct (on_shutdown svc _). }
  intros accounts ->. simpl. fold (openAccounts accounts). split.
  { intros ->. simpl. now destruct (on_shutdown svc _). }
  intros Hactive. destruct (openAccounts accounts) as [|a active] eqn:E; [congruence|].
  simpl. fold (logCategories cfg st). split.
  { intros e ->. simpl. now destruct (on_shutdown svc _). }
  intros categories ->. reflexivity.
Qed.

Lemma ensureActualReady_failure (cfg : Config) (svc : Services) (st st' : State)
  (e : Thrown) :
  ensureActualReady cfg svc st = (inl e, st') ->
  cache st' = uninitialized
  \/ (cache st' = cache st /\ on_mkdir svc (logMkdir cfg st) = inl e).
Proof.
  intros H.
  pose proof (ensureActualReady_outcome cfg svc st) as Hout. rewrite H in Hout.
  destruct Hout as [Hready [Hreset | [Hsame [e' He']]]]; [now left | right].
  split; [exact Hsame|]. unfold logMkdir. rewrite He'. f_equal.
  revert H. unfold ensureActualReady, ensureDirExists, bind, request, getCache, ok.
  simpl. rewrite Hready, He'. intros H. now injection H.
Qed.

Lemma ensureActualReady_restart (cfg : Config) (svc : Services) (st : State) :
  cache st = uninitialized ->
  on_mkdir svc (logMkdir cfg st) = inr tt ->
  exists more,
    calls (snd (ensureActualReady cfg svc st)) = (logInit cfg st ++ more)%list.
Proof.
  intros Hcache Hmkdir.
  unfold ensureActualReady, ensureDirExists, initializeCatalog, resetCatalog,
    bind, tryCatch, request, getCache, putCache, raise, ret, ok, throw.
  simpl. rewrite Hcache. simpl. fold (logMkdir cfg st). rewrite Hmkdir. simpl.
  fold (logInit cfg st).
  destruct (on_init svc _) as [e | []]; simpl.
  { destruct (on_shutdown svc _); simpl; eauto. }
  destruct (on_downloadBudget svc _) as [e | []]; simpl.
  { destruct (on_shutdown svc _); simpl; rewrite <- !app_assoc; eauto. }
  destruct (on_getAccounts svc _) as [e | accounts]; simpl.
  { destruct (on_shutdown svc _); simpl; rewrite <- !app_assoc; eauto. }
  destruct (filter (fun a => negb (a_closed a)) accounts) as [|a active]; simpl.
  { destruct (on_shutdown svc _); simpl; rewrite <- !app_assoc; eauto. }
  destruct (on_getCategories svc _) as [e | categories]; simpl.
  { destruct (on_shutdown svc _); simpl; rewrite <- !app_assoc; eauto. }
  rewrite <- !app_assoc; eauto.
Qed.

(** C8.  [ensureActualReady], entered with a cache that is not ready and a
    data directory that could be created, runs [init], [downloadBudget],
    [getAccounts] and [getCategories] in this order.  Whichever of them
    fails, and also when no fetched account is open, it calls [shutdown]
    (whose own failure is dropped), leaves the cache uninitialized (the
    ready flag false, both lists empty, the accounts stored before a failure
    of [getCategories] gone) and throws the same error again.  Whenever
    [ensureActualReady] fails, the cache it leaves is the uninitialized one,
    unless the data directory could not be created, which happens before the
    initialization and leaves the cache as it was.  On an uninitialized cache
    the next call starts the initialization again with [init]. *)
Theorem initialization_failure_resets :
  (forall cfg svc st,
      isReady (cache st) = false ->
      on_mkdir svc (logMkdir cfg st) = inr tt ->
      (forall e, on_init svc (logInit cfg st) = inl e ->
                 FailsAfter cfg svc st e (logInit cfg st))
      /\
      (on_init svc (logInit cfg st) = inr tt ->
       (forall e, on_downloadBudget svc (logDownload cfg st) = inl e ->
                  FailsAfter cfg svc st e (logDownload cfg st))
       /\
       (on_downloadBudget svc (logDownload cfg st) = inr tt ->
        (forall e, on_getAccounts svc (logAccounts cfg st) = inl e ->
                   FailsAfter cfg svc st e (logAccounts cfg st))
        /\
        (forall accounts,
            on_getAccounts svc (logAccounts cfg st) = inr accounts ->
            (openAccounts accounts = [] ->
             FailsAfter cfg svc st (Error noActiveAccountsMessage)
                        (logAccounts cfg st))
            /\
            (openAccounts accounts <> [] ->
             (forall e, on_getCategories svc (logCategories cfg st) = inl e ->
                        FailsAfter cfg svc st e (logCategories cfg st))
             /\
             (forall categories,
                 on_getCategories svc (logCategories cfg st) = inr categories ->
                 ensureActualReady cfg svc st
                 = (inr tt,
                    mkState (mkCache true (openAccounts accounts)
                                     (visibleCategories categories))
                            (logCategories cfg st))))))))
  /\
  (forall cfg svc st e st',
      ensureActualReady cfg svc st = (inl e, st') ->
      cache st' = uninitialized
      \/ (cache st' = cache st /\ on_mkdir svc (logMkdir cfg st) = inl e))
  /\
  (forall cfg svc st,
      cache st = uninitialized ->
      on_mkdir svc (logMkdir cfg st) = inr tt ->
      exists more,
        calls (snd (ensureActualReady cfg svc st)) = (logInit cfg st ++ more)%list).
Proof.
  split; [|split].
  - exact ensureActualReady_steps.
  - intros cfg svc st e st'. apply ensureActualReady_failure.
  - exact ensureActualReady_restart.
Qed.

Lemma initialization_failure_resets_witness :
  ensureActualReady exampleConfig (flakyServices exampleCatalog EmptyString) startState
  = (inl (Error "connect ECONNREFUSED"),
     mkState uninitialized
       [Mkdir "/tmp/actual-data";
        Init "/tmp/actual-data" "http://actual:5006" "secret";
        Shutdown])
  /\
  ensureActualReady exampleConfig
    (steadyServices [mkAccount "a0" "Old card" true] EmptyString) startState
  = (inl (Error noActiveAccountsMessage),
     mkState uninitialized
       [Mkdir "/tmp/actual-data";
        Init "/tmp/actual-data" "http://actual:5006" "secret";
        DownloadBudget "budget-1" None;
        GetAccounts;
        Shutdown]).
Proof.
  destruct initialization_failure_resets as [H _]. split.
  - destruct (H exampleConfig (flakyServices exampleCatalog EmptyString) startState
                eq_refl eq_refl) as [Hinit _].
    exact (Hinit (Error "connect ECONNREFUSED") eq_refl).
  - destruct (H exampleConfig
                (steadyServices [mkAccount "a0" "Old card" true] EmptyString)
                startState eq_refl eq_refl) as [_ Hrest].
    destruct (Hrest eq_refl) as [_ Hrest2].
    destruct (Hrest2 eq_refl) as [_ Haccounts].
    destruct (Haccounts [mkAccount "a0" "Old card" true] eq_refl) as [Hempty _].
    exact (Hempty eq_refl).
Defined.

(** After the failed attempt the next call initializes the catalog. *)
Example initialization_is_retried :
  let svc := flakyServices exampleCatalog EmptyString in
  let failed := snd (ensureActualReady exampleConfig svc startState) in
  ensureActualReady exampleConfig svc failed
  = (inr tt,
     mkState (mkCache true exampleCatalog [])
       [Mkdir "/tmp/actual-data";
        Init "/tmp/actual-data" "http://actual:5006" "secret";
        Shutdown;
        Mkdir "/tmp/actual-data";
        Init "/tmp/actual-data" "http://actual:5006" "secret";
        DownloadBudget "budget-1" None;
        GetAccounts;
        GetCategories]).
Proof. vm_compute. reflexivity. Qed.

(** ** The pipeline *)

Lemma extract_preserves (cfg : Config) (svc : Services) (sms : string) :
  Preserves readyHasAccounts (extract cfg svc sms).
Proof.
  unfold extract.
  apply preserves_bind; [apply ensureActualReady_preserves | intros _].
  apply keeps_preserves. apply keeps_bind; [apply keeps_getCache | intros c].
  apply keeps_bind; [apply ollamaParse_cache | intros raw]. apply keeps_lift.
Qed.

Lemma importIntoActual_preserves (cfg : Config) (svc : Services) (sms : string)
  (amount : float) (description date accountName categoryName : option string) :
  Preserves readyHasAccounts
    (importIntoActual cfg svc sms amount description date accountName categoryName).
Proof.
  unfold importIntoActual, todayISO.
  apply preserves_bind; [apply ensureActualReady_preserves | intros _].
  apply keeps_preserves. step_cache.
Qed.

Lemma ingest_preserves (cfg : Config) (svc : Services) (body : option Json) :
  Preserves readyHasAccounts (ingest cfg svc body).
Proof.
  unfold ingest. apply preserves_tryCatch.
  - destruct (getOptional body "sms") as [[| | | sms | |]|];
      try (apply keeps_preserves, keeps_ret).
    destruct (truthy sms); [|apply keeps_preserves, keeps_ret].
    apply preserves_bind; [apply extract_preserves | intros parsed].
    destruct (amount parsed) as [x|]; [|apply keeps_preserves, keeps_ret].
    apply preserves_bind; [apply importIntoActual_preserves | intros imported].
    apply keeps_preserves, keeps_ret.
  - intros e. apply keeps_preserves, keeps_ret.
Qed.

Lemma serve_preserves (cfg : Config) (svc : Services) (bodies : list (option Json))
  (st : State) :
  readyHasAccounts (cache st) -> readyHasAccounts (cache (serve cfg svc bodies st)).
Proof.
  revert st. induction bodies as [|body more IH]; intros st H; simpl; [exact H|].
  apply IH. now apply ingest_preserves.
Qed.

(** ** Calls of [ensureActualReady] that overlap *)

Ltac next_turn :=
  cbn [runAlone resume await enterCatch request cache calls fst snd
       actualAccounts actualReady actualCategories].

(** A call that takes its turns with no other call between them ends as
    [ensureActualReady] does: seven turns take it through its six [await]s. *)
Lemma runAlone_ensureActualReady (cfg : Config) (svc : Services) (st : State) :
  runAlone cfg svc 7 NotStarted st
  = (Finished (fst (ensureActualReady cfg svc st)),
     snd (ensureActualReady cfg svc st)).
Proof.
  unfold ensureActualReady, ensureDirExists, initializeCatalog, resetCatalog,
    tryCatch, bind, getCache, putCache, raise, ret, ok, throw.
  next_turn.
  destruct (isReady (cache st)); [reflexivity|]. next_turn.
  destruct (on_mkdir svc _) as [e|[]]; next_turn; [reflexivity|].
  destruct (on_init svc _) as [e|[]]; next_turn.
  { destruct (on_shutdown svc _); reflexivity. }
  destruct (on_downloadBudget svc _) as [e|[]]; next_turn.
  { destruct (on_shutdown svc _); reflexivity. }
  destruct (on_getAccounts svc _) as [e|accounts]; next_turn.
  { destruct (on_shutdown svc _); reflexivity. }
  destruct (List.length _ =? 0)%nat; next_turn.
  { destruct (on_shutdown svc _); reflexivity. }
  destruct (on_getCategories svc _) as [e|categories]; next_turn.
  { destruct (on_shutdown svc _); reflexivity. }
  reflexivity.
Qed.

Lemma matchAccount_nil (label : option string) (sms : string) :
  matchAccount [] label sms = None.
Proof.
  unfold matchAccount, partialStage. cbn [find].
  assert (Hdigits : forall groups, digitFallback [] groups = None).
  { induction groups as [|g more IH]; [reflexivity | exact IH]. }
  destruct label as [n|]; [destruct (truthy n)|]; apply Hdigits.
Qed.

Lemma empty_list_is_not_ready (c : Cache) :
  actualAccounts c = [] -> isReady c = false.
Proof.
  intros H. unfold isReady. rewrite H. apply andb_false_r.
Qed.

(** C10, for calls of [ensureActualReady] that do not overlap.  A ready
    cache holds at least one account: this is true of the cache the process
    starts with, every call of [ensureActualReady] and every request that
    runs from its beginning to its end keeps it, so it is true after any
    sequence of such requests.  [ensureActualReady] returns normally only
    with a ready cache that holds an account, and [importIntoActual] matches
    against the accounts of that cache.  When the filter for open accounts
    leaves none, the initialization fails with the message that no active
    account was found and the cache is left uninitialized.  A call that is
    resumed at each of its [await]s with no other call in between ends as
    [ensureActualReady] does; and a cache without accounts, whatever its
    flag, does not pass the guard of [ensureActualReady]. *)
Theorem ready_cache_has_accounts :
  readyHasAccounts uninitialized
  /\ (forall cfg svc st,
         readyHasAccounts (cache st) ->
         readyHasAccounts (cache (snd (ensureActualReady cfg svc st))))
  /\ (forall cfg svc body st,
         readyHasAccounts (cache st) ->
         readyHasAccounts (cache (snd (ingest cfg svc body st))))
  /\ (forall cfg svc bodies,
         readyHasAccounts (cache (serve cfg svc bodies startState)))
  /\ (forall cfg svc st st',
         ensureActualReady cfg svc st = (inr tt, st') ->
         actualReady (cache st') = true /\ actualAccounts (cache st') <> [])
  /\ (forall cfg svc sms amount description date accountName categoryName st st',
         ensureActualReady cfg svc st = (inr tt, st') ->
         actualAccounts (cache st') <> []
         /\ (matchAccount (actualAccounts (cache st')) accountName sms = None ->
             importIntoActual cfg svc sms amount description date accountName
                              categoryName st
             = (inl (Error (matchErrorMessage accountName
                                              (actualAccounts (cache st')))), st')))
  /\ (forall cfg svc st accounts,
         isReady (cache st) = false ->
         on_mkdir svc (logMkdir cfg st) = inr tt ->
         on_init svc (logInit cfg st) = inr tt ->
         on_downloadBudget svc (logDownload cfg st) = inr tt ->
         on_getAccounts svc (logAccounts cfg st) = inr accounts ->
         openAccounts accounts = [] ->
         exists st',
           ensureActualReady cfg svc st = (inl (Error noActiveAccountsMessage), st')
           /\ cache st' = uninitialized)
  /\ (forall cfg svc st,
         runAlone cfg svc 7 NotStarted st
         = (Finished (fst (ensureActualReady cfg svc st)),
            snd (ensureActualReady cfg svc st)))
  /\ (forall c, actualAccounts c = [] -> isReady c = false).
Proof.
  split; [|split; [|split; [|split; [|split; [|split; [|split; [|split]]]]]]].
  - intros H. discriminate.
  - intros cfg svc st. apply ensureActualReady_preserves.
  - intros cfg svc body st. apply ingest_preserves.
  - intros cfg svc bodies. apply serve_preserves. intros H. discriminate.
  - intros cfg svc st st' H.
    pose proof (ensureActualReady_outcome cfg svc st) as Hout. rewrite H in Hout.
    split; [|now apply isReady_accounts].
    unfold isReady in Hout. now apply andb_true_iff in Hout.
  - intros cfg svc sms amount description date accountName categoryName st st' H.
    pose proof (ensureActualReady_outcome cfg svc st) as Hout. rewrite H in Hout.
    split; [now apply isReady_accounts|].
    intros Hnone. unfold importIntoActual, bind. rewrite H.
    unfold getCache, ok. simpl. now rewrite Hnone.
  - intros cfg svc st accounts Hready Hmkdir Hinit Hdownload Haccounts Hactive.
    destruct (ensureActualReady_steps cfg svc st Hready Hmkdir) as [_ H1].
    destruct (H1 Hinit) as [_ H2]. destruct (H2 Hdownload) as [_ H3].
    destruct (H3 accounts Haccounts) as [H4 _].
    eexists. split; [exact (H4 Hactive) | reflexivity].
  - exact runAlone_ensureActualReady.
  - exact empty_list_is_not_ready.
Qed.

Lemma ready_cache_has_accounts_witness :
  (actualReady
     (cache (snd (ensureActualReady exampleConfig
                    (steadyServices exampleCatalog nullReply) startState))) = true
   /\ actualAccounts
        (cache (snd (ensureActualReady exampleConfig
                       (steadyServices exampleCatalog nullReply) startState))) <> [])
  /\
  (exists st',
      ensureActualReady exampleConfig
        (steadyServices [mkAccount "a0" "Old card" true] nullReply) startState
      = (inl (Error noActiveAccountsMessage), st')
      /\ cache st' = uninitialized)
  /\
  runAlone exampleConfig (singleSessionServices exampleCatalog) 7 NotStarted startState
  = (Finished (ok tt),
     mkState (mkCache true exampleCatalog [])
             [Mkdir "/tmp/actual-data";
              Init "/tmp/actual-data" "http://actual:5006" "secret";
              DownloadBudget "budget-1" None; GetAccounts; GetCategories]).
Proof.
  destruct ready_cache_has_accounts as [_ [_ [_ [_ [Hready [_ [Hnone [Halone _]]]]]]]].
  split; [|split].
  - apply (Hready exampleConfig (steadyServices exampleCatalog nullReply) startState).
    reflexivity.
  - apply (Hnone exampleConfig (steadyServices [mkAccount "a0" "Old card" true] nullReply)
                 startState [mkAccount "a0" "Old card" true]); reflexivity.
  - rewrite (Halone exampleConfig (singleSessionServices exampleCatalog) startState).
    reflexivity.
Defined.

(** C10 fails when two calls of [ensureActualReady] overlap.  The first
    request has stored the open accounts and waits for the categories; a
    second request arrives, finds the flag still unset, starts its own
    initialization, is refused by the ledger, and its [catch] block empties
    the lists; the first call then resumes and sets the flag.  It ends
    normally with [actualReady = true] and no account: the cache is ready
    and its list empty, and the matching that follows finds no candidate,
    whatever the label and the message.  The guard of the next call does
    not take that cache for a ready one. *)
Lemma overlapping_initializations_break_ready :
  let run := interleave exampleConfig (singleSessionServices exampleCatalog)
                        overlappingSchedule [NotStarted; NotStarted] startState in
  fst run = [Finished (ok tt); Finished (throw (Error "connect ECONNREFUSED"))]
  /\ cache (snd run) = mkCache true [] []
  /\ ~ readyHasAccounts (cache (snd run))
  /\ (forall label sms, matchAccount (actualAccounts (cache (snd run))) label sms = None)
  /\ isReady (cache (snd run)) = false
  /\ calls (snd run)
     = [Mkdir "/tmp/actual-data";
        Init "/tmp/actual-data" "http://actual:5006" "secret";
        DownloadBudget "budget-1" None;
        GetAccounts;
        GetCategories;
        Mkdir "/tmp/actual-data";
        Init "/tmp/actual-data" "http://actual:5006" "secret";
        Shutdown].
Proof.
  cbv zeta.
  assert (Hrun :
    interleave exampleConfig (singleSessionServices exampleCatalog)
               overlappingSchedule [NotStarted; NotStarted] startState
    = ([Finished (ok tt); Finished (throw (Error "connect ECONNREFUSED"))],
       mkState (mkCache true [] [])
               [Mkdir "/tmp/actual-data";
                Init "/tmp/actual-data" "http://actual:5006" "secret";
                DownloadBudget "budget-1" None;
                GetAccounts;
                GetCategories;
                Mkdir "/tmp/actual-data";
                Init "/tmp/actual-data" "http://actual:5006" "secret";
                Shutdown])) by (vm_compute; reflexivity).
  rewrite Hrun. cbn [fst snd cache calls actualAccounts].
  split; [reflexivity|]. split; [reflexivity|].
  split; [intros H; now apply H|].
  split; [intros label sms; apply matchAccount_nil|].
  split; reflexivity.
Qed.

(** C2.  When the validated extraction of a request has a null amount, the
    handler answers that the request is ignored, with that extraction, and
    ends in the state reached by the validation: [importIntoActual], the only
    place where accounts and categories are matched and the transaction is
    built and imported, is not entered; and the calls made for the request
    include neither an import nor the clock read of the transaction
    builder. *)
Theorem null_amount_is_ignored
  (cfg : Config) (svc : Services) (body : option Json) (sms : string)
  (st st1 : State) (parsed : Parsed) :
  getOptional body "sms" = Some (JString sms) ->
  truthy sms = true ->
  extract cfg svc sms st = (inr parsed, st1) ->
  amount parsed = None ->
  ingest cfg svc body st = (inr (Ignored parsed), st1)
  /\ exists new,
       calls st1 = (calls st ++ new)%list /\ forallb notImport new = true.
Proof.
  intros Hsms Htruthy Hextract Hamount. split.
  - unfold ingest, tryCatch, bind. rewrite Hsms, Htruthy, Hextract, Hamount.
    reflexivity.
  - destruct (extract_calls cfg svc sms st) as [new [Hlog Hnew]].
    rewrite Hextract in Hlog. now exists new.
Qed.

Lemma null_amount_is_ignored_witness :
  ingest exampleConfig (steadyServices exampleCatalog nullReply) otpRequest startState
  = (inr (Ignored allNull),
     snd (extract exampleConfig (steadyServices exampleCatalog nullReply)
                  "Your OTP is 482913. Do not share it." startState))
  /\ exists new,
       calls (snd (extract exampleConfig (steadyServices exampleCatalog nullReply)
                           "Your OTP is 482913. Do not share it." startState))
       = (calls startState ++ new)%list
       /\ forallb notImport new = true.
Proof.
  apply (null_amount_is_ignored exampleConfig
           (steadyServices exampleCatalog nullReply) otpRequest
           "Your OTP is 482913. Do not share it." startState).
  - reflexivity.
  - reflexivity.
  - vm_compute. reflexivity.
  - reflexivity.
Defined.

(** For contrast, an amount that is a number takes the request through the
    matcher and the builder to the import, the last call of the log. *)
Example debit_is_imported :
  let run := ingest exampleConfig (steadyServices exampleCatalog fiveKeyReply)
                    debitRequest startState in
  let built := mkTransaction "a1" "2024-05-01" (-50000)%float (Some "Amazon") None
                 "SMS: Amazon" "sms:db861ea2480f7a68ca8e254503fa651e" false in
  fst run
  = inr (Accepted (mkParsed (Some (-500)%float) (Some "Amazon") (Some "2024-05-01")
                            (Some "HSBC ****0001") (Some "Shopping"))
                  (mkImported "2024-05-01" built JNull))
  /\ last (calls (snd run)) GetAccounts = ImportTransactions "a1" [built].
Proof. vm_compute. split; reflexivity. Qed.

(* ================================================================== *)
(** * Further properties *)
(* ================================================================== *)

(** ** The matchers *)

Lemma digitFallback_member (accounts : list Account) (groups : list string)
  (a : Account) :
  digitFallback accounts groups = Some a ->
  In a accounts /\ exists d, In d groups /\ nameHasDigits d a = true.
Proof.
  induction groups as [|d groups IH]; simpl; [discriminate|].
  destruct (find (nameHasDigits d) accounts) as [b|] eqn:E.
  - intros H; injection H as ->. apply find_some in E. destruct E as [Hin Hd].
    split; [exact Hin|]. exists d. split; [now left | exact Hd].
  - intros H. destruct (IH H) as [Hin [d' [Hd' Ha]]].
    split; [exact Hin|]. exists d'. split; [now right | exact Ha].
Qed.

Lemma digitFallback_nothing (accounts : list Account) (groups : list string) :
  digitFallback accounts groups = None ->
  forall d b, In d groups -> In b accounts -> nameHasDigits d b = false.
Proof.
  induction groups as [|d groups IH]; simpl; [intros _ ? ? []|].
  destruct (find (nameHasDigits d) accounts) as [b|] eqn:E; [discriminate|].
  intros H d' b [<- | Hd'] Hb.
  - exact (find_none _ _ E b Hb).
  - now apply IH.
Qed.

Lemma digitFallback_fails (accounts : list Account) (groups : list string) :
  (forall d b, In d groups -> In b accounts -> nameHasDigits d b = false) ->
  digitFallback accounts groups = None.
Proof.
  induction groups as [|d groups IH]; simpl; intros H; [reflexivity|].
  rewrite (find_nothing (nameHasDigits d) accounts).
  - apply IH. intros d' b Hd' Hb. apply H; [now right | exact Hb].
  - intros b Hb. apply H; [now left | exact Hb].
Qed.

Lemma matchAccount_member (accounts : list Account) (label : option string)
  (sms : string) (a : Account) :
  matchAccount accounts label sms = Some a ->
  In a accounts
  /\ (exactName label a = true
      \/ (exists n, label = Some n /\ n <> EmptyString /\ partialName n a = true)
      \/ (exists d, In d (extractDigits sms) /\ includes (a_name a) d = true)).
Proof.
  unfold matchAccount.
  destruct (find (exactName label) accounts) as [b|] eqn:E1.
  { intros H; injection H as ->. apply find_some in E1. destruct E1 as [Hin Hp].
    split; [exact Hin | now left]. }
  destruct (partialStage accounts label) as [b|] eqn:E2.
  { intros H; injection H as ->. unfold partialStage in E2.
    destruct label as [n|]; [|discriminate].
    destruct n as [|c n]; [discriminate|]. simpl in E2.
    apply find_some in E2. destruct E2 as [Hin Hp].
    split; [exact Hin|]. right. left. exists (String c n).
    repeat split; [discriminate | exact Hp]. }
  intros H. apply digitFallback_member in H. destruct H as [Hin [d [Hd Ha]]].
  split; [exact Hin|]. right. right. now exists d.
Qed.

(** X1.  For a label and catalog names that are ASCII text, [matchAccount]
    never invents an account: what it returns is an account of the catalog
    whose name equals the label without regard to case, or passes the
    substring test of a label that is neither null nor empty, or contains a
    group of four digits of the message.  It returns nothing exactly when no
    account of the catalog does any of the three. *)
Theorem matchAccount_sound_and_complete
  (accounts : list Account) (label : option string) (sms : string) :
  asciiLabel label ->
  asciiNames accounts ->
  (forall a,
      matchAccount accounts label sms = Some a ->
      In a accounts
      /\ ((exists n, label = Some n /\ toLowerCase (a_name a) = toLowerCase n)
          \/ (exists n, label = Some n /\ n <> EmptyString /\ PartialMatch n a)
          \/ (exists d, In d (extractDigits sms) /\ includes (a_name a) d = true)))
  /\
  (matchAccount accounts label sms = None <->
   (forall n a, label = Some n -> In a accounts ->
                toLowerCase (a_name a) <> toLowerCase n)
   /\ (forall n a, label = Some n -> n <> EmptyString -> In a accounts ->
                   ~ PartialMatch n a)
   /\ (forall d a, In d (extractDigits sms) -> In a accounts ->
                   includes (a_name a) d = false)).
Proof.
  intros _ _. split.
  { intros a H. apply matchAccount_member in H.
    destruct H as [Hin [H | [[n [Hn [Hne H]]] | H]]]; split; try exact Hin.
    - left. destruct label as [n|]; [|discriminate]. exists n.
      split; [reflexivity | now apply exactName_true].
    - right. left. exists n. repeat split; try assumption.
      now apply partialName_spec.
    - now right; right. }
  unfold matchAccount. split.
  - destruct (find (exactName label) accounts) as [b|] eqn:E1; [discriminate|].
    destruct (partialStage accounts label) as [b|] eqn:E2; [discriminate|].
    intros H. split; [|split].
    + intros n a -> Ha. apply exactName_false. exact (find_none _ _ E1 a Ha).
    + intros n a -> Hn Ha Hm. apply partialName_spec in Hm. unfold partialStage in E2.
      destruct n as [|c n]; [congruence|]. simpl in E2.
      rewrite (find_none _ _ E2 a Ha) in Hm. discriminate.
    + intros d a Hd Ha. exact (digitFallback_nothing _ _ H d a Hd Ha).
  - intros [H1 [H2 H3]].
    assert (E1 : find (exactName label) accounts = None).
    { apply find_nothing. intros a Ha. destruct label as [n|]; [|reflexivity].
      apply exactName_false. now apply H1. }
    assert (E2 : partialStage accounts label = None).
    { unfold partialStage. destruct label as [n|]; [|reflexivity].
      destruct n as [|c n]; [reflexivity|]. simpl. apply find_nothing.
      intros a Ha. apply no_PartialMatch.
      apply (H2 (String c n) a eq_refl); [discriminate | exact Ha]. }
    rewrite E1, E2. now apply digitFallback_fails.
Qed.

Lemma partialCategory_spec (label : string) (c : Category) :
  partialCategory (normalized label) c = true <-> CategoryMatch label c.
Proof.
  unfold partialCategory, CategoryMatch, normalized.
  now rewrite orb_true_iff, !includes_spec.
Qed.

Lemma exactCategory_true (label : string) (c : Category) :
  exactCategory label c = true <-> toLowerCase (c_name c) = toLowerCase label.
Proof. unfold exactCategory. apply String.eqb_eq. Qed.

Lemma matchCategory_unfold (categories : list Category) (c : ascii) (n : string) :
  matchCategory categories (Some (String c n))
  = match find (exactCategory (String c n)) categories with
    | Some category => Some category
    | None => find (partialCategory (normalized (String c n))) categories
    end.
Proof. reflexivity. Qed.

Lemma matchCategory_member (categories : list Category) (label : option string)
  (c : Category) :
  matchCategory categories label = Some c -> In c categories.
Proof.
  destruct label as [[|ch n]|]; try discriminate. rewrite matchCategory_unfold.
  destruct (find (exactCategory (String ch n)) categories) as [k|] eqn:E.
  - intros H; injection H as ->. now apply find_some in E.
  - intros H. now apply find_some in H.
Qed.

Lemma no_exactCategory (categories : list Category) (label : string) :
  (forall b, In b categories -> toLowerCase (c_name b) <> toLowerCase label) ->
  find (exactCategory label) categories = None.
Proof.
  intros H. apply find_nothing. intros b Hb. unfold exactCategory.
  apply String.eqb_neq. auto.
Qed.

Lemma no_partialCategory (label : string) (b : Category) :
  ~ CategoryMatch label b -> partialCategory (normalized label) b = false.
Proof.
  intros H. destruct (partialCategory (normalized label) b) eqn:Hp; [|reflexivity].
  exfalso. apply H. now apply partialCategory_spec.
Qed.

(** X2.  Category resolution.  A null or empty label resolves to nothing,
    and so does any label on an empty catalog.  What is returned is a
    category of the catalog.  The first category whose name equals the label
    without regard to case is returned even when an earlier category passes
    the substring test.  When no name equals the label, the first category is
    returned for which the normalized name (lower case, only letters, digits,
    underscores and white space kept) contains the normalized label or the
    normalized label contains the normalized name; when there is none,
    nothing is returned. *)
Theorem matchCategory_spec (categories : list Category) :
  matchCategory categories None = None
  /\ matchCategory categories (Some EmptyString) = None
  /\ (forall label, matchCategory [] label = None)
  /\ (forall label c, matchCategory categories label = Some c -> In c categories)
  /\ (forall label before c after,
         label <> EmptyString ->
         categories = (before ++ c :: after)%list ->
         toLowerCase (c_name c) = toLowerCase label ->
         (forall b, In b before -> toLowerCase (c_name b) <> toLowerCase label) ->
         matchCategory categories (Some label) = Some c)
  /\ (forall label,
         label <> EmptyString ->
         (forall b, In b categories -> toLowerCase (c_name b) <> toLowerCase label) ->
         (forall before c after,
             categories = (before ++ c :: after)%list ->
             CategoryMatch label c ->
             (forall b, In b before -> ~ CategoryMatch label b) ->
             matchCategory categories (Some label) = Some c)
         /\ ((forall b, In b categories -> ~ CategoryMatch label b) ->
             matchCategory categories (Some label) = None)).
Proof.
  split; [reflexivity|]. split; [reflexivity|]. split.
  { intros [[|c n]|]; reflexivity. }
  split; [|split].
  - intros label c. apply matchCategory_member.
  - intros label before c after Hlabel -> Hc Hbefore.
    destruct label as [|ch n]; [congruence|]. rewrite matchCategory_unfold.
    rewrite (find_first (exactCategory (String ch n)) before c after); [reflexivity| |].
    + intros b Hb. unfold exactCategory. apply String.eqb_neq. auto.
    + now apply exactCategory_true.
  - intros label Hlabel Hnone.
    destruct label as [|ch n]; [congruence|].
    pose proof (no_exactCategory categories (String ch n) Hnone) as E.
    split.
    + intros before c after -> Hc Hbefore. rewrite matchCategory_unfold, E.
      apply find_first.
      * intros b Hb. apply no_partialCategory. auto.
      * now apply partialCategory_spec.
    + intros Hno. rewrite matchCategory_unfold, E. apply find_nothing.
      intros b Hb. apply no_partialCategory. auto.
Qed.

Lemma matchCategory_spec_witness :
  matchCategory [mkCategory "k1" "Online Shopping" false; mkCategory "k2" "Shopping" false]
                (Some "shopping")
  = Some (mkCategory "k2" "Shopping" false)
  /\ matchCategory [mkCategory "k3" "Bills & Utilities" false; mkCategory "k4" "Fuel" false]
                   (Some "Utilities!")
     = Some (mkCategory "k3" "Bills & Utilities" false)
  /\ matchCategory [mkCategory "k5" "Groceries" false] (Some "Shopping") = None.
Proof.
  split; [|split].
  - destruct (matchCategory_spec
                [mkCategory "k1" "Online Shopping" false;
                 mkCategory "k2" "Shopping" false]) as [_ [_ [_ [_ [H _]]]]].
    apply (H "shopping" [mkCategory "k1" "Online Shopping" false]
             (mkCategory "k2" "Shopping" false) []);
      [discriminate | reflexivity | reflexivity |].
    intros b [<- | []]. vm_compute. discriminate.
  - destruct (matchCategory_spec
                [mkCategory "k3" "Bills & Utilities" false;
                 mkCategory "k4" "Fuel" false]) as [_ [_ [_ [_ [_ H]]]]].
    destruct (H "Utilities!") as [Hfirst _]; [discriminate | |].
    { intros b [<- | [<- | []]]; vm_compute; discriminate. }
    apply (Hfirst [] (mkCategory "k3" "Bills & Utilities" false)
                  [mkCategory "k4" "Fuel" false]); [reflexivity | | intros ? []].
    apply partialCategory_spec. reflexivity.
  - destruct (matchCategory_spec [mkCategory "k5" "Groceries" false])
      as [_ [_ [_ [_ [_ H]]]]].
    destruct (H "Shopping") as [_ Hnone]; [discriminate | |].
    { intros b [<- | []]. vm_compute. discriminate. }
    apply Hnone. intros b [<- | []] Hm. apply partialCategory_spec in Hm.
    vm_compute in Hm. discriminate.
Defined.

Lemma includes_empty (s : string) : includes s EmptyString = true.
Proof. apply includes_spec. exists EmptyString, s. reflexivity. Qed.

(** X3.  Category resolution on text without letters or digits.  A label
    that is not empty but normalizes to the empty string (punctuation only)
    and equals no name resolves to the first category of the catalog,
    whatever that is; and a category whose name normalizes to the empty
    string is returned for every label that no name equals and no earlier
    category matches. *)
Theorem matchCategory_empty_normal_form
  (categories : list Category) (label : string) :
  label <> EmptyString ->
  (forall b, In b categories -> toLowerCase (c_name b) <> toLowerCase label) ->
  (normalized label = EmptyString ->
   matchCategory categories (Some label) = hd_error categories)
  /\
  (forall before c after,
      categories = (before ++ c :: after)%list ->
      normalized (c_name c) = EmptyString ->
      (forall b, In b before -> ~ CategoryMatch label b) ->
      matchCategory categories (Some label) = Some c).
Proof.
  intros Hlabel Hnone. destruct label as [|ch n]; [congruence|].
  pose proof (no_exactCategory categories (String ch n) Hnone) as E.
  split.
  - intros Hnorm. rewrite matchCategory_unfold, E, Hnorm.
    destruct categories as [|c rest]; [reflexivity|]. simpl.
    unfold partialCategory at 1. now rewrite includes_empty.
  - intros before c after -> Hc Hbefore. rewrite matchCategory_unfold, E.
    apply find_first.
    + intros b Hb. apply no_partialCategory. auto.
    + unfold partialCategory. fold (normalized (c_name c)). rewrite Hc.
      now rewrite includes_empty, orb_true_r.
Qed.

Lemma matchCategory_empty_normal_form_witness :
  matchCategory [mkCategory "k5" "Groceries" false; mkCategory "k6" "Fuel" false]
                (Some "???")
  = Some (mkCategory "k5" "Groceries" false)
  /\ matchCategory [mkCategory "k7" "Rent" false; mkCategory "k8" "***" false]
                   (Some "Shopping")
     = Some (mkCategory "k8" "***" false).
Proof.
  split.
  - assert (H := matchCategory_empty_normal_form
                   [mkCategory "k5" "Groceries" false; mkCategory "k6" "Fuel" false]
                   "???").
    destruct H as [H _]; [discriminate | |].
    { intros b [<- | [<- | []]]; vm_compute; discriminate. }
    exact (H eq_refl).
  - assert (H := matchCategory_empty_normal_form
                   [mkCategory "k7" "Rent" false; mkCategory "k8" "***" false]
                   "Shopping").
    destruct H as [_ H]; [discriminate | |].
    { intros b [<- | [<- | []]]; vm_compute; discriminate. }
    apply (H [mkCategory "k7" "Rent" false] (mkCategory "k8" "***" false) []);
      [reflexivity | reflexivity |].
    intros b [<- | []] Hm. apply partialCategory_spec in Hm.
    vm_compute in Hm. discriminate.
Defined.

Lemma matchAccount_sound_and_complete_witness :
  matchAccount exampleCatalog (Some "Axis Bank") "Paid Rs.20 via UPI" = None.
Proof.
  destruct (matchAccount_sound_and_complete exampleCatalog (Some "Axis Bank")
              "Paid Rs.20 via UPI") as [_ Hnone].
  - intros n H. injection H as <-. reflexivity.
  - intros b [<- | [<- | []]]; reflexivity.
  - apply Hnone. split; [|split].
    + intros n a Hn Ha. injection Hn as <-.
      destruct Ha as [<- | [<- | []]]; vm_compute; discriminate.
    + intros n a Hn _ Ha Hm. injection Hn as <-. apply partialName_spec in Hm.
      destruct Ha as [<- | [<- | []]]; vm_compute in Hm; discriminate.
    + intros d a [].
Defined.

(** ** The validator *)

Lemma numberOrNull_spec (field : option Json) (x : option float) :
  numberOrNull field = Some x <-> field = Some (nullableNumber x).
Proof.
  split.
  - destruct field as [[]|]; simpl; try discriminate; intros H; injection H as <-;
      reflexivity.
  - intros ->. now destruct x.
Qed.

Lemma stringOrNull_spec (field : option Json) (x : option string) :
  stringOrNull field = Some x <-> field = Some (nullable x).
Proof.
  split.
  - destruct field as [[]|]; simpl; try discriminate; intros H; injection H as <-;
      reflexivity.
  - intros ->. now destruct x.
Qed.

Lemma validateParsed_accepts (v : Json) (p : Parsed) :
  validateParsed v = ok p <->
  isObject v = true
  /\ getProperty v "amount" = Some (nullableNumber (amount p))
  /\ getProperty v "description" = Some (nullable (description p))
  /\ getProperty v "date" = Some (nullable (date p))
  /\ getProperty v "account" = Some (nullable (account p))
  /\ getProperty v "category" = Some (nullable (category p)).
Proof.
  unfold validateParsed, ok, throw. split.
  - destruct (isObject v); simpl; [|discriminate].
    destruct (numberOrNull _) as [a|] eqn:Ea; [|discriminate].
    destruct (stringOrNull (getProperty v "description")) as [d|] eqn:Ed; [|discriminate].
    destruct (stringOrNull (getProperty v "date")) as [t|] eqn:Et; [|discriminate].
    destruct (stringOrNull (getProperty v "account")) as [c|] eqn:Ec; [|discriminate].
    destruct (stringOrNull (getProperty v "category")) as [k|] eqn:Ek; [|discriminate].
    intros H. injection H as <-. simpl.
    apply numberOrNull_spec in Ea.
    apply stringOrNull_spec in Ed, Et, Ec, Ek. auto 10.
  - intros [Ho [Ea [Ed [Et [Ec Ek]]]]]. rewrite Ho. simpl.
    apply numberOrNull_spec in Ea. apply stringOrNull_spec in Ed, Et, Ec, Ek.
    rewrite Ea, Ed, Et, Ec, Ek. now destruct p.
Qed.

Lemma validateParsed_throws (v : Json) (e : Thrown) :
  validateParsed v = throw e -> exists m, In m validationMessages /\ e = Error m.
Proof.
  unfold validateParsed, ok, throw, validationMessages.
  destruct (isObject v); simpl.
  2:{ intros H. injection H as <-. eexists. split; [|reflexivity]. simpl. auto. }
  destruct (numberOrNull _).
  2:{ intros H. injection H as <-. eexists. split; [|reflexivity]. simpl. auto. }
  destruct (stringOrNull (getProperty v "description")).
  2:{ intros H. injection H as <-. eexists. split; [|reflexivity]. simpl. auto. }
  destruct (stringOrNull (getProperty v "date")).
  2:{ intros H. injection H as <-. eexists. split; [|reflexivity]. simpl. auto. }
  destruct (stringOrNull (getProperty v "account")).
  2:{ intros H. injection H as <-. eexists. split; [|reflexivity]. simpl. auto 7. }
  destruct (stringOrNull (getProperty v "category")); [discriminate|].
  intros H. injection H as <-. eexists. split; [|reflexivity]. simpl. auto 8.
Qed.

Lemma lookupLast_other (name key : string) (v : Json) (members : list (string * Json)) :
  key <> name ->
  lookupLast name ((key, v) :: members) = lookupLast name members.
Proof.
  intros H. simpl. destruct (lookupLast name members); [reflexivity|].
  apply String.eqb_neq in H. now rewrite H.
Qed.

(** X4.  The validator.  The object of an extraction passes and is returned
    field by field.  A value passes exactly when it is an object (or an
    array) that has each of the five properties, the amount null or a
    number, the other four null or a string: a missing property is refused
    like one of the wrong type, and a number written as a string is not
    converted.  A refusal is an [Error] with one of the six messages of the
    function, never a syntax error; an array is refused for its amount, a
    string, a number, a boolean or null for not being an object.  A property
    with any other name changes nothing. *)
Theorem validateParsed_spec :
  (forall p, validateParsed (parsedToJson p) = ok p)
  /\ (forall v p,
         validateParsed v = ok p <->
         isObject v = true
         /\ getProperty v "amount" = Some (nullableNumber (amount p))
         /\ getProperty v "description" = Some (nullable (description p))
         /\ getProperty v "date" = Some (nullable (date p))
         /\ getProperty v "account" = Some (nullable (account p))
         /\ getProperty v "category" = Some (nullable (category p)))
  /\ (forall v e, validateParsed v = throw e ->
                  exists m, In m validationMessages /\ e = Error m)
  /\ (forall members name,
         In name extractionFields ->
         lookupLast name members = None ->
         exists m, validateParsed (JObject members) = throw (Error m))
  /\ (forall members s,
         lookupLast "amount" members = Some (JString s) ->
         validateParsed (JObject members)
         = throw (Error "amount must be number or null"))
  /\ (forall items,
         validateParsed (JArray items) = throw (Error "amount must be number or null"))
  /\ (forall v, isObject v = false ->
                validateParsed v = throw (Error "LLM output is not an object"))
  /\ (forall members key extra,
         ~ In key extractionFields ->
         validateParsed (JObject ((key, extra) :: members))
         = validateParsed (JObject members)).
Proof.
  split; [|split; [|split; [|split; [|split; [|split; [|split]]]]]].
  - intros p. apply validateParsed_accepts.
    repeat split; reflexivity.
  - apply validateParsed_accepts.
  - apply validateParsed_throws.
  - intros members name Hname Hnone.
    destruct (validateParsed (JObject members)) as [e | p] eqn:E.
    + destruct (validateParsed_throws _ _ E) as [m [_ ->]]. now exists m.
    + apply validateParsed_accepts in E. simpl in E.
      destruct E as [_ [Ea [Ed [Et [Ec Ek]]]]].
      destruct Hname as [<- | [<- | [<- | [<- | [<- | []]]]]]; congruence.
  - intros members s H. unfold validateParsed. simpl. now rewrite H.
  - reflexivity.
  - intros v H. unfold validateParsed. now rewrite H.
  - intros members key extra Hkey. unfold validateParsed, getProperty.
    cbn [isObject negb].
    rewrite !lookupLast_other; [reflexivity | | | | |];
      intros ->; apply Hkey; simpl; auto 6.
Qed.

Lemma validateParsed_spec_witness :
  validateParsed (JObject [("amount", JString "500"); ("description", JNull);
                           ("date", JNull); ("account", JNull); ("category", JNull)])
  = throw (Error "amount must be number or null")
  /\ (exists m, validateParsed (JObject [("amount", JNumber 5); ("description", JNull);
                                         ("date", JNull); ("account", JNull)])
                = throw (Error m))
  /\ validateParsed (JObject (("confidence", JNumber 1) :: [("amount", JNull)]))
     = validateParsed (JObject [("amount", JNull)]).
Proof.
  destruct validateParsed_spec as [_ [_ [_ [Hmissing [Hstring [_ [_ Hextra]]]]]]].
  split; [|split].
  - apply (Hstring _ "500"). reflexivity.
  - apply (Hmissing _ "category"); [simpl; auto 6 | reflexivity].
  - apply Hextra. simpl. intros [H | [H | [H | [H | [H | []]]]]]; discriminate.
Defined.

(** ** The authentication middleware *)

Lemma replaceFirst_absent (p r s : string) :
  includes s p = false -> replaceFirst p r s = s.
Proof.
  induction s as [|c s IH]; rewrite includes_unfold; intros H;
    apply orb_false_iff in H; destruct H as [Hs Ht]; simpl.
  - destruct p; [discriminate | reflexivity].
  - change (match p with
            | EmptyString => true
            | String a p' => Ascii.eqb a c && startsWith s p'
            end) with (startsWith (String c s) p).
    rewrite Hs. now rewrite IH.
Qed.

Lemma sameToken_spec (token : option string) (T : string) :
  sameToken token T = true <-> token = Some T.
Proof.
  destruct token as [t|]; simpl; [|split; discriminate].
  rewrite String.eqb_eq. split; [now intros -> | now intros [= ->]].
Qed.

Lemma truthy_spec (s : string) : truthy s = true <-> s <> EmptyString.
Proof. destruct s; simpl; split; congruence. Qed.

Lemma tryCatch_responds {A : Type} (m : M A) (f : Thrown -> A) (st : State) :
  exists r, fst (tryCatch m (fun e => ret (f e)) st) = inr r.
Proof. unfold tryCatch. destruct (m st) as [[e | r] st']; simpl; eauto. Qed.

Lemma ingest_responds (cfg : Config) (svc : Services) (body : option Json)
  (st : State) :
  exists r, fst (ingest cfg svc body st) = inr r.
Proof. unfold ingest. apply tryCatch_responds. Qed.

(** X5.  The authentication middleware.  Without a configured token, or with
    an empty one, every request passes.  With a token [T], a request passes
    exactly when the token it presents is [T], character by character.  The
    presented token is the header [x-api-token] when that is sent and not
    empty, whatever the header [authorization] holds, and otherwise the
    header [authorization] without its first [Bearer ]: so [Bearer T]
    presents [T], a header without [Bearer ] presents itself, a request with
    neither header presents nothing and is refused, and a wrong
    [x-api-token] is refused even beside a right [authorization].  A refused
    request gets the reply [Unauthorized] and leaves the state, cache and
    call log, as it was; a request that passes gets the handler's
    response. *)
Theorem requireAuth_spec :
  (forall req, requireAuth None req = true /\ requireAuth (Some EmptyString) req = true)
  /\ (forall T req, T <> EmptyString ->
         (requireAuth (Some T) req = true <-> presentedToken req = Some T))
  /\ (forall x h, x <> EmptyString -> presentedToken (mkHeaders (Some x) h) = Some x)
  /\ (forall T, presentedToken (mkHeaders None (Some ("Bearer " ++ T))) = Some T
                /\ presentedToken (mkHeaders (Some EmptyString) (Some ("Bearer " ++ T)))
                   = Some T)
  /\ (forall h, includes h "Bearer " = false ->
                presentedToken (mkHeaders None (Some h)) = Some h)
  /\ (forall T, T <> EmptyString -> requireAuth (Some T) (mkHeaders None None) = false)
  /\ (forall T x h, T <> EmptyString -> x <> EmptyString -> x <> T ->
                    requireAuth (Some T) (mkHeaders (Some x) h) = false)
  /\ (forall cfg svc API_TOKEN req body st,
         requireAuth API_TOKEN req = false ->
         postIngest cfg svc API_TOKEN req body st = (inr Unauthorized, st))
  /\ (forall cfg svc API_TOKEN req body st,
         requireAuth API_TOKEN req = true ->
         exists r,
           fst (ingest cfg svc body st) = inr r
           /\ postIngest cfg svc API_TOKEN req body st
              = (inr (Handled r), snd (ingest cfg svc body st))).
Proof.
  split; [|split; [|split; [|split; [|split; [|split; [|split; [|split]]]]]]].
  - intros req. split; reflexivity.
  - intros T req HT. unfold requireAuth.
    apply truthy_spec in HT. rewrite HT. apply sameToken_spec.
  - intros x h Hx. unfold presentedToken, orElse. simpl.
    apply truthy_spec in Hx. now rewrite Hx.
  - intros T. split; destruct T; reflexivity.
  - intros h Hh. unfold presentedToken, orElse. simpl.
    now rewrite replaceFirst_absent.
  - intros T HT. unfold requireAuth. apply truthy_spec in HT. now rewrite HT.
  - intros T x h HT Hx HxT. unfold requireAuth, presentedToken, orElse. simpl.
    apply truthy_spec in HT, Hx. rewrite HT, Hx. simpl.
    now apply String.eqb_neq.
  - intros cfg svc API_TOKEN req body st H. unfold postIngest. now rewrite H.
  - intros cfg svc API_TOKEN req body st H.
    destruct (ingest_responds cfg svc body st) as [r Hr]. exists r.
    split; [exact Hr|]. unfold postIngest, bind, ret, ok. rewrite H.
    destruct (ingest cfg svc body st) as [[e | r'] st']; simpl in *;
      [discriminate | now injection Hr as ->].
Qed.

Lemma requireAuth_spec_witness :
  (requireAuth (Some "s3cret") (mkHeaders None (Some "Bearer s3cret")) = true
   <-> presentedToken (mkHeaders None (Some "Bearer s3cret")) = Some "s3cret")
  /\ requireAuth (Some "s3cret") (mkHeaders (Some "guess") (Some "Bearer s3cret")) = false
  /\ postIngest exampleConfig (steadyServices exampleCatalog nullReply) (Some "s3cret")
       (mkHeaders (Some "guess") None) otpRequest startState
     = (inr Unauthorized, startState).
Proof.
  destruct requireAuth_spec as [_ [Hiff [_ [_ [_ [_ [Hwrong [Hrefused _]]]]]]]].
  split; [|split].
  - apply Hiff. discriminate.
  - apply Hwrong; discriminate.
  - apply Hrefused. reflexivity.
Defined.

(** ** The handler, step by step *)

Arguments promptForSMS : simpl never.
Arguments buildTransaction : simpl never.

Lemma ollamaParse_run (cfg : Config) (svc : Services) (sms : string) (st : State) :
  ollamaParse cfg svc sms (actualAccounts (cache st)) (actualCategories (cache st)) st
  = (match on_fetch svc (calls st ++ [chatCall cfg sms (cache st)])%list with
     | inl e => inl e
     | inr res =>
         if res_ok res then
           match contentOfBody (res_text res) with
           | inl e => inl e
           | inr text => parseModelJsonFromText text
           end
         else inl (Error (statusMessage res))
     end,
     mkState (cache st) (calls st ++ [chatCall cfg sms (cache st)])%list).
Proof.
  unfold ollamaParse, ollamaChatText, bind, request, raise, lift, throw, chatCall,
    statusMessage.
  cbn [cache calls]. destruct (on_fetch svc _) as [e | res]; [reflexivity|].
  destruct (res_ok res); cbn [negb]; [|reflexivity].
  destruct (contentOfBody (res_text res)); reflexivity.
Qed.

Lemma extract_run (cfg : Config) (svc : Services) (sms : string) (st : State) :
  (forall e st1, ensureActualReady cfg svc st = (inl e, st1) ->
                 extract cfg svc sms st = (inl e, st1))
  /\
  (forall st1, ensureActualReady cfg svc st = (inr tt, st1) ->
     extract cfg svc sms st
     = (match on_fetch svc (calls st1 ++ [chatCall cfg sms (cache st1)])%list with
        | inl e => inl e
        | inr res =>
            if res_ok res then
              match contentOfBody (res_text res) with
              | inl e => inl e
              | inr text =>
                  match parseModelJsonFromText text with
                  | inl e => inl e
                  | inr raw => validateParsed raw
                  end
              end
            else inl (Error (statusMessage res))
        end,
        mkState (cache st1) (calls st1 ++ [chatCall cfg sms (cache st1)])%list)).
Proof.
  split.
  - intros e st1 H. unfold extract, bind. now rewrite H.
  - intros st1 H. unfold extract. unfold bind at 1. rewrite H.
    unfold bind at 1. unfold getCache at 1. unfold ok at 1.
    unfold bind. rewrite ollamaParse_run.
    destruct (on_fetch svc _) as [e | res]; [reflexivity|].
    destruct (res_ok res); [|reflexivity].
    destruct (contentOfBody (res_text res)) as [e | text]; [reflexivity|].
    destruct (parseModelJsonFromText text) as [e | raw]; reflexivity.
Qed.

Lemma extract_ready (cfg : Config) (svc : Services) (sms : string)
  (st st2 : State) (parsed : Parsed) :
  extract cfg svc sms st = (inr parsed, st2) ->
  exists st1,
    ensureActualReady cfg svc st = (inr tt, st1)
    /\ isReady (cache st1) = true
    /\ st2 = mkState (cache st1) (calls st1 ++ [chatCall cfg sms (cache st1)])%list.
Proof.
  intros H. destruct (extract_run cfg svc sms st) as [Hfail Hok].
  pose proof (ensureActualReady_outcome cfg svc st) as Hout.
  destruct (ensureActualReady cfg svc st) as [[e | []] st1] eqn:E.
  - rewrite (Hfail e st1 eq_refl) in H. discriminate.
  - exists st1. split; [reflexivity|]. split; [exact Hout|].
    rewrite (Hok st1 eq_refl) in H. now injection H.
Qed.

Lemma smsOf_spec (body : option Json) (sms : string) :
  smsOf body = Some sms <->
  getOptional body "sms" = Some (JString sms) /\ sms <> EmptyString.
Proof.
  unfold smsOf. split.
  - destruct (getOptional body "sms") as [[| | | s | |]|]; try discriminate.
    destruct s as [|c s]; [discriminate|]. simpl. intros H. injection H as <-.
    split; [reflexivity | discriminate].
  - intros [-> H]. apply truthy_spec in H. now rewrite H.
Qed.

(** The handler on a body without a message, and on one with a message. *)
Lemma ingest_run (cfg : Config) (svc : Services) (body : option Json) (st : State) :
  ingest cfg svc body st
  = match smsOf body with
    | None => (inr MissingSms, st)
    | Some sms =>
        match extract cfg svc sms st with
        | (inl e, st1) => (inr (Failed e), st1)
        | (inr parsed, st1) =>
            match amount parsed with
            | None => (inr (Ignored parsed), st1)
            | Some x =>
                match importIntoActual cfg svc sms x (description parsed)
                        (date parsed) (account parsed) (category parsed) st1 with
                | (inl e, st2) => (inr (Failed e), st2)
                | (inr imported, st2) => (inr (Accepted parsed imported), st2)
                end
            end
        end
    end.
Proof.
  unfold ingest, smsOf, tryCatch.
  destruct (getOptional body "sms") as [[| | | sms | |]|]; try reflexivity.
  destruct (truthy sms); [|reflexivity].
  unfold bind at 1. destruct (extract cfg svc sms st) as [[e | parsed] st1];
    [reflexivity|].
  destruct (amount parsed) as [x|]; [|reflexivity].
  unfold bind.
  destruct (importIntoActual cfg svc sms x _ _ _ _ st1) as [[e | imported] st2];
    reflexivity.
Qed.

Lemma importIntoActual_run (cfg : Config) (svc : Services) (sms : string)
  (x : float) (description date accountName categoryName : option string)
  (st : State) :
  isReady (cache st) = true ->
  importIntoActual cfg svc sms x description date accountName categoryName st
  = match matchAccount (actualAccounts (cache st)) accountName sms with
    | None =>
        (inl (Error (matchErrorMessage accountName (actualAccounts (cache st)))), st)
    | Some account =>
        let log := if keepsDate date then calls st
                   else (calls st ++ [Today (TIMEZONE cfg)])%list in
        let finalDate := if keepsDate date then orEmpty date else on_today svc log in
        let tx := buildTransaction (IMPORT_NOTES_PREFIX cfg) (a_id account)
                    (orNull (option_map c_id
                               (matchCategory (actualCategories (cache st))
                                              categoryName)))
                    sms finalDate x description in
        let log' := (log ++ [ImportTransactions (a_id account) [tx]])%list in
        (match on_importTransactions svc log' with
         | inl e => inl e
         | inr result => inr (mkImported finalDate tx result)
         end,
         mkState (cache st) log')
    end.
Proof.
  intros H. unfold importIntoActual. unfold bind at 1.
  rewrite (ensureActualReady_ready _ _ _ H).
  unfold bind at 1. unfold getCache at 1. unfold ok at 1.
  destruct (matchAccount _ accountName sms) as [account|]; [|reflexivity].
  unfold bind, todayISO, request, ret, ok.
  destruct (keepsDate date); cbn [cache calls];
    destruct (on_importTransactions svc _); reflexivity.
Qed.

(** ** The calls of a request *)

Lemma countCalls_app (p : Call -> bool) (a b : list Call) :
  countCalls p (a ++ b) = countCalls p a + countCalls p b.
Proof. unfold countCalls. now rewrite filter_app, length_app. Qed.

Lemma count_init_in_serving (c : Call) (l : list Call) :
  servesFromCache c = false -> forallb servesFromCache l = true ->
  countCalls (sameKind c) l = 0.
Proof.
  intros Hc. induction l as [|d l IH]; [reflexivity|]. simpl.
  rewrite andb_true_iff. intros [Hd Hl]. unfold countCalls in *. simpl.
  destruct (sameKind c d) eqn:E; [|now apply IH].
  destruct c, d; simpl in *; discriminate.
Qed.

Lemma count_serving_in_init (c : Call) (l : list Call) :
  servesFromCache c = true ->
  forallb (fun d => negb (servesFromCache d)) l = true ->
  countCalls (sameKind c) l = 0.
Proof.
  intros Hc. induction l as [|d l IH]; [reflexivity|]. simpl.
  rewrite andb_true_iff. intros [Hd Hl]. unfold countCalls in *. simpl.
  destruct (sameKind c d) eqn:E; [|now apply IH].
  destruct c, d; simpl in *; discriminate.
Qed.

Ltac close_log :=
  eexists; split;
  [ rewrite <- ?app_assoc; cbn [app]; reflexivity
  | split; [reflexivity
           | split; [intros c; destruct c; cbn; lia | intros; discriminate]] ].

(** The calls of [ensureActualReady]: none of them to the inference service,
    the clock or the import, none of them made twice, and none at all when
    the cache is ready. *)
Lemma ensureActualReady_log (cfg : Config) (svc : Services) (st : State) :
  exists new,
    calls (snd (ensureActualReady cfg svc st)) = (calls st ++ new)%list
    /\ forallb (fun d => negb (servesFromCache d)) new = true
    /\ (forall c, countCalls (sameKind c) new <= 1)
    /\ (isReady (cache st) = true -> new = []).
Proof.
  unfold ensureActualReady, ensureDirExists, initializeCatalog, resetCatalog,
    bind, tryCatch, request, getCache, putCache, raise, ret, ok, throw.
  simpl. destruct (isReady (cache st)) eqn:Hready.
  { exists []. simpl. rewrite app_nil_r. repeat split. intros c. cbn. lia. }
  destruct (on_mkdir svc _) as [e | []]; simpl; [close_log|].
  destruct (on_init svc _) as [e | []]; simpl.
  { destruct (on_shutdown svc _); simpl; close_log. }
  destruct (on_downloadBudget svc _) as [e | []]; simpl.
  { destruct (on_shutdown svc _); simpl; close_log. }
  destruct (on_getAccounts svc _) as [e | accounts]; simpl.
  { destruct (on_shutdown svc _); simpl; close_log. }
  destruct (filter (fun a => negb (a_closed a)) accounts) as [|a active]; simpl.
  { destruct (on_shutdown svc _); simpl; close_log. }
  destruct (on_getCategories svc _) as [e | categories]; simpl.
  { destruct (on_shutdown svc _); simpl; close_log. }
  close_log.
Qed.

Lemma extract_state (cfg : Config) (svc : Services) (sms : string) (st st1 : State) :
  ensureActualReady cfg svc st = (inr tt, st1) ->
  snd (extract cfg svc sms st)
  = mkState (cache st1) (calls st1 ++ [chatCall cfg sms (cache st1)])%list.
Proof.
  intros H. destruct (extract_run cfg svc sms st) as [_ Hok].
  now rewrite (Hok st1 H).
Qed.

(** The calls of the handler behind a successful [ensureActualReady]: the
    request to the inference service, then at most the clock and the
    import; the cache stays as [ensureActualReady] left it. *)
Lemma handler_log (cfg : Config) (svc : Services) (body : option Json)
  (sms : string) (st st1 : State) :
  smsOf body = Some sms ->
  ensureActualReady cfg svc st = (inr tt, st1) ->
  exists rest,
    calls (snd (ingest cfg svc body st))
    = (calls st1 ++ chatCall cfg sms (cache st1) :: rest)%list
    /\ cache (snd (ingest cfg svc body st)) = cache st1
    /\ forallb isImport rest = true
    /\ (forall c, countCalls (sameKind c) (chatCall cfg sms (cache st1) :: rest) <= 1).
Proof.
  intros Hsms Hready. rewrite ingest_run, Hsms.
  pose proof (extract_state cfg svc sms st st1 Hready) as Hst.
  pose proof (ensureActualReady_outcome cfg svc st) as Hout. rewrite Hready in Hout.
  destruct (extract cfg svc sms st) as [[e | parsed] st2]; cbn [snd] in Hst; subst st2.
  { exists []. cbn [snd calls cache]. repeat split. intros c. destruct c; cbn; lia. }
  destruct (amount parsed) as [x|].
  2:{ exists []. cbn [snd calls cache]. repeat split. intros c. destruct c; cbn; lia. }
  rewrite importIntoActual_run; [|exact Hout]. cbn [cache calls].
  destruct (matchAccount _ _ _) as [account|].
  2:{ exists []. cbn [snd calls cache]. repeat split. intros c. destruct c; cbn; lia. }
  cbv zeta. destruct (keepsDate (date parsed)).
  - eexists [ImportTransactions _ _].
    destruct (on_importTransactions svc _); cbn [snd calls cache];
      (split; [now rewrite <- app_assoc|]); repeat split;
      intros c; destruct c; cbn; lia.
  - eexists [Today _; ImportTransactions _ _].
    destruct (on_importTransactions svc _); cbn [snd calls cache];
      (split; [now rewrite <- !app_assoc|]); repeat split;
      intros c; destruct c; cbn; lia.
Qed.

Lemma forallb_isImport_serves (l : list Call) :
  forallb isImport l = true -> forallb servesFromCache l = true.
Proof.
  induction l as [|d l IH]; [reflexivity|]. simpl. rewrite !andb_true_iff.
  intros [Hd Hl]. split; [now destruct d | now apply IH].
Qed.

(** X6.  Every request is answered, and no request calls any function of the
    outside twice: one request makes at most one call of each of [mkdir],
    [init], [downloadBudget], [getAccounts], [getCategories], [shutdown],
    the inference service, the clock and [importTransactions]; in
    particular it asks the model once at most and imports one transaction
    at most, although [ensureActualReady] is entered twice on the way to an
    import. *)
Theorem request_call_budget (cfg : Config) (svc : Services) (body : option Json)
  (st : State) :
  (exists r, fst (ingest cfg svc body st) = inr r)
  /\ exists new,
       calls (snd (ingest cfg svc body st)) = (calls st ++ new)%list
       /\ forall c, countCalls (sameKind c) new <= 1.
Proof.
  split; [apply ingest_responds|].
  destruct (smsOf body) as [sms|] eqn:Hsms.
  2:{ rewrite ingest_run, Hsms. exists []. cbn [snd]. rewrite app_nil_r.
      split; [reflexivity|]. intros c. cbn. lia. }
  destruct (ensureActualReady_log cfg svc st) as [new [Hlog [Hinit [Hcount _]]]].
  destruct (ensureActualReady cfg svc st) as [[e | []] st1] eqn:Hready.
  - exists new. destruct (extract_run cfg svc sms st) as [Hfail _].
    rewrite ingest_run, Hsms, (Hfail e st1 Hready). split; assumption.
  - destruct (handler_log cfg svc body sms st st1 Hsms Hready)
      as [rest [Hrest [_ [Himport Hone]]]].
    exists (new ++ chatCall cfg sms (cache st1) :: rest)%list.
    cbn [snd] in Hlog. rewrite Hrest, Hlog, app_assoc. split; [reflexivity|].
    intros c. rewrite countCalls_app. destruct (servesFromCache c) eqn:Hc.
    + rewrite (count_serving_in_init c new Hc Hinit). apply Hone.
    + rewrite (count_init_in_serving c (chatCall cfg sms (cache st1) :: rest) Hc).
      * specialize (Hcount c). lia.
      * simpl. now apply forallb_isImport_serves.
Qed.

Lemma ingest_ready (cfg : Config) (svc : Services) (body : option Json) (st : State) :
  isReady (cache st) = true ->
  cache (snd (ingest cfg svc body st)) = cache st
  /\ exists new,
       calls (snd (ingest cfg svc body st)) = (calls st ++ new)%list
       /\ forallb servesFromCache new = true.
Proof.
  intros H. destruct (smsOf body) as [sms|] eqn:Hsms.
  2:{ rewrite ingest_run, Hsms. split; [reflexivity|]. exists []. cbn [snd].
      now rewrite app_nil_r. }
  destruct (handler_log cfg svc body sms st st Hsms (ensureActualReady_ready _ _ _ H))
    as [rest [Hrest [Hcache [Himport _]]]].
  split; [exact Hcache|]. exists (chatCall cfg sms (cache st) :: rest).
  split; [exact Hrest|]. simpl. now apply forallb_isImport_serves.
Qed.

(** X7.  A catalog that has been loaded is never loaded again.  From a state
    whose cache is ready, any sequence of requests, whatever they hold and
    however they end (also when the import fails), leaves the cache exactly
    as it was and calls only the inference service, the clock and
    [importTransactions]: [init], [downloadBudget], [getAccounts] and
    [getCategories] are not called again, so accounts and categories that
    change in the ledger afterwards are not seen. *)
Theorem ready_catalog_is_never_reloaded (cfg : Config) (svc : Services)
  (bodies : list (option Json)) (st : State) :
  isReady (cache st) = true ->
  cache (serve cfg svc bodies st) = cache st
  /\ exists new,
       calls (serve cfg svc bodies st) = (calls st ++ new)%list
       /\ forallb servesFromCache new = true.
Proof.
  revert st. induction bodies as [|body more IH]; intros st H; simpl.
  - split; [reflexivity|]. exists []. now rewrite app_nil_r.
  - destruct (ingest_ready cfg svc body st H) as [Hcache [new [Hlog Hnew]]].
    destruct (IH (snd (ingest cfg svc body st))) as [Hcache' [new' [Hlog' Hnew']]].
    { now rewrite Hcache. }
    split; [now rewrite Hcache'|]. exists (new ++ new')%list.
    rewrite Hlog', Hlog, app_assoc. split; [reflexivity|].
    now rewrite forallb_app, Hnew, Hnew'.
Qed.

Lemma ready_catalog_is_never_reloaded_witness :
  let st := snd (ensureActualReady exampleConfig
                   (steadyServices exampleCatalog fiveKeyReply) startState) in
  cache (serve exampleConfig (steadyServices [] fiveKeyReply)
               [debitRequest; otpRequest] st) = cache st
  /\ exists new,
       calls (serve exampleConfig (steadyServices [] fiveKeyReply)
                    [debitRequest; otpRequest] st) = (calls st ++ new)%list
       /\ forallb servesFromCache new = true.
Proof.
  apply (ready_catalog_is_never_reloaded exampleConfig
           (steadyServices [] fiveKeyReply) [debitRequest; otpRequest]).
  reflexivity.
Defined.

(** ** Requests that are refused or fail *)

(** X8.  A request is refused for a missing message exactly when its body
    has no [sms] that is a string and not empty: no body, a body that is not
    an object, an object without [sms], an [sms] that is a number, null, an
    object, or the empty string.  Such a request changes nothing: no call is
    made, not even to load the catalog, and the cache stays as it was.  A
    request with a message is never answered this way. *)
Theorem missing_sms_is_refused (cfg : Config) (svc : Services)
  (body : option Json) (st : State) :
  (fst (ingest cfg svc body st) = inr MissingSms <->
   (forall sms, getOptional body "sms" = Some (JString sms) -> sms = EmptyString))
  /\ (fst (ingest cfg svc body st) = inr MissingSms ->
      ingest cfg svc body st = (inr MissingSms, st))
  /\ (body = None \/ body = Some JNull \/ (exists s, body = Some (JString s))
      \/ (exists items, body = Some (JArray items))
      \/ (exists members, body = Some (JObject members)
                          /\ lookupLast "sms" members = None) ->
      ingest cfg svc body st = (inr MissingSms, st)).
Proof.
  assert (Hiff : fst (ingest cfg svc body st) = inr MissingSms <-> smsOf body = None).
  { rewrite ingest_run. destruct (smsOf body) as [sms|]; [|now split].
    split; [|discriminate].
    destruct (extract cfg svc sms st) as [[e | parsed] st1]; [discriminate|].
    destruct (amount parsed) as [x|]; [|discriminate].
    destruct (importIntoActual _ _ _ _ _ _ _ _ _) as [[e | imported] st2];
      discriminate. }
  split; [|split].
  - rewrite Hiff. split.
    + intros Hnone sms Hsms. destruct sms as [|c sms]; [reflexivity|].
      assert (smsOf body = Some (String c sms)) as E
          by (apply smsOf_spec; split; [exact Hsms | discriminate]).
      congruence.
    + intros H. destruct (smsOf body) as [sms|] eqn:E; [|reflexivity].
      apply smsOf_spec in E. destruct E as [E Hne]. now apply H in E.
  - intros H. apply Hiff in H. now rewrite ingest_run, H.
  - intros H. rewrite ingest_run.
    assert (smsOf body = None) as ->; [|reflexivity].
    unfold smsOf.
    destruct H as [-> | [-> | [[s ->] | [[items ->] | [members [-> H]]]]]];
      try reflexivity.
    simpl. now rewrite H.
Qed.

(** X9.  Failures of the inference service fail the request and nothing is
    imported.  Once the catalog is ready, the handler sends one request to
    [OLLAMA_URL/api/chat] with the model and the prompt of the message; when
    that call is rejected the request fails with the same error; when the
    reply has a status outside 200 to 299 it fails with
    [Ollama error <status>: <body>], whatever the body holds; when the reply
    is one JSON document without a message content (or with a null one) it
    fails with the message that no opening brace was found.  In each case
    the request to the service is the last call of the request and the cache
    is the one [ensureActualReady] left. *)
Theorem model_failures_fail_the_request (cfg : Config) (svc : Services)
  (body : option Json) (sms : string) (st st1 : State) :
  getOptional body "sms" = Some (JString sms) ->
  sms <> EmptyString ->
  ensureActualReady cfg svc st = (inr tt, st1) ->
  let log := (calls st1 ++ [chatCall cfg sms (cache st1)])%list in
  (forall e, on_fetch svc log = inl e ->
             ingest cfg svc body st = (inr (Failed e), mkState (cache st1) log))
  /\ (forall res,
         on_fetch svc log = inr res -> res_ok res = false ->
         ingest cfg svc body st
         = (inr (Failed (Error (statusMessage res))), mkState (cache st1) log))
  /\ (forall res obj,
         on_fetch svc log = inr res -> res_ok res = true ->
         JSON_parse (res_text res) = Some obj ->
         messageContent obj = None \/ messageContent obj = Some JNull ->
         ingest cfg svc body st
         = (inr (Failed (Error noBraceMessage)), mkState (cache st1) log)).
Proof.
  intros Hsms Hne Hready log.
  assert (smsOf body = Some sms) as E by (now apply smsOf_spec).
  destruct (extract_run cfg svc sms st) as [_ Hok]. specialize (Hok st1 Hready).
  fold log in Hok. split; [|split].
  - intros e He. rewrite ingest_run, E, Hok, He. reflexivity.
  - intros res Hres Hstatus. rewrite ingest_run, E, Hok, Hres, Hstatus. reflexivity.
  - intros res obj Hres Hstatus Hobj Hcontent.
    rewrite ingest_run, E, Hok, Hres, Hstatus.
    unfold contentOfBody. rewrite Hobj. unfold ok, singleObjectContent.
    destruct Hcontent as [-> | ->]; reflexivity.
Qed.

Lemma model_failures_fail_the_request_witness :
  ingest exampleConfig
    (repliedServices exampleCatalog (mkHttpResponse 404 "model not found"))
    debitRequest startState
  = (inr (Failed (Error "Ollama error 404: model not found")),
     mkState (cache loadedState)
       (calls loadedState
        ++ [chatCall exampleConfig "Rs.500 debited from HSBC Card 0001 at Amazon"
                     (cache loadedState)])%list).
Proof.
  refine (proj1 (proj2 (model_failures_fail_the_request exampleConfig
            (repliedServices exampleCatalog (mkHttpResponse 404 "model not found"))
            debitRequest "Rs.500 debited from HSBC Card 0001 at Amazon" startState
            loadedState eq_refl _ eq_refl))
            (mkHttpResponse 404 "model not found") eq_refl eq_refl).
  discriminate.
Defined.

(** X17.  A failure of the ledger fails the request before the model is
    asked.  When [ensureActualReady] throws, the handler answers with that
    error in the state [ensureActualReady] left: the calls of the request
    are calls to the file system and the ledger only, neither the inference
    service nor the clock nor the import is reached, and the cache is not
    ready afterwards, so the next request starts the initialization
    again. *)
Theorem ledger_failure_fails_the_request (cfg : Config) (svc : Services)
  (body : option Json) (sms : string) (st st1 : State) (e : Thrown) :
  getOptional body "sms" = Some (JString sms) ->
  sms <> EmptyString ->
  ensureActualReady cfg svc st = (inl e, st1) ->
  ingest cfg svc body st = (inr (Failed e), st1)
  /\ isReady (cache st1) = false
  /\ exists new,
       calls st1 = (calls st ++ new)%list
       /\ forallb (fun d => negb (servesFromCache d)) new = true.
Proof.
  intros Hsms Hne Hfail.
  assert (smsOf body = Some sms) as E by (now apply smsOf_spec).
  destruct (extract_run cfg svc sms st) as [Hextract _]. split; [|split].
  - now rewrite ingest_run, E, (Hextract e st1 Hfail).
  - pose proof (ensureActualReady_outcome cfg svc st) as Hout. rewrite Hfail in Hout.
    destruct Hout as [Hnot [-> | [-> _]]]; [reflexivity | exact Hnot].
  - destruct (ensureActualReady_log cfg svc st) as [new [Hlog [Hinit _]]].
    rewrite Hfail in Hlog. now exists new.
Qed.

Lemma ledger_failure_fails_the_request_witness :
  ingest exampleConfig (flakyServices exampleCatalog fiveKeyReply) debitRequest startState
  = (inr (Failed (Error "connect ECONNREFUSED")),
     mkState uninitialized
       [Mkdir "/tmp/actual-data";
        Init "/tmp/actual-data" "http://actual:5006" "secret"; Shutdown]).
Proof.
  refine (proj1 (ledger_failure_fails_the_request exampleConfig
            (flakyServices exampleCatalog fiveKeyReply) debitRequest
            "Rs.500 debited from HSBC Card 0001 at Amazon" startState
            (mkState uninitialized
               [Mkdir "/tmp/actual-data";
                Init "/tmp/actual-data" "http://actual:5006" "secret"; Shutdown])
            (Error "connect ECONNREFUSED") eq_refl _ eq_refl)).
  discriminate.
Defined.

(** ** What the cache holds *)

Lemma filtered_uninitialized : filteredCache uninitialized.
Proof. split; intros ? []. Qed.

Lemma filtered_loaded (ready : bool) (accounts : list Account)
  (categories : list Category) :
  filteredCache (mkCache ready (openAccounts accounts) (visibleCategories categories)).
Proof.
  split; simpl.
  - intros a Ha. apply filter_In in Ha. destruct Ha as [_ Ha].
    now apply negb_true_iff in Ha.
  - intros k Hk. apply filter_In in Hk. destruct Hk as [_ Hk].
    apply andb_true_iff in Hk. destruct Hk as [Hh Hn]. split.
    + now apply negb_true_iff in Hh.
    + now apply truthy_spec.
Qed.

Lemma ensureActualReady_filtered (cfg : Config) (svc : Services) :
  Preserves filteredCache (ensureActualReady cfg svc).
Proof.
  intros st Hinv.
  unfold ensureActualReady, ensureDirExists, initializeCatalog, resetCatalog,
    bind, tryCatch, request, getCache, putCache, raise, ret, ok, throw.
  simpl. destruct (isReady (cache st)); [exact Hinv|].
  destruct (on_mkdir svc _) as [e | []]; simpl; [exact Hinv|].
  destruct (on_init svc _) as [e | []]; simpl.
  { destruct (on_shutdown svc _); simpl; apply filtered_uninitialized. }
  destruct (on_downloadBudget svc _) as [e | []]; simpl.
  { destruct (on_shutdown svc _); simpl; apply filtered_uninitialized. }
  destruct (on_getAccounts svc _) as [e | accounts]; simpl.
  { destruct (on_shutdown svc _); simpl; apply filtered_uninitialized. }
  fold (openAccounts accounts).
  destruct (openAccounts accounts) as [|a active] eqn:Hactive; simpl.
  { destruct (on_shutdown svc _); simpl; apply filtered_uninitialized. }
  destruct (on_getCategories svc _) as [e | categories]; simpl.
  { destruct (on_shutdown svc _); simpl; apply filtered_uninitialized. }
  rewrite <- Hactive. apply filtered_loaded.
Qed.

(** What [ensureActualReady] keeps about the cache, every request keeps. *)
Lemma ingest_keeps (P : Cache -> Prop) (cfg : Config) (svc : Services)
  (body : option Json) :
  Preserves P (ensureActualReady cfg svc) -> Preserves P (ingest cfg svc body).
Proof.
  intros HP. unfold ingest. apply preserves_tryCatch.
  - destruct (getOptional body "sms") as [[| | | sms | |]|];
      try (apply keeps_preserves, keeps_ret).
    destruct (truthy sms); [|apply keeps_preserves, keeps_ret].
    apply preserves_bind.
    { unfold extract. apply preserves_bind; [exact HP | intros _].
      apply keeps_preserves. apply keeps_bind; [apply keeps_getCache | intros c].
      apply keeps_bind; [apply ollamaParse_cache | intros raw]. apply keeps_lift. }
    intros parsed.
    destruct (amount parsed) as [x|]; [|apply keeps_preserves, keeps_ret].
    apply preserves_bind; [|intros imported; apply keeps_preserves, keeps_ret].
    unfold importIntoActual, todayISO.
    apply preserves_bind; [exact HP | intros _].
    apply keeps_preserves. step_cache.
  - intros e. apply keeps_preserves, keeps_ret.
Qed.

Lemma serve_keeps (P : Cache -> Prop) (cfg : Config) (svc : Services)
  (bodies : list (option Json)) (st : State) :
  Preserves P (ensureActualReady cfg svc) ->
  P (cache st) -> P (cache (serve cfg svc bodies st)).
Proof.
  intros HP. revert st. induction bodies as [|body more IH]; intros st H; simpl;
    [exact H|].
  apply IH. now apply ingest_keeps.
Qed.

(** X10.  The cache never holds a closed account, a hidden category or a
    category without a name: this is true of the cache the process starts
    with, [ensureActualReady] and every request keep it, so it is true after
    any sequence of requests, whatever the ledger and the model answer.
    Hence account resolution never returns a closed account and category
    resolution never returns a hidden or nameless category. *)
Theorem cache_holds_open_accounts :
  filteredCache uninitialized
  /\ (forall cfg svc st,
         filteredCache (cache st) ->
         filteredCache (cache (snd (ensureActualReady cfg svc st))))
  /\ (forall cfg svc body st,
         filteredCache (cache st) ->
         filteredCache (cache (snd (ingest cfg svc body st))))
  /\ (forall cfg svc bodies,
         filteredCache (cache (serve cfg svc bodies startState)))
  /\ (forall cfg svc bodies label sms a,
         matchAccount (actualAccounts (cache (serve cfg svc bodies startState)))
                      label sms = Some a ->
         a_closed a = false)
  /\ (forall cfg svc bodies label k,
         matchCategory (actualCategories (cache (serve cfg svc bodies startState)))
                       label = Some k ->
         c_hidden k = false /\ c_name k <> EmptyString).
Proof.
  assert (Hserve : forall cfg svc bodies,
             filteredCache (cache (serve cfg svc bodies startState))).
  { intros cfg svc bodies.
    apply serve_keeps; [apply ensureActualReady_filtered | apply filtered_uninitialized]. }
  split; [apply filtered_uninitialized|].
  split; [intros cfg svc st; apply ensureActualReady_filtered|].
  split; [intros cfg svc body st; apply ingest_keeps, ensureActualReady_filtered|].
  split; [exact Hserve|]. split.
  - intros cfg svc bodies label sms a H. apply matchAccount_member in H.
    destruct H as [H _]. now apply (Hserve cfg svc bodies).
  - intros cfg svc bodies label k H. apply matchCategory_member in H.
    now apply (Hserve cfg svc bodies).
Qed.

Lemma cache_holds_open_accounts_witness :
  actualAccounts
    (cache (serve exampleConfig
              (steadyServices [mkAccount "a0" "Old card 0001" true; hsbc0001] fiveKeyReply)
              [debitRequest] startState))
  = [hsbc0001]
  /\ a_closed hsbc0001 = false.
Proof.
  split; [vm_compute; reflexivity|].
  destruct cache_holds_open_accounts as [_ [_ [_ [_ [H _]]]]].
  apply (H exampleConfig
           (steadyServices [mkAccount "a0" "Old card 0001" true; hsbc0001] fiveKeyReply)
           [debitRequest] (Some "HSBC ****0001") "Rs.500 debited").
  vm_compute. reflexivity.
Defined.

(** ** Requests that are accepted *)

Lemma ingest_accepted (cfg : Config) (svc : Services) (body : option Json)
  (st st' : State) (parsed : Parsed) (imported : Imported) :
  ingest cfg svc body st = (inr (Accepted parsed imported), st') ->
  exists sms x st2 acct,
    smsOf body = Some sms
    /\ extract cfg svc sms st = (inr parsed, st2)
    /\ amount parsed = Some x
    /\ isReady (cache st2) = true
    /\ cache st' = cache st2
    /\ matchAccount (actualAccounts (cache st2)) (account parsed) sms = Some acct
    /\ tx imported
       = buildTransaction (IMPORT_NOTES_PREFIX cfg) (a_id acct)
           (orNull (option_map c_id
                      (matchCategory (actualCategories (cache st2)) (category parsed))))
           sms (finalDate imported) x (description parsed)
    /\ (if keepsDate (date parsed)
        then finalDate imported = orEmpty (date parsed)
             /\ calls st'
                = (calls st2 ++ [ImportTransactions (a_id acct) [tx imported]])%list
        else finalDate imported
             = on_today svc (calls st2 ++ [Today (TIMEZONE cfg)])%list
             /\ calls st'
                = (calls st2 ++ [Today (TIMEZONE cfg);
                                 ImportTransactions (a_id acct) [tx imported]])%list)
    /\ on_importTransactions svc (calls st') = inr (result imported).
Proof.
  rewrite ingest_run. destruct (smsOf body) as [sms|] eqn:Hsms; [|discriminate].
  destruct (extract cfg svc sms st) as [[e | p] st2] eqn:Hextract; [discriminate|].
  destruct (amount p) as [x|] eqn:Hamount; [|discriminate].
  destruct (extract_ready _ _ _ _ _ _ Hextract) as [st1 [_ [Hready Hst2]]].
  assert (Hready2 : isReady (cache st2) = true) by (now subst st2).
  rewrite importIntoActual_run; [|exact Hready2].
  destruct (matchAccount _ _ _) as [a|] eqn:Hmatch; [|discriminate].
  cbv zeta. destruct (keepsDate (date p)) eqn:Hdate.
  - destruct (on_importTransactions svc _) as [e | r] eqn:Himport; [discriminate|].
    intros H. injection H as <- <- <-. exists sms, x, st2, a. cbn [tx finalDate result].
    rewrite Hdate. cbn [cache calls]. repeat split; assumption.
  - destruct (on_importTransactions svc _) as [e | r] eqn:Himport; [discriminate|].
    intros H. injection H as <- <- <-. exists sms, x, st2, a. cbn [tx finalDate result].
    rewrite Hdate. cbn [cache calls]. rewrite <- app_assoc in Himport.
    rewrite <- app_assoc. repeat split; assumption.
Qed.

Lemma idKey_length (sms finalDate : string) (n : float) (d : option string) :
  String.length (idKey sms finalDate n d) = 32.
Proof. unfold idKey. now rewrite length_take, sha256_length. Qed.

(** X11.  What an accepted request has imported, for ASCII text: the notes
    prefix, the extracted description and labels and the cached names hold
    ASCII characters only.  When the handler answers
    that a transaction was imported, the extraction had a number as its
    amount, and the transaction of the answer is on an account of the cache,
    the one account resolution returns for the extracted label and the
    message; its amount is the amount in minor units, its date the final
    date of the answer, its payee the description (null for an empty one),
    its category the id of the resolved category or null, its notes the
    notes prefix and the description, its imported id [sms:] and the 32
    characters of the key of the message, the final date, the amount in
    minor units and the description, and it is not cleared.  The last call
    of the request is [importTransactions] for that account with this one
    transaction, and its answer is the result in the reply.  When the cache
    held no closed account before the request, the account is open. *)
Theorem accepted_transaction (cfg : Config) (svc : Services) (body : option Json)
  (st st' : State) (parsed : Parsed) (imported : Imported) :
  isAscii (IMPORT_NOTES_PREFIX cfg) = true ->
  asciiLabel (description parsed) ->
  asciiLabel (account parsed) ->
  asciiLabel (category parsed) ->
  asciiNames (actualAccounts (cache st')) ->
  asciiCategories (actualCategories (cache st')) ->
  ingest cfg svc body st = (inr (Accepted parsed imported), st') ->
  exists sms x acct,
    smsOf body = Some sms
    /\ amount parsed = Some x
    /\ In acct (actualAccounts (cache st'))
    /\ matchAccount (actualAccounts (cache st')) (account parsed) sms = Some acct
    /\ tx_account (tx imported) = a_id acct
    /\ tx_amount (tx imported) = toMinorUnits x
    /\ tx_date (tx imported) = finalDate imported
    /\ tx_payee_name (tx imported) = orNull (description parsed)
    /\ tx_category (tx imported)
       = orNull (option_map c_id (matchCategory (actualCategories (cache st'))
                                                (category parsed)))
    /\ tx_notes (tx imported)
       = trim (IMPORT_NOTES_PREFIX cfg ++ ": " ++ orEmpty (description parsed))
    /\ tx_imported_id (tx imported)
       = "sms:" ++ idKey sms (finalDate imported) (toMinorUnits x) (description parsed)
    /\ String.length (tx_imported_id (tx imported)) = 36
    /\ tx_cleared (tx imported) = false
    /\ (exists before,
           calls st'
           = (before ++ [ImportTransactions (a_id acct) [tx imported]])%list)
    /\ on_importTransactions svc (calls st') = inr (result imported)
    /\ (filteredCache (cache st) -> a_closed acct = false).
Proof.
  intros _ _ _ _ _ _ H.
  pose proof (ingest_keeps filteredCache cfg svc body
                (ensureActualReady_filtered cfg svc) st) as Hkeep.
  rewrite H in Hkeep. cbn [snd] in Hkeep.
  apply ingest_accepted in H.
  destruct H as [sms [x [st2 [a [Hsms [_ [Hx [_ [Hcache [Hmatch [Htx [Hlog Himport]]]]]]]]]]]].
  exists sms, x, a. rewrite Hcache.
  pose proof (matchAccount_member _ _ _ _ Hmatch) as [Hin _].
  split; [exact Hsms|]. split; [exact Hx|]. split; [exact Hin|].
  split; [exact Hmatch|]. do 7 (split; [rewrite Htx; reflexivity|]).
  split.
  { rewrite Htx. unfold buildTransaction. cbn [tx_imported_id].
    change ("sms:" ++ idKey sms (finalDate imported) (toMinorUnits x) (description parsed))
      with (String "s" (String "m" (String "s" (String ":"
             (idKey sms (finalDate imported) (toMinorUnits x) (description parsed)))))).
    cbn [String.length]. now rewrite idKey_length. }
  split; [rewrite Htx; reflexivity|]. split.
  { destruct (keepsDate (date parsed)).
    - destruct Hlog as [_ ->]. now exists (calls st2).
    - destruct Hlog as [_ ->]. exists (calls st2 ++ [Today (TIMEZONE cfg)])%list.
      now rewrite <- app_assoc. }
  split; [exact Himport|].
  intros Hinv. apply (proj1 (Hkeep Hinv)). now rewrite Hcache.
Qed.

Lemma accepted_transaction_witness :
  exists sms x acct,
    smsOf debitRequest = Some sms
    /\ amount (mkParsed (Some (-500)%float) (Some "Amazon") (Some "2024-05-01")
                        (Some "HSBC ****0001") (Some "Shopping")) = Some x
    /\ In acct exampleCatalog
    /\ tx_account (mkTransaction "a1" "2024-05-01" (-50000)%float (Some "Amazon") None
                     "SMS: Amazon" "sms:db861ea2480f7a68ca8e254503fa651e" false)
       = a_id acct.
Proof.
  assert (Hlabel : forall s, isAscii s = true -> asciiLabel (Some s)).
  { intros s Hs n Hn. now injection Hn as <-. }
  assert (Hcache :
    cache (snd (ingest exampleConfig (steadyServices exampleCatalog fiveKeyReply)
                       debitRequest startState))
    = mkCache true exampleCatalog []) by (vm_compute; reflexivity).
  destruct (accepted_transaction exampleConfig
              (steadyServices exampleCatalog fiveKeyReply) debitRequest startState
              (snd (ingest exampleConfig (steadyServices exampleCatalog fiveKeyReply)
                           debitRequest startState))
              (mkParsed (Some (-500)%float) (Some "Amazon") (Some "2024-05-01")
                        (Some "HSBC ****0001") (Some "Shopping"))
              (mkImported "2024-05-01"
                 (mkTransaction "a1" "2024-05-01" (-50000)%float (Some "Amazon") None
                    "SMS: Amazon" "sms:db861ea2480f7a68ca8e254503fa651e" false)
                 JNull))
    as [sms [x [a [Hsms [Hx [Hin [_ [Ha _]]]]]]]].
  - reflexivity.
  - apply Hlabel. reflexivity.
  - apply Hlabel. reflexivity.
  - apply Hlabel. reflexivity.
  - rewrite Hcache. intros b [<- | [<- | []]]; reflexivity.
  - rewrite Hcache. intros k [].
  - vm_compute. reflexivity.
  - rewrite Hcache in Hin. exists sms, x, a. repeat split; assumption.
Defined.

Lemma keepsDate_spec (date : option string) :
  keepsDate date = true <-> exists d, date = Some d /\ 10 <= utf16Length d.
Proof.
  destruct date as [d|]; unfold keepsDate.
  - rewrite andb_true_iff, Nat.leb_le. split.
    + intros [_ H]. now exists d.
    + intros [d' [[= <-] H]]. split; [|exact H]. destruct d; [simpl in H; lia | reflexivity].
  - split; [discriminate | intros [d [H _]]; discriminate].
Qed.

Lemma count_today_in_init (l : list Call) :
  forallb (fun d => negb (servesFromCache d)) l = true -> countCalls isToday l = 0.
Proof.
  induction l as [|d l IH]; [reflexivity|]. simpl. rewrite andb_true_iff.
  intros [Hd Hl]. unfold countCalls in *. simpl.
  destruct d; simpl in *; try discriminate; now apply IH.
Qed.

(** The length that decides is counted as JavaScript counts it: a date of
    nine characters, one of them outside ASCII, is ten bytes long and is
    not kept. *)
Example keepsDate_counts_code_units :
  String.length "août 2024" = 10 /\ utf16Length "août 2024" = 9
  /\ keepsDate (Some "août 2024") = false
  /\ keepsDate (Some "2024-05-01") = true
  /\ keepsDate (Some "1 May 2024") = true
  /\ keepsDate (Some "2024-5-1") = false
  /\ utf16Length (JsonParser.utf8 128512) = 2.
Proof. repeat split. Qed.

(** X12.  The date of an imported transaction.  An extracted date of ten
    characters or more (UTF-16 code units, as [date.length] counts them) is
    taken as it stands, whatever it holds, and the clock is not read during
    the request.  With a null date or one shorter than ten characters, the
    clock is read once, for the configured time zone and just before the
    import, and its date is the date of the transaction. *)
Theorem final_date_rule (cfg : Config) (svc : Services) (body : option Json)
  (st st' : State) (parsed : Parsed) (imported : Imported) :
  ingest cfg svc body st = (inr (Accepted parsed imported), st') ->
  tx_date (tx imported) = finalDate imported
  /\ (forall d, date parsed = Some d -> 10 <= utf16Length d ->
                finalDate imported = d
                /\ exists new, calls st' = (calls st ++ new)%list
                               /\ countCalls isToday new = 0)
  /\ (date parsed = None
      \/ (exists d, date parsed = Some d /\ utf16Length d < 10) ->
      exists before acct,
        calls st' = (before ++ [Today (TIMEZONE cfg);
                                ImportTransactions acct [tx imported]])%list
        /\ finalDate imported = on_today svc (before ++ [Today (TIMEZONE cfg)])%list).
Proof.
  intros H. apply ingest_accepted in H.
  destruct H as [sms [x [st2 [a [_ [Hextract [_ [_ [_ [_ [Htx [Hlog _]]]]]]]]]]]].
  split; [now rewrite Htx|]. split.
  - intros d Hd Hlen.
    assert (keepsDate (date parsed) = true) as Hkeep
        by (apply keepsDate_spec; now exists d).
    rewrite Hkeep in Hlog. destruct Hlog as [Hfinal Hcalls].
    split; [now rewrite Hfinal, Hd|].
    destruct (extract_ready _ _ _ _ _ _ Hextract) as [st1 [Hready [_ Hst2]]].
    destruct (ensureActualReady_log cfg svc st) as [new [Hnew [Hinit _]]].
    rewrite Hready in Hnew. cbn [snd] in Hnew.
    exists (new ++ [chatCall cfg sms (cache st1);
                    ImportTransactions (a_id a) [tx imported]])%list.
    split.
    + rewrite Hcalls, Hst2. cbn [calls]. rewrite Hnew, <- !app_assoc. reflexivity.
    + rewrite countCalls_app, (count_today_in_init new Hinit). reflexivity.
  - intros Hdate.
    assert (keepsDate (date parsed) = false) as Hkeep.
    { destruct (keepsDate (date parsed)) eqn:E; [|reflexivity].
      apply keepsDate_spec in E. destruct E as [d [Hd Hlen]].
      destruct Hdate as [Hnone | [d' [Hd' Hshort]]]; [congruence|].
      rewrite Hd in Hd'. injection Hd' as <-. lia. }
    rewrite Hkeep in Hlog. destruct Hlog as [Hfinal Hcalls].
    exists (calls st2), (a_id a). split; assumption.
Qed.

Lemma final_date_rule_witness :
  (exists new,
      calls (snd (ingest exampleConfig (steadyServices exampleCatalog fiveKeyReply)
                         debitRequest startState))
      = (calls startState ++ new)%list
      /\ countCalls isToday new = 0)
  /\
  (exists before acct,
      calls (snd (ingest exampleConfig (steadyServices exampleCatalog undatedReply)
                         debitRequest startState))
      = (before
         ++ [Today "Asia/Kolkata";
             ImportTransactions acct
               [mkTransaction "a1" "2024-05-01" (-50000)%float (Some "Amazon") None
                  "SMS: Amazon" "sms:db861ea2480f7a68ca8e254503fa651e" false]])%list
      /\ "2024-05-01"
         = on_today (steadyServices exampleCatalog undatedReply)
                    (before ++ [Today "Asia/Kolkata"])%list).
Proof.
  split.
  - destruct (final_date_rule exampleConfig
                (steadyServices exampleCatalog fiveKeyReply) debitRequest startState
                (snd (ingest exampleConfig (steadyServices exampleCatalog fiveKeyReply)
                             debitRequest startState))
                (mkParsed (Some (-500)%float) (Some "Amazon") (Some "2024-05-01")
                          (Some "HSBC ****0001") (Some "Shopping"))
                (mkImported "2024-05-01"
                   (mkTransaction "a1" "2024-05-01" (-50000)%float (Some "Amazon") None
                      "SMS: Amazon" "sms:db861ea2480f7a68ca8e254503fa651e" false)
                   JNull))
      as [_ [Hkept _]]; [vm_compute; reflexivity|].
    apply (Hkept "2024-05-01" eq_refl). vm_compute. lia.
  - destruct (final_date_rule exampleConfig
                (steadyServices exampleCatalog undatedReply) debitRequest startState
                (snd (ingest exampleConfig (steadyServices exampleCatalog undatedReply)
                             debitRequest startState))
                (mkParsed (Some (-500)%float) (Some "Amazon") None
                          (Some "HSBC ****0001") (Some "Shopping"))
                (mkImported "2024-05-01"
                   (mkTransaction "a1" "2024-05-01" (-50000)%float (Some "Amazon") None
                      "SMS: Amazon" "sms:db861ea2480f7a68ca8e254503fa651e" false)
                   JNull))
      as [_ [_ Hclock]]; [vm_compute; reflexivity|].
    apply Hclock. left. reflexivity.
Defined.

Lemma keyText_orEmpty (s d : string) (n : float) (x1 x2 : option string) :
  orEmpty x1 = orEmpty x2 -> keyText s d n x1 = keyText s d n x2.
Proof. unfold keyText. now intros ->. Qed.

(** X13.  The imported id of a message that is sent again.  Take two
    accepted requests, under any configuration, services and state, with
    the same message, the same extracted amount and the same description (a
    null one counting as the empty one).  When their final dates agree they
    carry the same imported id, whatever account and category were
    resolved; this is so whenever the extraction holds the same date of ten
    characters or more (UTF-16 code units, as [date.length] counts them).
    When their final dates differ, as for an
    extraction without a date that is ingested on two different days, the
    imported ids differ (or the two hashed texts collide): the second
    import is then not recognised as the first. *)
Theorem resent_message_key (cfg1 cfg2 : Config) (svc1 svc2 : Services)
  (body1 body2 : option Json) (st1 st1' st2 st2' : State)
  (parsed1 parsed2 : Parsed) (imported1 imported2 : Imported) :
  ingest cfg1 svc1 body1 st1 = (inr (Accepted parsed1 imported1), st1') ->
  ingest cfg2 svc2 body2 st2 = (inr (Accepted parsed2 imported2), st2') ->
  smsOf body1 = smsOf body2 ->
  amount parsed1 = amount parsed2 ->
  orEmpty (description parsed1) = orEmpty (description parsed2) ->
  (finalDate imported1 = finalDate imported2 ->
   tx_imported_id (tx imported1) = tx_imported_id (tx imported2))
  /\ (forall d, date parsed1 = Some d -> date parsed2 = Some d ->
                10 <= utf16Length d ->
                tx_imported_id (tx imported1) = tx_imported_id (tx imported2))
  /\ (finalDate imported1 <> finalDate imported2 ->
      tx_imported_id (tx imported1) <> tx_imported_id (tx imported2)
      \/ exists sms x,
           smsOf body1 = Some sms /\ amount parsed1 = Some x
           /\ keyCollision
                (keyText sms (finalDate imported1) (toMinorUnits x) (description parsed1))
                (keyText sms (finalDate imported2) (toMinorUnits x) (description parsed1))).
Proof.
  intros H1 H2 Hsms Hamount Hdesc.
  apply ingest_accepted in H1, H2.
  destruct H1 as [sms [x [s1 [a1 [Hsms1 [_ [Hx1 [_ [_ [_ [Htx1 [Hlog1 _]]]]]]]]]]]].
  destruct H2 as [sms' [x' [s2 [a2 [Hsms2 [_ [Hx2 [_ [_ [_ [Htx2 [Hlog2 _]]]]]]]]]]]].
  assert (sms' = sms) as -> by congruence.
  assert (x' = x) as -> by congruence.
  assert (Hids : tx_imported_id (tx imported1)
                 = "sms:" ++ idKey sms (finalDate imported1) (toMinorUnits x)
                                   (description parsed1)
                 /\ tx_imported_id (tx imported2)
                    = "sms:" ++ idKey sms (finalDate imported2) (toMinorUnits x)
                                      (description parsed1)).
  { rewrite Htx1, Htx2. unfold buildTransaction. cbn [tx_imported_id].
    split; [reflexivity|]. unfold idKey.
    now rewrite (keyText_orEmpty sms _ _ _ _ Hdesc). }
  destruct Hids as [-> ->].
  assert (Hsame : finalDate imported1 = finalDate imported2 ->
                  "sms:" ++ idKey sms (finalDate imported1) (toMinorUnits x)
                                  (description parsed1)
                  = "sms:" ++ idKey sms (finalDate imported2) (toMinorUnits x)
                                    (description parsed1)) by (now intros ->).
  split; [exact Hsame|]. split.
  - intros d Hd1 Hd2 Hlen. apply Hsame.
    assert (Hkeep1 : keepsDate (date parsed1) = true)
      by (apply keepsDate_spec; now exists d).
    assert (Hkeep2 : keepsDate (date parsed2) = true)
      by (apply keepsDate_spec; now exists d).
    rewrite Hkeep1 in Hlog1. rewrite Hkeep2 in Hlog2.
    destruct Hlog1 as [-> _]. destruct Hlog2 as [-> _]. now rewrite Hd1, Hd2.
  - intros Hdiff.
    destruct (differ_or_collide
                (keyText sms (finalDate imported1) (toMinorUnits x) (description parsed1))
                (keyText sms (finalDate imported2) (toMinorUnits x) (description parsed1)))
      as [Hne | Hcollide].
    + intros E. apply Hdiff. exact (keyText_date _ _ _ _ _ E).
    + left. intros E. apply Hne. unfold idKey in E.
      exact (append_inv_head "sms:" _ _ E).
    + right. exists sms, x. split; [exact Hsms1 | split; [exact Hx1 | exact Hcollide]].
Qed.

Lemma resent_message_key_witness :
  tx_imported_id (mkTransaction "a1" "2024-05-01" (-50000)%float (Some "Amazon") None
                    "SMS: Amazon" "sms:db861ea2480f7a68ca8e254503fa651e" false)
  = tx_imported_id (mkTransaction "a2" "2024-05-01" (-50000)%float (Some "Amazon") None
                      "Bank: Amazon" "sms:db861ea2480f7a68ca8e254503fa651e" false).
Proof.
  refine (proj1 (proj2 (resent_message_key
            exampleConfig
            (mkConfig "http://actual:5006" "secret" "budget-2" None
                      "http://ollama:11434" "llama3" "Bank" "UTC" "/data")
            (steadyServices exampleCatalog fiveKeyReply)
            (steadyServices [mkAccount "a2" "HSBC ****0001" false] fiveKeyReply)
            debitRequest debitRequest startState
            (snd (ingest exampleConfig (steadyServices exampleCatalog fiveKeyReply)
                         debitRequest startState))
            startState
            (snd (ingest (mkConfig "http://actual:5006" "secret" "budget-2" None
                            "http://ollama:11434" "llama3" "Bank" "UTC" "/data")
                         (steadyServices [mkAccount "a2" "HSBC ****0001" false] fiveKeyReply)
                         debitRequest startState))
            (mkParsed (Some (-500)%float) (Some "Amazon") (Some "2024-05-01")
                      (Some "HSBC ****0001") (Some "Shopping"))
            (mkParsed (Some (-500)%float) (Some "Amazon") (Some "2024-05-01")
                      (Some "HSBC ****0001") (Some "Shopping"))
            (mkImported "2024-05-01"
               (mkTransaction "a1" "2024-05-01" (-50000)%float (Some "Amazon") None
                  "SMS: Amazon" "sms:db861ea2480f7a68ca8e254503fa651e" false)
               JNull)
            (mkImported "2024-05-01"
               (mkTransaction "a2" "2024-05-01" (-50000)%float (Some "Amazon") None
                  "Bank: Amazon" "sms:db861ea2480f7a68ca8e254503fa651e" false)
               JNull) _ _ eq_refl eq_refl eq_refl)) "2024-05-01" eq_refl eq_refl _);
    vm_compute; try reflexivity; lia.
Defined.

(** ** The message of an unresolved account *)

Lemma join_cons (sep p q : string) (ps : list string) :
  join sep (p :: q :: ps) = p ++ sep ++ join sep (q :: ps).
Proof. reflexivity. Qed.

Lemma join_member (sep x : string) (parts : list string) :
  In x parts -> exists before after, join sep parts = before ++ x ++ after.
Proof.
  induction parts as [|p ps IH]; [intros []|].
  destruct ps as [|q ps].
  - intros [<- | []]. exists EmptyString, EmptyString. simpl.
    now rewrite append_empty_r.
  - rewrite join_cons. intros [<- | H].
    + exists EmptyString, (sep ++ join sep (q :: ps)). reflexivity.
    + destruct (IH H) as [before [after ->]].
      exists (p ++ sep ++ before), after. now rewrite !append_assoc.
Qed.

Lemma includes_behind (p s x : string) :
  includes s x = true -> includes (p ++ s) x = true.
Proof.
  rewrite !includes_spec. intros [before [after ->]].
  exists (p ++ before), after. symmetry. apply append_assoc.
Qed.

Lemma matchErrorMessage_lists (label : option string) (accounts : list Account)
  (a : Account) :
  In a accounts -> includes (matchErrorMessage label accounts) (a_name a) = true.
Proof.
  intros H. unfold matchErrorMessage. do 3 apply includes_behind.
  apply includes_spec. apply join_member. now apply in_map.
Qed.

(** X14.  An extraction whose account cannot be resolved.  When the amount
    is a number and no stage of account resolution finds an account, the
    request fails in the state the extraction left: the clock is not read
    and nothing is imported.  The error message begins with the words that
    the account could not be matched, quotes the extracted label ([null]
    for a null one) and contains the name of every account of the cache. *)
Theorem unmatched_account_fails (cfg : Config) (svc : Services)
  (body : option Json) (sms : string) (st st2 : State) (parsed : Parsed) (x : float) :
  getOptional body "sms" = Some (JString sms) ->
  sms <> EmptyString ->
  extract cfg svc sms st = (inr parsed, st2) ->
  amount parsed = Some x ->
  matchAccount (actualAccounts (cache st2)) (account parsed) sms = None ->
  ingest cfg svc body st
  = (inr (Failed (Error (matchErrorMessage (account parsed)
                                           (actualAccounts (cache st2))))), st2)
  /\ startsWith (matchErrorMessage (account parsed) (actualAccounts (cache st2)))
                (quoted "Could not match account '"
                 ++ match account parsed with Some n => n | None => "null" end
                 ++ quoted "'. Available: ") = true
  /\ (forall a, In a (actualAccounts (cache st2)) ->
                includes (matchErrorMessage (account parsed)
                                            (actualAccounts (cache st2)))
                         (a_name a) = true).
Proof.
  intros Hsms Hne Hextract Hamount Hmatch.
  assert (smsOf body = Some sms) as E by (now apply smsOf_spec).
  destruct (extract_ready _ _ _ _ _ _ Hextract) as [st1 [_ [Hready Hst2]]].
  assert (Hready2 : isReady (cache st2) = true) by (now subst st2).
  split; [|split].
  - rewrite ingest_run, E, Hextract, Hamount.
    rewrite importIntoActual_run; [|exact Hready2]. now rewrite Hmatch.
  - apply startsWith_spec. unfold matchErrorMessage.
    exists (join ", " (map a_name (actualAccounts (cache st2)))).
    rewrite !append_assoc. reflexivity.
  - intros a. apply matchErrorMessage_lists.
Qed.

Lemma unmatched_account_fails_witness :
  fst (ingest exampleConfig
         (steadyServices [mkAccount "a9" "Axis 7777" false;
                          mkAccount "a8" "Kotak 8888" false] fiveKeyReply)
         debitRequest startState)
  = inr (Failed (Error (quoted
      "Could not match account 'HSBC ****0001'. Available: Axis 7777, Kotak 8888"))).
Proof.
  pose proof (unmatched_account_fails exampleConfig
                (steadyServices [mkAccount "a9" "Axis 7777" false;
                                 mkAccount "a8" "Kotak 8888" false] fiveKeyReply)
                debitRequest "Rs.500 debited from HSBC Card 0001 at Amazon" startState
                (snd (extract exampleConfig
                        (steadyServices [mkAccount "a9" "Axis 7777" false;
                                         mkAccount "a8" "Kotak 8888" false] fiveKeyReply)
                        "Rs.500 debited from HSBC Card 0001 at Amazon" startState))
                (mkParsed (Some (-500)%float) (Some "Amazon") (Some "2024-05-01")
                          (Some "HSBC ****0001") (Some "Shopping"))
                (-500)%float eq_refl) as H.
  destruct H as [H _].
  - discriminate.
  - vm_compute. reflexivity.
  - reflexivity.
  - vm_compute. reflexivity.
  - rewrite H. vm_compute. reflexivity.
Defined.

(** ** The prompt *)

Lemma hasText_append (a b : string) : hasText (a ++ b) = hasText a || hasText b.
Proof.
  unfold hasText. induction a as [|c a IH]; [reflexivity|]. simpl.
  now rewrite IH, orb_assoc.
Qed.

Lemma hasText_behind (m z : string) : hasText z = true -> hasText (m ++ z) = true.
Proof. intros H. rewrite hasText_append, H. apply orb_true_r. Qed.

Lemma dropWhile_append (x r : string) :
  hasText x = true -> dropWhile isSpace (x ++ r) = dropWhile isSpace x ++ r.
Proof.
  unfold hasText. induction x as [|c x IH]; simpl; [discriminate|].
  destruct (isSpace c); simpl; [exact IH | reflexivity].
Qed.

Lemma dropWhile_spaces (w r : string) :
  allSpaces w = true -> dropWhile isSpace (w ++ r) = dropWhile isSpace r.
Proof.
  unfold allSpaces. induction w as [|c w IH]; simpl; [reflexivity|].
  rewrite andb_true_iff. intros [Hc Hw]. rewrite Hc. now apply IH.
Qed.

Lemma rev_onto_spec (s acc : string) : rev_onto s acc = rev s ++ acc.
Proof.
  unfold rev. revert acc. induction s as [|c s IH]; intros acc; simpl; [reflexivity|].
  rewrite IH, (IH (String c EmptyString)), append_assoc. reflexivity.
Qed.

Lemma rev_cons (c : ascii) (s : string) : rev (String c s) = rev s ++ String c EmptyString.
Proof. unfold rev at 1. simpl. apply rev_onto_spec. Qed.

Lemma rev_append (a b : string) : rev (a ++ b) = rev b ++ rev a.
Proof.
  induction a as [|c a IH]; simpl.
  - now rewrite append_empty_r.
  - now rewrite !rev_cons, IH, append_assoc.
Qed.

Lemma rev_involutive (s : string) : rev (rev s) = s.
Proof.
  induction s as [|c s IH]; [reflexivity|].
  now rewrite rev_cons, rev_append, IH.
Qed.

Lemma hasText_rev (s : string) : hasText (rev s) = hasText s.
Proof.
  induction s as [|c s IH]; [reflexivity|].
  rewrite rev_cons, hasText_append, IH. unfold hasText. simpl.
  now rewrite orb_false_r, orb_comm.
Qed.

Lemma allSpaces_rev (s : string) : allSpaces (rev s) = allSpaces s.
Proof.
  unfold allSpaces. induction s as [|c s IH]; [reflexivity|].
  rewrite rev_cons. simpl. rewrite <- IH. clear IH.
  induction (rev s) as [|d r IH]; simpl.
  - now rewrite andb_comm.
  - rewrite IH. now rewrite !andb_assoc, (andb_comm (isSpace d)).
Qed.

Lemma trimEnd_append (m s : string) :
  hasText s = true -> trimEnd (m ++ s) = m ++ trimEnd s.
Proof.
  intros H. unfold trimEnd. rewrite rev_append, dropWhile_append.
  - now rewrite rev_append, rev_involutive.
  - now rewrite hasText_rev.
Qed.

Lemma trimEnd_spaces (r w : string) :
  allSpaces w = true -> trimEnd (r ++ w) = trimEnd r.
Proof.
  intros H. unfold trimEnd. rewrite rev_append, dropWhile_spaces; [reflexivity|].
  now rewrite allSpaces_rev.
Qed.

Lemma trim_append (x z : string) :
  hasText x = true -> hasText z = true ->
  trim (x ++ z) = dropWhile isSpace x ++ trimEnd z.
Proof.
  intros Hx Hz. unfold trim, trimEnd.
  rewrite (dropWhile_append x z Hx), rev_append, dropWhile_append.
  - now rewrite rev_append, rev_involutive.
  - now rewrite hasText_rev.
Qed.

Lemma includes_front (s r x : string) :
  includes s x = true -> includes (s ++ r) x = true.
Proof.
  rewrite !includes_spec. intros [before [after ->]].
  exists before, (after ++ r). now rewrite !append_assoc.
Qed.

Lemma bulletList_lists (names : list string) (n : string) :
  In n names -> includes (bulletList names) ("  - " ++ n) = true.
Proof.
  intros H. apply includes_spec. apply join_member.
  apply (in_map (fun n => "  - " ++ n)) in H. exact H.
Qed.

Lemma promptForSMS_unfold (sms : string) (accounts : list Account)
  (categories : list Category) :
  promptForSMS sms accounts categories
  = trim (promptHead ++ bulletList (map a_name accounts) ++ promptCategories
          ++ bulletList (map c_name categories) ++ promptRules ++ sms).
Proof. unfold promptForSMS, bulletList. now rewrite !map_map. Qed.

Lemma promptForSMS_trimmed (sms : string) (accounts : list Account)
  (categories : list Category) :
  promptForSMS sms accounts categories
  = drop 1 promptHead ++ bulletList (map a_name accounts) ++ promptCategories
    ++ bulletList (map c_name categories) ++ trimEnd (promptRules ++ sms).
Proof.
  assert (Hrules : hasText (promptRules ++ sms) = true).
  { rewrite hasText_append.
    assert (hasText promptRules = true) as -> by (vm_compute; reflexivity).
    reflexivity. }
  rewrite promptForSMS_unfold, trim_append.
  - assert (dropWhile isSpace promptHead = drop 1 promptHead) as ->
        by (vm_compute; reflexivity).
    f_equal.
    rewrite trimEnd_append; [|now do 2 apply hasText_behind].
    rewrite trimEnd_append; [|now apply hasText_behind].
    now rewrite trimEnd_append.
  - vm_compute. reflexivity.
  - rewrite !hasText_append.
    assert (hasText promptCategories = true) as -> by (vm_compute; reflexivity).
    now rewrite orb_true_r.
Qed.

(** X15.  The prompt.  The text sent to the model is the template without
    its first line break, with one line [  - name] for every account of the
    cache after the heading of the accounts and one for every category after
    the heading of the categories, in the order of the cache, and it ends
    with the message: as it stands up to its trailing white space when it
    has a character that is not white space, and with the heading [SMS:]
    when the message is white space only.  So the prompt contains the line
    of every account and of every category, and nothing of the message is
    escaped. *)
Theorem promptForSMS_spec (sms : string) (accounts : list Account)
  (categories : list Category) :
  (hasText sms = true ->
   promptForSMS sms accounts categories
   = drop 1 promptHead ++ bulletList (map a_name accounts) ++ promptCategories
     ++ bulletList (map c_name categories) ++ promptRules ++ trimEnd sms)
  /\ (allSpaces sms = true ->
      promptForSMS sms accounts categories
      = drop 1 promptHead ++ bulletList (map a_name accounts) ++ promptCategories
        ++ bulletList (map c_name categories) ++ trimEnd promptRules)
  /\ (exists rules, trimEnd promptRules = rules ++ "SMS:")
  /\ startsWith (promptForSMS sms accounts categories)
                "You are a financial transaction parser." = true
  /\ (forall a, In a accounts ->
                includes (promptForSMS sms accounts categories)
                         ("  - " ++ a_name a) = true)
  /\ (forall c, In c categories ->
                includes (promptForSMS sms accounts categories)
                         ("  - " ++ c_name c) = true).
Proof.
  rewrite promptForSMS_trimmed. split; [|split; [|split; [|split; [|split]]]].
  - intros H. now rewrite (trimEnd_append promptRules sms H).
  - intros H. now rewrite (trimEnd_spaces promptRules sms H).
  - exists (take (String.length (trimEnd promptRules) - 4) (trimEnd promptRules)).
    vm_compute. reflexivity.
  - apply startsWith_spec. eexists.
    change (drop 1 promptHead)
      with ("You are a financial transaction parser." ++ drop 40 promptHead).
    rewrite append_assoc. reflexivity.
  - intros a Ha. apply includes_behind, includes_front, bulletList_lists.
    now apply in_map.
  - intros c Hc. do 3 apply includes_behind. apply includes_front, bulletList_lists.
    now apply in_map.
Qed.

Lemma promptForSMS_spec_witness :
  promptForSMS ("Rs.500 debited from Card 0001" ++ String newline " ")
               exampleCatalog [mkCategory "k2" "Shopping" false]
  = drop 1 promptHead ++ bulletList ["HSBC ****0001"; "ICICI ****2979"]
    ++ promptCategories ++ bulletList ["Shopping"] ++ promptRules
    ++ "Rs.500 debited from Card 0001".
Proof.
  refine (proj1 (promptForSMS_spec ("Rs.500 debited from Card 0001" ++ String newline " ")
                   exampleCatalog [mkCategory "k2" "Shopping" false]) _).
  reflexivity.
Defined.

(** ** Code fences *)

Lemma afterSpaces_self (s : string) : In s (afterSpaces s).
Proof.
  destruct s as [|c t]; simpl; [now left|].
  destruct (isSpace c); [apply in_or_app; right|]; now left.
Qed.

Lemma afterSpaces_spec (s r : string) :
  In r (afterSpaces s) -> exists ws, s = ws ++ r /\ allSpaces ws = true.
Proof.
  induction s as [|c t IH]; simpl.
  - intros [<- | []]. now exists EmptyString.
  - destruct (isSpace c) eqn:Hc.
    + intros H. apply in_app_or in H. destruct H as [H | [<- | []]].
      * destruct (IH H) as [ws [-> Hws]]. exists (String c ws). split; [reflexivity|].
        unfold allSpaces in *. simpl. now rewrite Hc.
      * now exists EmptyString.
    + intros [<- | []]. now exists EmptyString.
Qed.

Lemma closesFence_spec (s : string) :
  closesFence s = true ->
  exists ws post, s = ws ++ fence ++ post /\ allSpaces ws = true.
Proof.
  unfold closesFence. rewrite existsb_exists. intros [r [Hr Hfence]].
  apply afterSpaces_spec in Hr. destruct Hr as [ws [-> Hws]].
  apply startsWith_spec in Hfence. destruct Hfence as [post ->].
  now exists ws, post.
Qed.

Lemma closesFence_fence (post : string) : closesFence (fence ++ post) = true.
Proof.
  unfold closesFence. apply existsb_exists. exists (fence ++ post).
  split; [apply afterSpaces_self|]. apply startsWith_spec. now exists post.
Qed.

Lemma lazyCapture_unfold (s : string) :
  lazyCapture s
  = if closesFence s then Some EmptyString
    else match s with
         | EmptyString => None
         | String c t =>
             match lazyCapture t with
             | Some capture => Some (String c capture)
             | None => None
             end
         end.
Proof. destruct s; reflexivity. Qed.

(** The lazy group takes the shortest text behind which the fence closes. *)
Lemma lazyCapture_spec (s c : string) :
  lazyCapture s = Some c ->
  exists rest,
    s = c ++ rest /\ closesFence rest = true
    /\ forall c1 c2, c = c1 ++ c2 -> c2 <> EmptyString ->
                     closesFence (c2 ++ rest) = false.
Proof.
  revert c. induction s as [|ch t IH]; intros c; rewrite lazyCapture_unfold.
  - destruct (closesFence EmptyString) eqn:E; [|discriminate].
    intros H. injection H as <-. exists EmptyString. repeat split; [exact E|].
    intros [|] c2 H; simpl in H; congruence.
  - destruct (closesFence (String ch t)) eqn:E.
    + intros H. injection H as <-. exists (String ch t). repeat split; [exact E|].
      intros [|] c2 H; simpl in H; congruence.
    + destruct (lazyCapture t) as [c'|]; [|discriminate].
      intros H. injection H as <-. destruct (IH c' eq_refl) as [rest [-> [Hrest Hmin]]].
      exists rest. repeat split; [exact Hrest|].
      intros [|d c1] c2 H Hne; simpl in H.
      * now rewrite <- H.
      * injection H as _ H. now apply (Hmin c1 c2).
Qed.

Lemma lazyCapture_complete (s : string) :
  includes s fence = true -> lazyCapture s <> None.
Proof.
  induction s as [|ch t IH]; rewrite includes_unfold, lazyCapture_unfold.
  - discriminate.
  - destruct (closesFence (String ch t)) eqn:E; [discriminate|].
    rewrite orb_true_iff. intros [H | H].
    + apply startsWith_spec in H. destruct H as [post H].
      rewrite H, closesFence_fence in E. discriminate.
    + specialize (IH H). now destruct (lazyCapture t).
Qed.

Lemma lazyCapture_no_fence (s c : string) :
  lazyCapture s = Some c -> includes c fence = false.
Proof.
  intros H. apply lazyCapture_spec in H. destruct H as [rest [_ [_ Hmin]]].
  destruct (includes c fence) eqn:E; [|reflexivity].
  apply includes_spec in E. destruct E as [before [after E]].
  assert (closesFence ((fence ++ after) ++ rest) = false) as Hno.
  { apply (Hmin before); [exact E | discriminate]. }
  now rewrite append_assoc, closesFence_fence in Hno.
Qed.

Lemma firstSome_spec {A B : Type} (f : A -> option B) (l : list A) (y : B) :
  firstSome f l = Some y -> exists x, In x l /\ f x = Some y.
Proof.
  induction l as [|x l IH]; simpl; [discriminate|].
  destruct (f x) as [z|] eqn:E.
  - intros H. injection H as <-. exists x. split; [now left | exact E].
  - intros H. destruct (IH H) as [x' [Hin Hx']]. exists x'. split; [now right | exact Hx'].
Qed.

Lemma firstSome_found {A B : Type} (f : A -> option B) (l : list A) (x : A) :
  In x l -> f x <> None -> firstSome f l <> None.
Proof.
  induction l as [|z l IH]; simpl; [intros []|].
  intros [-> | H] Hx.
  - now destruct (f x).
  - destruct (f z); [discriminate | now apply IH].
Qed.

Lemma take_toLowerCase (n : nat) (s : string) :
  toLowerCase (take n s) = take n (toLowerCase s).
Proof.
  revert s. induction n as [|n IH]; intros [|c s]; simpl; try reflexivity.
  now rewrite IH.
Qed.

(** The match behind an opening fence: an optional tag, white space, the
    capture, white space and the closing fence. *)
Lemma afterOpening_spec (t c : string) :
  afterOpening t = Some c ->
  exists tag ws1 ws2 post,
    t = tag ++ ws1 ++ c ++ ws2 ++ fence ++ post
    /\ (tag = EmptyString \/ toLowerCase tag = "json")
    /\ allSpaces ws1 = true /\ allSpaces ws2 = true
    /\ includes c fence = false.
Proof.
  unfold afterOpening. intros H. apply firstSome_spec in H.
  destruct H as [r [Hr Hc]].
  pose proof (lazyCapture_no_fence _ _ Hc) as Hno.
  apply lazyCapture_spec in Hc. destruct Hc as [rest [-> [Hrest _]]].
  apply closesFence_spec in Hrest. destruct Hrest as [ws2 [post [-> Hws2]]].
  apply in_app_or in Hr. destruct Hr as [Hr | Hr].
  - destruct (startsWith (toLowerCase t) "json") eqn:Htag; [|destruct Hr].
    apply afterSpaces_spec in Hr. destruct Hr as [ws1 [Hdrop Hws1]].
    exists (take 4 t), ws1, ws2, post. rewrite <- Hdrop, take_drop.
    repeat split; try assumption. right.
    apply startsWith_spec in Htag. destruct Htag as [more Htag].
    now rewrite take_toLowerCase, Htag.
  - apply afterSpaces_spec in Hr. destruct Hr as [ws1 [-> Hws1]].
    exists EmptyString, ws1, ws2, post. repeat split; try assumption. now left.
Qed.

Lemma afterOpening_complete (t : string) :
  includes t fence = true -> afterOpening t <> None.
Proof.
  intros H. unfold afterOpening. apply (firstSome_found lazyCapture _ t).
  - apply in_or_app. right. apply afterSpaces_self.
  - now apply lazyCapture_complete.
Qed.

Lemma fenced_unfold (s : string) :
  fenced s
  = match (if startsWith s fence then afterOpening (drop 3 s) else None) with
    | Some capture => Some capture
    | None =>
        match s with
        | EmptyString => None
        | String _ t => fenced t
        end
    end.
Proof. destruct s; reflexivity. Qed.

Lemma fenced_spec (s c : string) :
  fenced s = Some c ->
  exists pre t, s = pre ++ fence ++ t /\ afterOpening t = Some c.
Proof.
  induction s as [|ch s IH]; rewrite fenced_unfold.
  - destruct (startsWith EmptyString fence); discriminate.
  - destruct (startsWith (String ch s) fence) eqn:Hstart.
    + destruct (afterOpening (drop 3 (String ch s))) as [c'|] eqn:Hopen.
      * intros H. injection H as <-. apply startsWith_spec in Hstart.
        destruct Hstart as [t Ht]. exists EmptyString, t. split; [exact Ht|].
        now rewrite Ht in Hopen.
      * intros H. destruct (IH H) as [pre [t [-> Ht]]]. now exists (String ch pre), t.
    + intros H. destruct (IH H) as [pre [t [-> Ht]]]. now exists (String ch pre), t.
Qed.

Lemma fenced_complete (pre t : string) :
  includes t fence = true -> fenced (pre ++ fence ++ t) <> None.
Proof.
  intros H. induction pre as [|ch pre IH]; rewrite fenced_unfold.
  - assert (startsWith (EmptyString ++ fence ++ t) fence = true) as ->
        by (apply startsWith_spec; now exists t).
    change (drop 3 (EmptyString ++ fence ++ t)) with t.
    pose proof (afterOpening_complete t H). now destruct (afterOpening t).
  - destruct (if startsWith _ fence then _ else None); [discriminate|]. exact IH.
Qed.

(** X16.  Code fences.  A fence is stripped exactly when the text holds an
    opening fence that is followed, somewhere behind it, by another fence;
    a text without a fence, or with fences none of which is followed by
    another, is returned as it is.  When a fence is stripped, the result is
    the text between an opening fence, an optional tag [json] in any case
    and white space on one side, and white space and a closing fence on the
    other; it is a part of the given text and holds no fence itself. *)
Theorem stripCodeFences_spec (s : string) :
  (fenced s <> None <->
   exists pre t, s = pre ++ fence ++ t /\ includes t fence = true)
  /\ (includes s fence = false -> stripCodeFences s = s)
  /\ ((forall pre t, s = pre ++ fence ++ t -> includes t fence = false) ->
      stripCodeFences s = s)
  /\ (forall c,
         fenced s = Some c ->
         stripCodeFences s = c
         /\ includes c fence = false
         /\ exists pre tag ws1 ws2 post,
              s = pre ++ fence ++ tag ++ ws1 ++ c ++ ws2 ++ fence ++ post
              /\ (tag = EmptyString \/ toLowerCase tag = "json")
              /\ allSpaces ws1 = true /\ allSpaces ws2 = true).
Proof.
  assert (Hshape : forall c,
             fenced s = Some c ->
             includes c fence = false
             /\ exists pre tag ws1 ws2 post,
                  s = pre ++ fence ++ tag ++ ws1 ++ c ++ ws2 ++ fence ++ post
                  /\ (tag = EmptyString \/ toLowerCase tag = "json")
                  /\ allSpaces ws1 = true /\ allSpaces ws2 = true).
  { intros c H. apply fenced_spec in H. destruct H as [pre [t [-> H]]].
    apply afterOpening_spec in H.
    destruct H as [tag [ws1 [ws2 [post [-> [Htag [H1 [H2 Hno]]]]]]]].
    split; [exact Hno|]. now exists pre, tag, ws1, ws2, post. }
  assert (Hiff : fenced s <> None <->
                 exists pre t, s = pre ++ fence ++ t /\ includes t fence = true).
  { split.
    - destruct (fenced s) as [c|] eqn:E; [intros _ | congruence].
      destruct (Hshape c eq_refl) as [_ [pre [tag [ws1 [ws2 [post [-> _]]]]]]].
      exists pre, (tag ++ ws1 ++ c ++ ws2 ++ fence ++ post). split; [reflexivity|].
      do 4 apply includes_behind. apply includes_spec.
      now exists EmptyString, post.
    - intros [pre [t [-> H]]]. now apply fenced_complete. }
  split; [exact Hiff|]. split; [|split].
  - intros H. unfold stripCodeFences. destruct (fenced s) as [c|] eqn:E; [|reflexivity].
    destruct (proj1 Hiff) as [pre [t [Hs _]]]; [discriminate|].
    assert (includes s fence = true) as Hin.
    { apply includes_spec. now exists pre, t. }
    congruence.
  - intros H. unfold stripCodeFences. destruct (fenced s) as [c|] eqn:E; [|reflexivity].
    destruct (proj1 Hiff) as [pre [t [Hs Ht]]]; [discriminate|].
    rewrite (H pre t Hs) in Ht. discriminate.
  - intros c H. split; [unfold stripCodeFences; now rewrite H|]. now apply Hshape.
Qed.

Lemma stripCodeFences_spec_witness :
  stripCodeFences "The total is `5`" = "The total is `5`"
  /\ stripCodeFences "``` unfinished" = "``` unfinished".
Proof.
  split.
  - destruct (stripCodeFences_spec "The total is `5`") as [_ [H _]].
    apply H. reflexivity.
  - destruct (stripCodeFences_spec "``` unfinished") as [_ [_ [Hnone _]]].
    apply Hnone. intros pre t H. destruct pre as [|a pre]; [now injection H as <-|].
    do 14 (destruct pre as [|? pre]; [discriminate|]). 
    apply (f_equal String.length) in H. simpl in H. rewrite length_append in H.
    simpl in H. lia.
Defined.

(** ** Every import the service makes *)

Lemma buildTransaction_shape (prefix accountId : string) (categoryId : option string)
  (sms finalDate : string) (x : float) (description : option string) :
  let tx := buildTransaction prefix accountId categoryId sms finalDate x description in
  tx_account tx = accountId /\ tx_cleared tx = false
  /\ startsWith (tx_imported_id tx) "sms:" = true
  /\ String.length (tx_imported_id tx) = 36.
Proof.
  unfold buildTransaction. cbn [tx_account tx_cleared tx_imported_id].
  split; [reflexivity|]. split; [reflexivity|]. split.
  - apply startsWith_spec. eexists. reflexivity.
  - change ("sms:" ++ idKey sms finalDate (toMinorUnits x) description)
      with (String "s" (String "m" (String "s" (String ":"
             (idKey sms finalDate (toMinorUnits x) description))))).
    cbn [String.length]. now rewrite idKey_length.
Qed.

Lemma lastCatalog_app (svc : Services) (log new : list Call)
  (accounts : list Account) :
  LastCatalog svc log accounts -> existsb isGetAccounts new = false ->
  LastCatalog svc (log ++ new) accounts.
Proof.
  intros [before [after [-> [Hafter Hanswer]]]] Hnew.
  exists before, (after ++ new)%list. split; [|split; [|exact Hanswer]].
  - now rewrite <- app_assoc.
  - now rewrite existsb_app, Hafter, Hnew.
Qed.

Lemma cachedFromLedger_app (svc : Services) (c : Cache) (log new : list Call) :
  CachedFromLedger svc (mkState c log) -> existsb isGetAccounts new = false ->
  CachedFromLedger svc (mkState c (log ++ new)).
Proof.
  intros [Hnone | [accounts [Hlast Hcache]]] Hnew; [now left | right].
  exists accounts. split; [|exact Hcache]. now apply lastCatalog_app.
Qed.

Lemma eachCall_app (P : list Call -> Call -> Prop) (first second earlier : list Call) :
  EachCall P earlier (first ++ second)
  <-> EachCall P earlier first /\ EachCall P (earlier ++ first) second.
Proof.
  revert earlier. induction first as [|c first IH]; intros earlier; simpl.
  - rewrite app_nil_r. tauto.
  - rewrite IH, <- app_assoc. simpl. tauto.
Qed.

Lemma eachCall_no_import (svc : Services) (new earlier : list Call) :
  forallb (fun d => negb (isImport d) || isToday d) new = true ->
  EachCall (SingleImport svc) earlier new.
Proof.
  revert earlier. induction new as [|d new IH]; intros earlier; simpl; [trivial|].
  rewrite andb_true_iff. intros [Hd Hnew]. split; [|now apply IH].
  destruct d; simpl in *; try exact I; discriminate.
Qed.

Lemma init_calls_no_import (svc : Services) (new earlier : list Call) :
  forallb (fun d => negb (servesFromCache d)) new = true ->
  EachCall (SingleImport svc) earlier new.
Proof.
  intros H. apply eachCall_no_import. rewrite forallb_forall in *.
  intros d Hd. specialize (H d Hd). now destruct d.
Qed.

Lemma serving_calls_no_catalog (new : list Call) :
  forallb servesFromCache new = true -> existsb isGetAccounts new = false.
Proof.
  induction new as [|d new IH]; simpl; [reflexivity|].
  rewrite andb_true_iff. intros [Hd Hnew]. rewrite (IH Hnew).
  now destruct d.
Qed.

(** [ensureActualReady] keeps the cached accounts those of the last answer
    of the ledger. *)
Lemma ensureActualReady_fromLedger (cfg : Config) (svc : Services) (st : State) :
  CachedFromLedger svc st ->
  CachedFromLedger svc (snd (ensureActualReady cfg svc st)).
Proof.
  intros Hinv. destruct st as [c log].
  unfold ensureActualReady, ensureDirExists, initializeCatalog, resetCatalog,
    bind, tryCatch, request, getCache, putCache, raise, ret, ok, throw.
  cbn [cache calls fst snd]. destruct (isReady c); [exact Hinv|].
  destruct (on_mkdir svc _) as [e | []]; cbn [cache calls fst snd].
  { now apply cachedFromLedger_app. }
  destruct (on_init svc _) as [e | []]; cbn [cache calls fst snd].
  { destruct (on_shutdown svc _); now left. }
  destruct (on_downloadBudget svc _) as [e | []]; cbn [cache calls fst snd].
  { destruct (on_shutdown svc _); now left. }
  destruct (on_getAccounts svc _) as [e | accounts] eqn:Hanswer;
    cbn [cache calls fst snd actualAccounts actualReady actualCategories].
  { destruct (on_shutdown svc _); now left. }
  fold (openAccounts accounts).
  destruct (List.length (openAccounts accounts) =? 0)%nat;
    cbn [cache calls fst snd actualAccounts actualReady actualCategories].
  { destruct (on_shutdown svc _); now left. }
  destruct (on_getCategories svc _) as [e | categories];
    cbn [cache calls fst snd actualAccounts actualReady actualCategories].
  { destruct (on_shutdown svc _); now left. }
  right. exists accounts. split; [|reflexivity].
  eexists _, [GetCategories]. split; [|split; [reflexivity | exact Hanswer]].
  now rewrite <- app_assoc.
Qed.

Lemma handler_imports (cfg : Config) (svc : Services) (body : option Json)
  (sms : string) (st st1 : State) :
  smsOf body = Some sms ->
  ensureActualReady cfg svc st = (inr tt, st1) ->
  CachedFromLedger svc st1 ->
  exists rest,
    calls (snd (ingest cfg svc body st)) = (calls st1 ++ rest)%list
    /\ forallb servesFromCache rest = true
    /\ cache (snd (ingest cfg svc body st)) = cache st1
    /\ EachCall (SingleImport svc) (calls st1) rest.
Proof.
  intros Hsms Hready Hinv. rewrite ingest_run, Hsms.
  pose proof (extract_state cfg svc sms st st1 Hready) as Hst.
  pose proof (ensureActualReady_outcome cfg svc st) as Hout. rewrite Hready in Hout.
  destruct (extract cfg svc sms st) as [[e | parsed] st2]; cbn [snd] in Hst; subst st2.
  { eexists [_]. cbn [snd calls cache]. repeat split. }
  destruct (amount parsed) as [x|].
  2:{ eexists [_]. cbn [snd calls cache]. repeat split. }
  rewrite importIntoActual_run; [|exact Hout]. cbn [cache calls].
  destruct (matchAccount _ _ _) as [a|] eqn:Hmatch.
  2:{ eexists [_]. cbn [snd calls cache]. repeat split. }
  apply matchAccount_member in Hmatch. destruct Hmatch as [Hin _].
  destruct Hinv as [Hnone | [accounts [Hlast Hcache]]];
    [rewrite Hnone in Hin; destruct Hin|].
  rewrite Hcache in Hin. apply filter_In in Hin. destruct Hin as [Hin Hopen].
  apply negb_true_iff in Hopen.
  assert (Himport : forall finalDate more,
             existsb isGetAccounts more = false ->
             SingleImport svc (calls st1 ++ more)
               (ImportTransactions (a_id a)
                  [buildTransaction (IMPORT_NOTES_PREFIX cfg) (a_id a)
                     (orNull (option_map c_id
                                (matchCategory (actualCategories (cache st1))
                                               (category parsed))))
                     sms finalDate x (description parsed)])).
  { intros finalDate more Hmore. simpl. exists accounts, a. eexists.
    split; [now apply lastCatalog_app|]. split; [exact Hin|].
    split; [exact Hopen|]. split; [reflexivity|]. split; [reflexivity|].
    apply buildTransaction_shape. }
  cbv zeta. destruct (keepsDate (date parsed)).
  - eexists [_; _].
    destruct (on_importTransactions svc _); cbn [snd calls cache];
      (split; [now rewrite <- app_assoc|]); (split; [reflexivity|]);
      (split; [reflexivity|]); cbn [EachCall];
      (split; [exact I|]); (split; [|exact I]);
      apply Himport; reflexivity.
  - eexists [_; _; _].
    destruct (on_importTransactions svc _); cbn [snd calls cache];
      (split; [now rewrite <- !app_assoc|]); (split; [reflexivity|]);
      (split; [reflexivity|]); cbn [EachCall];
      (split; [exact I|]); (split; [exact I|]); (split; [|exact I]);
      rewrite <- app_assoc; apply Himport; reflexivity.
Qed.

Lemma ingest_imports (cfg : Config) (svc : Services) (body : option Json) (st : State) :
  CachedFromLedger svc st -> EachCall (SingleImport svc) [] (calls st) ->
  CachedFromLedger svc (snd (ingest cfg svc body st))
  /\ EachCall (SingleImport svc) [] (calls (snd (ingest cfg svc body st))).
Proof.
  intros Hinv Hlog. destruct (smsOf body) as [sms|] eqn:Hsms.
  2:{ now rewrite ingest_run, Hsms. }
  destruct (ensureActualReady_log cfg svc st) as [new [Hnew [Hinit _]]].
  pose proof (ensureActualReady_fromLedger cfg svc st Hinv) as Hinv1.
  destruct (ensureActualReady cfg svc st) as [[e | []] st1] eqn:Hready;
    cbn [snd] in Hnew, Hinv1.
  - destruct (extract_run cfg svc sms st) as [Hfail _].
    rewrite ingest_run, Hsms, (Hfail e st1 Hready). cbn [snd].
    split; [exact Hinv1|]. rewrite Hnew.
    apply eachCall_app. split; [exact Hlog | now apply init_calls_no_import].
  - destruct (handler_imports cfg svc body sms st st1 Hsms Hready Hinv1)
      as [rest [Hcalls [Hserving [Hcache Hrest]]]].
    split.
    + destruct (snd (ingest cfg svc body st)) as [c log]. cbn [calls cache] in *.
      subst c log. destruct st1 as [c1 log1]. cbn [calls cache] in *.
      apply cachedFromLedger_app; [exact Hinv1|].
      now apply serving_calls_no_catalog.
    + rewrite Hcalls. apply eachCall_app. split; [|exact Hrest].
      rewrite Hnew. apply eachCall_app.
      split; [exact Hlog | now apply init_calls_no_import].
Qed.

Lemma serve_imports (cfg : Config) (svc : Services) (bodies : list (option Json))
  (st : State) :
  CachedFromLedger svc st -> EachCall (SingleImport svc) [] (calls st) ->
  EachCall (SingleImport svc) [] (calls (serve cfg svc bodies st)).
Proof.
  revert st. induction bodies as [|body more IH]; intros st Hinv Hlog; simpl;
    [exact Hlog|].
  destruct (ingest_imports cfg svc body st Hinv Hlog) as [Hinv' Hlog'].
  now apply IH.
Qed.

(** X18.  Every import the service ever makes.  After any sequence of
    requests from the start of the process, each handled before the next
    one starts, whatever the requests hold and whatever the ledger, the
    model and the clock answer, each call of [importTransactions] in the log
    is for an account that the ledger returned to the last call of
    [getAccounts] before the import and that is not closed, and carries
    exactly one transaction, on that same account, not cleared, with an
    imported id of 36 characters that begins with [sms:]. *)
Theorem every_import_is_single (cfg : Config) (svc : Services)
  (bodies : list (option Json)) (earlier later : list Call) (accountId : string)
  (transactions : list Transaction) :
  calls (serve cfg svc bodies startState)
  = (earlier ++ ImportTransactions accountId transactions :: later)%list ->
  exists accounts a tx,
    (exists before after,
        earlier = (before ++ GetAccounts :: after)%list
        /\ existsb isGetAccounts after = false
        /\ on_getAccounts svc (before ++ [GetAccounts])%list = inr accounts)
    /\ In a accounts /\ a_closed a = false /\ accountId = a_id a
    /\ transactions = [tx]
    /\ tx_account tx = accountId /\ tx_cleared tx = false
    /\ startsWith (tx_imported_id tx) "sms:" = true
    /\ String.length (tx_imported_id tx) = 36.
Proof.
  intros H.
  pose proof (serve_imports cfg svc bodies startState (or_introl eq_refl) I) as Hall.
  rewrite H in Hall. apply eachCall_app in Hall. destruct Hall as [_ [Hcall _]].
  exact Hcall.
Qed.

Lemma every_import_is_single_witness :
  exists accounts a tx,
    (exists before after,
        [Mkdir "/tmp/actual-data";
         Init "/tmp/actual-data" "http://actual:5006" "secret";
         DownloadBudget "budget-1" None; GetAccounts; GetCategories;
         chatCall exampleConfig "Rs.500 debited from HSBC Card 0001 at Amazon"
                  (mkCache true exampleCatalog [])]
        = (before ++ GetAccounts :: after)%list
        /\ existsb isGetAccounts after = false
        /\ on_getAccounts (steadyServices exampleCatalog fiveKeyReply)
                          (before ++ [GetAccounts])%list = inr accounts)
    /\ In a accounts /\ a_closed a = false /\ "a1" = a_id a
    /\ [mkTransaction "a1" "2024-05-01" (-50000)%float (Some "Amazon") None
          "SMS: Amazon" "sms:db861ea2480f7a68ca8e254503fa651e" false] = [tx]
    /\ tx_account tx = "a1" /\ tx_cleared tx = false
    /\ startsWith (tx_imported_id tx) "sms:" = true
    /\ String.length (tx_imported_id tx) = 36.
Proof.
  apply (every_import_is_single exampleConfig
           (steadyServices exampleCatalog fiveKeyReply) [debitRequest]
           [Mkdir "/tmp/actual-data";
            Init "/tmp/actual-data" "http://actual:5006" "secret";
            DownloadBudget "budget-1" None; GetAccounts; GetCategories;
            chatCall exampleConfig "Rs.500 debited from HSBC Card 0001 at Amazon"
                     (mkCache true exampleCatalog [])]
           []).
  vm_compute. reflexivity.
Defined.
